(** * LocaldevScripts: the video orchestrator (orchestrator.py)

    A shallow embedding of [orchestrator.py] and the properties of its
    orchestration core: workflow templating, scene-count normalisation,
    backend selection, the completion detector, the retrying scene
    dispatcher and the clip assembler.

    Conventions of the embedding.
    - Python [int] is [Z]; text is [string] (byte strings: [lower] folds
      A-Z only, which is all the [".mp4"] test can observe). A [str] is
      held as its UTF-8 encoding; its characters are given by
      [utf8_chars].
    - JSON documents are the tagged tree [json]; a [dict] is an
      association list in insertion order, with distinct keys.
    - A [set] of paths is a [gset string]; where the code iterates over a
      set the embedding iterates in listing order (Python leaves the order
      unspecified; no theorem below depends on it).
    - The outside world (clock, directory contents, HTTP backend, disk,
      ffmpeg) is an [Oracle] indexed by the clock. [time.sleep n] advances
      the clock by exactly [n]; everything else takes no time.
    - Exceptions are values of [exn], limited to the subclasses of
      Python's [Exception] that the operations used here raise.
    - The trace records what was done to the world. A disk operation that
      raises leaves no event, except [shutil.copy2]: it may have written
      its destination before it raised, and is recorded as a failed
      copy.
    - [while] loops take fuel; running out of fuel is the outcome
      [OutOfFuel], distinct from returning and from raising.
    - [print] is not modelled. *)

From stdpp Require Import gmap strings list pretty.
From Stdlib Require Import ZArith Lia.
From Stdlib Require Import Ascii.
From Stdlib Require String.

Set Warnings "-register-all".

Local Open Scope Z_scope.

(** ** Exceptions and results *)

Inductive exn : Type :=
| TimeoutError (msg : string)
| RuntimeError (msg : string)
| ValueError (msg : string)
| HTTPError (status : Z)
| ConnectionError
| JSONDecodeError
| AttributeError
| TypeError
| IndexError
| ZeroDivisionError
| FileNotFoundError (path : string)
| OSError (msg : string).

(** Result of a pure computation that may raise. *)
Inductive res (A : Type) : Type :=
| Ok (a : A)
| Err (e : exn).
Arguments Ok {A} a.
Arguments Err {A} e.

(** ** Python strings *)

(** [s.startswith(p)] *)
Fixpoint startswith (p s : string) : bool :=
  match p, s with
  | EmptyString, _ => true
  | String a p', String b s' => if Ascii.eqb a b then startswith p' s' else false
  | String _ _, EmptyString => false
  end.

(** [s.endswith(suf)] *)
Fixpoint endswith (s suf : string) : bool :=
  if String.eqb s suf then true
  else match s with
       | EmptyString => false
       | String _ s' => endswith s' suf
       end.

Definition lower_char (c : Ascii.ascii) : Ascii.ascii :=
  let n := Ascii.N_of_ascii c in
  if ((65 <=? n) && (n <=? 90))%N then Ascii.ascii_of_N (n + 32) else c.

(** [s.lower()] *)
Fixpoint lower (s : string) : string :=
  match s with
  | EmptyString => EmptyString
  | String c s' => String (lower_char c) (lower s')
  end.

(** The scan of [s.replace(old, new)] for a non-empty [old]: [skip] counts
    the characters of a match that are still to be dropped. *)
Fixpoint replace_go (old new : string) (skip : nat) (s : string) : string :=
  match s with
  | EmptyString => EmptyString
  | String c s' =>
      match skip with
      | S k => replace_go old new k s'
      | O =>
          if startswith old s
          then new +:+ replace_go old new (Nat.pred (String.length old)) s'
          else String c (replace_go old new O s')
      end
  end.

(** [s.replace("", new)]: [new] before every character and at the end. *)
Fixpoint replace_empty (new s : string) : string :=
  match s with
  | EmptyString => new
  | String c s' => new +:+ String c (replace_empty new s')
  end.

(** [s.replace(old, new)] *)
Definition replace (old new s : string) : string :=
  match old with
  | EmptyString => replace_empty new s
  | String _ _ => replace_go old new O s
  end.

(** No occurrence of [old] starts inside [a] when [a] is followed by
    [tail]. *)
Fixpoint clean_prefix (old a tail : string) : bool :=
  match a with
  | EmptyString => true
  | String c a' =>
      negb (startswith old (a +:+ tail)) && clean_prefix old a' tail
  end.

(** The characters of a text held as UTF-8: a character is a byte that
    is no continuation byte ([10xxxxxx]) together with the continuation
    bytes that follow it. *)
Definition is_continuation (c : Ascii.ascii) : bool :=
  let n := Ascii.N_of_ascii c in ((128 <=? n) && (n <? 192))%N.

Fixpoint utf8_chars (s : string) : list string :=
  match s with
  | EmptyString => []
  | String c s' =>
      match s' with
      | EmptyString => [String c EmptyString]
      | String d _ =>
          if is_continuation d then
            match utf8_chars s' with
            | ch :: rest => String c ch :: rest
            | [] => [String c EmptyString]
            end
          else String c EmptyString :: utf8_chars s'
      end
  end.

(** [str(n)] for an int, and the format spec [{n:02d}]. *)
Definition str_int (n : Z) : string := pretty n.

Definition format_02d (n : Z) : string :=
  if (0 <=? n) && (n <? 10) then "0" +:+ pretty n else pretty n.

(** ** os.path (POSIX flavour) *)

Definition path_join (a b : string) : string :=
  if startswith "/" b then b
  else if String.eqb a "" || endswith a "/" then a +:+ b
  else a +:+ "/" +:+ b.

Fixpoint has_slash (p : string) : bool :=
  match p with
  | EmptyString => false
  | String c p' => Ascii.eqb c "/"%char || has_slash p'
  end.

(** [p[:p.rfind('/') + 1]] *)
Fixpoint head_of (p : string) : string :=
  match p with
  | EmptyString => EmptyString
  | String c p' => if has_slash p then String c (head_of p') else EmptyString
  end.

(** [s.rstrip('/')] *)
Fixpoint rstrip_slash (s : string) : string :=
  match s with
  | EmptyString => EmptyString
  | String c s' =>
      let r := rstrip_slash s' in
      if Ascii.eqb c "/"%char && String.eqb r "" then EmptyString else String c r
  end.

Definition dirname (p : string) : string :=
  let head := head_of p in
  if String.eqb (rstrip_slash head) "" then head else rstrip_slash head.

(** ** JSON documents *)

Inductive json : Type :=
| JNull
| JBool (b : bool)
| JInt (n : Z)
| JFloat (bits : Z)
| JStr (s : string)
| JList (items : list json)
| JDict (kvs : list (string * json)).

(** [d.get(k)] / [d[k]] on the association list of a dict. *)
Fixpoint dict_get (k : string) (kvs : list (string * json)) : option json :=
  match kvs with
  | [] => None
  | (k', v) :: rest => if String.eqb k k' then Some v else dict_get k rest
  end.

(** Python truthiness of a JSON value. *)
Definition truthy (v : json) : bool :=
  match v with
  | JNull => false
  | JBool b => b
  | JInt n => negb (n =? 0)
  | JFloat bits => negb ((bits =? 0) || (bits =? 2 ^ 63))
  | JStr s => negb (String.eqb s "")
  | JList l => match l with [] => false | _ => true end
  | JDict kvs => match kvs with [] => false | _ => true end
  end.

(** A position inside a document. *)
Inductive step : Type :=
| Key (k : string)
| Idx (i : nat).

Fixpoint lookup_path (p : list step) (d : json) : option json :=
  match p with
  | [] => Some d
  | Key k :: p' =>
      match d with
      | JDict kvs =>
          match dict_get k kvs with
          | Some v => lookup_path p' v
          | None => None
          end
      | _ => None
      end
  | Idx i :: p' =>
      match d with
      | JList l =>
          match l !! i with
          | Some v => lookup_path p' v
          | None => None
          end
      | _ => None
      end
  end.

(** The shape of a document: the document with every string value
    blanked. Keys, sequence lengths and the other scalars stay. *)
Fixpoint shape (d : json) : json :=
  match d with
  | JStr _ => JStr ""
  | JList l => JList (map shape l)
  | JDict kvs => JDict (map (λ kv, (kv.1, shape kv.2)) kvs)
  | other => other
  end.

(** The string values of a document, in document order. *)
Fixpoint strings_of (d : json) : list string :=
  match d with
  | JStr s => [s]
  | JList l => concat (map strings_of l)
  | JDict kvs => concat (map (λ kv, strings_of kv.2) kvs)
  | _ => []
  end.

(** ** Workflow templating: [inject_scene_prompt] *)

Definition PROMPT_PLACEHOLDER : string := "__SCENE_PROMPT__".

Fixpoint _replace (scene_prompt : string) (obj : json) : json :=
  match obj with
  | JDict kvs => JDict (map (λ kv, (kv.1, _replace scene_prompt kv.2)) kvs)
  | JList l => JList (map (_replace scene_prompt) l)
  | JStr s => JStr (replace PROMPT_PLACEHOLDER scene_prompt s)
  | other => other
  end.

Definition inject_scene_prompt (workflow : json) (scene_prompt : string) : json :=
  _replace scene_prompt workflow.

(** ** Scene-count normalisation *)

(** [l[-1]] *)
Definition py_last (l : list string) : res string :=
  match last l with
  | Some x => Ok x
  | None => Err IndexError
  end.

(** [[x] * k] *)
Definition py_repeat (x : string) (k : Z) : list string :=
  replicate (Z.to_nat k) x.

(** [l[:n]] *)
Definition py_slice_to (l : list string) (n : Z) : list string :=
  if 0 <=? n then take (Z.to_nat n) l
  else take (Z.to_nat (Z.of_nat (length l) + n)) l.

(** The tail of [call_lmstudio] (lines 117-123): pad or truncate the
    derived prompts to [num_scenes]. *)
Definition call_lmstudio_normalize
    (scene_prompts : list string) (num_scenes : Z) : res (list string) :=
  let len := Z.of_nat (length scene_prompts) in
  if len <? num_scenes then
    match py_last scene_prompts with
    | Ok last => Ok (scene_prompts ++ py_repeat last (num_scenes - len))
    | Err e => Err e
    end
  else if num_scenes <? len then Ok (py_slice_to scene_prompts num_scenes)
  else Ok scene_prompts.

(** The adjustment in [main] (lines 439-447), guarded by the truthiness
    of [args.num_scenes]. *)
Definition main_adjust_scene_count
    (scene_prompts : list string) (num_scenes : Z) : res (list string) :=
  let len := Z.of_nat (length scene_prompts) in
  if negb (num_scenes =? 0) && negb (len =? num_scenes) then
    if len <? num_scenes then
      match py_last scene_prompts with
      | Ok last => Ok (scene_prompts ++ py_repeat last (num_scenes - len))
      | Err e => Err e
      end
    else Ok (py_slice_to scene_prompts num_scenes)
  else Ok scene_prompts.

(** ** Backend selection (lines 456-459 of [main]) *)

(** [l[i]] for a Python list, negative indices included. *)
Definition py_index (l : list string) (i : Z) : res string :=
  let len := Z.of_nat (length l) in
  let j := if i <? 0 then i + len else i in
  if (0 <=? j) && (j <? len) then
    match l !! Z.to_nat j with
    | Some x => Ok x
    | None => Err IndexError
    end
  else Err IndexError.

(** [comfy_urls[(idx - 1) % num_instances]] *)
Definition select_endpoint (idx : Z) (comfy_urls : list string) : res string :=
  let num_instances := Z.of_nat (length comfy_urls) in
  if num_instances =? 0 then Err ZeroDivisionError
  else py_index comfy_urls ((idx - 1) mod num_instances).

(** ** The persisted scene list *)

(** What [json.dump({"scenes": scene_prompts}, f)] stores. The file is
    modelled by the document it encodes: [json.dump] followed by
    [json.load] is the identity on documents built from dicts with string
    keys, lists and strings. *)
Definition dump_scenes (scene_prompts : list string) : json :=
  JDict [("scenes", JList (map JStr scene_prompts))].

(** Iterating over a loaded value, as [enumerate(raw, start=1)] does:
    a string gives its characters. *)
Definition chars_of (s : string) : list json := map JStr (utf8_chars s).

Definition py_iter (raw : json) : res (list json) :=
  match raw with
  | JList l => Ok l
  | JDict kvs => Ok (map (λ kv, JStr kv.1) kvs)
  | JStr s => Ok (chars_of s)
  | _ => Err TypeError
  end.

(** [s.get("prompt") or s.get("description") or ""] *)
Definition scene_record_text (kvs : list (string * json)) : json :=
  let p := default JNull (dict_get "prompt" kvs) in
  if truthy p then p
  else
    let d := default JNull (dict_get "description" kvs) in
    if truthy d then d else JStr "".

(** One entry of the loop of lines 411-418. [py_str] is Python's [str]. *)
Definition load_scene (py_str : json → string) (s : json) : string :=
  match s with
  | JStr x => x
  | JDict kvs => py_str (scene_record_text kvs)
  | other => py_str other
  end.

(** The scene-loading path of [main] (lines 404-418), from the loaded
    document to [scene_prompts]. *)
Definition load_scene_prompts
    (py_str : json → string) (data : json) : res (list string) :=
  let raw :=
    match data with
    | JDict kvs =>
        match dict_get "scenes" kvs with
        | Some v => v
        | None => data
        end
    | _ => data
    end in
  match py_iter raw with
  | Ok entries => Ok (map (load_scene py_str) entries)
  | Err e => Err e
  end.

(** ** The outside world *)

Record file_stat : Type := { st_mtime : Z; st_size : N }.

Record http_response : Type := { status_code : Z; body : option json }.

(** Disk operations whose only modelled result is success or an error. *)
Inductive io_op : Type :=
| OpMakedirs (path : string)
| OpCopy2 (src dst : string)
| OpWrite (path content : string).

(** What the program can observe of its environment at each instant. *)
Record Oracle : Type := {
  listdir : Z → string → option (list string);
  stat : Z → string → option file_stat;
  http_post : Z → string → json → res http_response;
  disk : Z → io_op → option exn;
  subprocess_run : Z → list string → res Z }.

(** Effects the program performs, in the order it performs them.
    [EvDisk op] is an operation that completed. *)
Inductive event : Type :=
| EvSleep (secs : Z)
| EvGetsize (path : string) (size : option N)
| EvPost (url : string) (payload : json)
| EvDisk (op : io_op)
| EvRun (cmd : list string)
| EvCopyFailed (src dst : string).

(** Program state: the environment, the clock, the shared [known_files]
    set that [main] creates and every dispatch mutates, and the effects
    performed so far. *)
Record State : Type := {
  oracle : Oracle;
  now : Z;
  known_files : gset string;
  trace : list event }.

Inductive outcome (A : Type) : Type :=
| Return (a : A)
| Raise (e : exn)
| OutOfFuel.
Arguments Return {A} a.
Arguments Raise {A} e.
Arguments OutOfFuel {A}.

(** Stateful computations that return, raise, or run out of fuel. *)
Definition M (A : Type) : Type := State → outcome A * State.

Definition ret {A : Type} (a : A) : M A := λ st, (Return a, st).

Definition raise {A : Type} (e : exn) : M A := λ st, (Raise e, st).

Definition diverge {A : Type} : M A := λ st, (OutOfFuel, st).

Definition bind {A B : Type} (m : M A) (k : A → M B) : M B :=
  λ st,
    match m st with
    | (Return a, st') => k a st'
    | (Raise e, st') => (Raise e, st')
    | (OutOfFuel, st') => (OutOfFuel, st')
    end.

(** [try: m / except Exception as e: handler e] *)
Definition try_except {A : Type} (m : M A) (handler : exn → M A) : M A :=
  λ st,
    match m st with
    | (Raise e, st') => handler e st'
    | other => other
    end.

Declare Scope py_scope.
Delimit Scope py_scope with py.
Notation "x <- m ;; k" := (bind m (λ x, k))
  (at level 100, m at next level, right associativity) : py_scope.
Notation "m ;;; k" := (bind m (λ _, k))
  (at level 100, right associativity) : py_scope.
Local Open Scope py_scope.

Definition lift_res {A : Type} (r : res A) : M A :=
  match r with
  | Ok a => ret a
  | Err e => raise e
  end.

Definition log (ev : event) : M unit :=
  λ st,
    (Return tt,
     {| oracle := oracle st; now := now st;
        known_files := known_files st; trace := trace st ++ [ev] |}).

(** [time.time()] *)
Definition time_time : M Z := λ st, (Return (now st), st).

(** [time.sleep(secs)] *)
Definition time_sleep (secs : Z) : M unit :=
  λ st,
    (Return tt,
     {| oracle := oracle st; now := now st + secs;
        known_files := known_files st;
        trace := trace st ++ [EvSleep secs] |}).

(** [os.listdir(folder)] *)
Definition os_listdir (folder : string) : M (list string) :=
  λ st,
    match listdir (oracle st) (now st) folder with
    | Some names => (Return names, st)
    | None => (Raise (FileNotFoundError folder), st)
    end.

(** [os.path.getmtime(p)] *)
Definition os_getmtime (p : string) : M Z :=
  λ st,
    match stat (oracle st) (now st) p with
    | Some s => (Return (st_mtime s), st)
    | None => (Raise (FileNotFoundError p), st)
    end.

(** [os.path.getsize(p)]; [None] stands for [FileNotFoundError], which
    the only caller handles. *)
Definition os_getsize (p : string) : M (option N) :=
  λ st,
    let r := st_size <$> stat (oracle st) (now st) p in
    (log (EvGetsize p r) ;;; ret r) st.

(** [requests.post(url, json=payload)] *)
Definition requests_post (url : string) (payload : json) : M http_response :=
  log (EvPost url payload) ;;;
  (λ st, lift_res (http_post (oracle st) (now st) url payload) st).

(** [resp.ok] *)
Definition resp_ok (resp : http_response) : bool :=
  negb ((400 <=? status_code resp) && (status_code resp <? 600)).

(** [resp.raise_for_status()] *)
Definition raise_for_status (resp : http_response) : M unit :=
  if resp_ok resp then ret tt else raise (HTTPError (status_code resp)).

(** [resp.json()] *)
Definition resp_json (resp : http_response) : M json :=
  match body resp with
  | Some v => ret v
  | None => raise JSONDecodeError
  end.

(** [data.get(key)] for whatever [resp.json()] returned. *)
Definition py_get (data : json) (key : string) : M json :=
  match data with
  | JDict kvs => ret (default JNull (dict_get key kvs))
  | _ => raise AttributeError
  end.

(** A disk operation: performed and logged, or refused with an error. *)
Definition do_disk (op : io_op) : M unit :=
  λ st,
    match disk (oracle st) (now st) op with
    | None => log (EvDisk op) st
    | Some e => (Raise e, st)
    end.

(** [shutil.copy2(src, dst)] copies the content and then the metadata:
    it can raise with the destination already written. A copy that
    raised stays in the trace, as [EvCopyFailed]. *)
Definition shutil_copy2 (src dst : string) : M unit :=
  λ st,
    match disk (oracle st) (now st) (OpCopy2 src dst) with
    | None => log (EvDisk (OpCopy2 src dst)) st
    | Some e => (Raise e, snd (log (EvCopyFailed src dst) st))
    end.

(** [subprocess.run(cmd).returncode] *)
Definition subprocess_returncode (cmd : list string) : M Z :=
  λ st,
    match subprocess_run (oracle st) (now st) cmd with
    | Ok code => (log (EvRun cmd) ;;; ret code) st
    | Err e => (Raise e, st)
    end.

Definition get_known_files : M (gset string) :=
  λ st, (Return (known_files st), st).

(** [known_files.add(p)] *)
Definition known_files_add (p : string) : M unit :=
  λ st,
    (Return tt,
     {| oracle := oracle st; now := now st;
        known_files := {[p]} ∪ known_files st; trace := trace st |}).

(** ** The completion detector *)

Definition is_mp4 (f : string) : bool := endswith (lower f) ".mp4".

Definition list_mp4s (folder : string) : M (list string) :=
  names <- os_listdir folder ;;
  ret (map (path_join folder) (filter (λ f, is_mp4 f = true) names)).

(** [max(new_files, key=os.path.getmtime)], after its first element:
    a later path wins only with a strictly larger key. *)
Fixpoint max_mtime_from (best : string) (best_mtime : Z) (rest : list string)
    : M string :=
  match rest with
  | [] => ret best
  | p :: rest' =>
      m <- os_getmtime p ;;
      if best_mtime <? m then max_mtime_from p m rest'
      else max_mtime_from best best_mtime rest'
  end.

Definition max_mtime (new_files : list string) : M string :=
  match new_files with
  | [] => raise (ValueError "max() arg is an empty sequence")
  | p :: rest => m <- os_getmtime p ;; max_mtime_from p m rest
  end.

(** [current_files - known_files], for [current_files = set(paths)]. *)
Definition new_files_of (paths : list string) (known : gset string) : list string :=
  filter (λ p, p ∉ known) (remove_dups paths).

(** The inner loop [while stable_count < 3] (lines 177-192). It returns
    [last_size]. *)
Fixpoint stabilize (fuel : nat) (candidate : string)
    (last_size stable_count : Z) : M Z :=
  match fuel with
  | O => diverge
  | S fuel' =>
      if stable_count <? 3 then
        r <- os_getsize candidate ;;
        match r with
        | None =>
            time_sleep 1 ;;; stabilize fuel' candidate (-1) 0
        | Some sz =>
            let size := Z.of_N sz in
            if size =? last_size then
              time_sleep 1 ;;;
              stabilize fuel' candidate last_size (stable_count + 1)
            else
              time_sleep 1 ;;; stabilize fuel' candidate size 0
        end
      else ret last_size
  end.

Definition timeout_message (output_dir : string) (timeout : Z) : string :=
  "No new .mp4 detected in " +:+ output_dir +:+ " within "
  +:+ str_int timeout +:+ " seconds.".

(** The outer loop [while time.time() - start < timeout] (lines 167-201). *)
Fixpoint poll (fuel : nat) (output_dir : string) (known : gset string)
    (timeout start : Z) : M string :=
  match fuel with
  | O => diverge
  | S fuel' =>
      t <- time_time ;;
      if t - start <? timeout then
        current <- list_mp4s output_dir ;;
        match new_files_of current known with
        | [] => time_sleep 1 ;;; poll fuel' output_dir known timeout start
        | new_files =>
            candidate <- max_mtime new_files ;;
            stabilize fuel' candidate (-1) 0 ;;;
            ret candidate
        end
      else raise (TimeoutError (timeout_message output_dir timeout))
  end.

Definition wait_for_new_video (fuel : nat) (output_dir : string)
    (known : gset string) (timeout : Z) : M string :=
  start <- time_time ;;
  poll fuel output_dir known timeout start.

(** ** The scene dispatcher *)

Definition scene_filename (scene_index : Z) : string :=
  "scene_" +:+ format_02d scene_index +:+ ".mp4".

(** The body of the [try] block of [run_scene_through_comfy]
    (lines 228-254): one dispatch attempt. *)
Definition scene_attempt (fuel : nat) (scene_index : Z) (scene_prompt : string)
    (comfy_url : string) (base_workflow : json)
    (comfy_output_dir output_dir : string) : M string :=
  let scene_workflow := inject_scene_prompt base_workflow scene_prompt in
  let payload := JDict [("prompt", scene_workflow)] in
  resp <- requests_post (comfy_url +:+ "/prompt") payload ;;
  (if resp_ok resp then ret tt else raise_for_status resp) ;;;
  data <- resp_json resp ;;
  py_get data "prompt_id" ;;;
  py_get data "node_errors" ;;;
  known <- get_known_files ;;
  video_path <- wait_for_new_video fuel comfy_output_dir known 900 ;;
  known_files_add video_path ;;;
  do_disk (OpMakedirs output_dir) ;;;
  let dest_path := path_join output_dir (scene_filename scene_index) in
  shutil_copy2 video_path dest_path ;;;
  ret dest_path.

Definition exhausted_message (scene_index max_retries : Z) : string :=
  "Scene " +:+ str_int scene_index +:+ " failed to render after "
  +:+ str_int max_retries +:+ " attempts.".

(** [for attempt in attempts: try ... except ...], then the [raise] after
    the loop. *)
Fixpoint attempts_loop (fuel : nat) (attempts : list Z) (scene_index : Z)
    (scene_prompt comfy_url : string) (base_workflow : json)
    (comfy_output_dir output_dir : string) (max_retries : Z) : M string :=
  match attempts with
  | [] => raise (RuntimeError (exhausted_message scene_index max_retries))
  | attempt :: rest =>
      try_except
        (scene_attempt fuel scene_index scene_prompt comfy_url base_workflow
           comfy_output_dir output_dir)
        (λ e,
           if attempt =? max_retries then raise e
           else
             time_sleep 3 ;;;
             attempts_loop fuel rest scene_index scene_prompt comfy_url
               base_workflow comfy_output_dir output_dir max_retries)
  end.

(** [range(1, max_retries + 1)] is [seqZ 1 max_retries]. [known_files] is
    the set held in the state. *)
Definition run_scene_through_comfy (fuel : nat) (scene_index : Z)
    (scene_prompt comfy_url : string) (base_workflow : json)
    (comfy_output_dir output_dir : string) (max_retries : Z) : M string :=
  attempts_loop fuel (seqZ 1 max_retries) scene_index scene_prompt comfy_url
    base_workflow comfy_output_dir output_dir max_retries.

(** ** The assembler *)

Definition LF : string := String "010"%char EmptyString.

(** The text of one [f.write] of the manifest. *)
Definition manifest_line (p : string) : string :=
  "file '" +:+ p +:+ "'" +:+ LF.

Definition manifest (clip_paths : list string) : string :=
  foldr String.append "" (map manifest_line clip_paths).

Definition ffmpeg_cmd (concat_list_path final_output : string) : list string :=
  ["ffmpeg"; "-y"; "-f"; "concat"; "-safe"; "0"; "-i"; concat_list_path;
   "-c"; "copy"; final_output].

Definition ffmpeg_failed_message (returncode : Z) : string :=
  "ffmpeg failed with code " +:+ str_int returncode.

Definition concat_clips (clip_paths : list string) (final_output : string)
    : M unit :=
  match clip_paths with
  | [] => raise (ValueError "No clips to concatenate.")
  | _ =>
      let concat_list_path :=
        path_join (dirname final_output) "concat_list.txt" in
      do_disk (OpWrite concat_list_path (manifest clip_paths)) ;;;
      returncode <- subprocess_returncode
                      (ffmpeg_cmd concat_list_path final_output) ;;
      if negb (returncode =? 0)
      then raise (RuntimeError (ffmpeg_failed_message returncode))
      else ret tt
  end.

(** ** Specification vocabulary *)

(** [out] is [scene_prompts] normalised to the target count [n]: exactly
    [n] entries, padded with the last original entry, cut to the first
    [n], or left as it is. *)
Definition normalized_to (scene_prompts : list string) (n : Z)
    (out : list string) : Prop :=
  Z.of_nat (length out) = n
  ∧ (Z.of_nat (length scene_prompts) < n →
     ∃ x, last scene_prompts = Some x
          ∧ out = scene_prompts
                  ++ replicate (Z.to_nat (n - Z.of_nat (length scene_prompts))) x)
  ∧ (n < Z.of_nat (length scene_prompts) →
     out = take (Z.to_nat n) scene_prompts)
  ∧ (n = Z.of_nat (length scene_prompts) → out = scene_prompts).

(** Scalars other than strings. *)
Definition plain_scalar (v : json) : bool :=
  match v with
  | JNull | JBool _ | JInt _ | JFloat _ => true
  | _ => false
  end.

(** The observed size of [p] at time [t]. *)
Definition size_at (o : Oracle) (p : string) (t : Z) : option N :=
  st_size <$> stat o t p.

(** From [t0] on, [p] never shows the same size at four sampling instants
    in a row. *)
Definition unstable_from (o : Oracle) (p : string) (t0 : Z) : Prop :=
  ∀ t x, t0 ≤ t →
    ¬ (size_at o p t = Some x ∧ size_at o p (t + 1) = Some x
       ∧ size_at o p (t + 2) = Some x ∧ size_at o p (t + 3) = Some x).

(** The new files a poll of [output_dir] at time [t] sees. *)
Definition new_files_at (o : Oracle) (output_dir : string)
    (known : gset string) (t : Z) : option (list string) :=
  (λ names,
     new_files_of
       (map (path_join output_dir) (filter (λ f, is_mp4 f = true) names))
       known)
  <$> listdir o t output_dir.

(** A poll at time [t] sees the folder and nothing new in it. *)
Definition idle_at (o : Oracle) (output_dir : string)
    (known : gset string) (t : Z) : Prop :=
  new_files_at o output_dir known t = Some [].

(** The state after [events] took [secs] seconds. *)
Definition advance (secs : Z) (events : list event) (st : State) : State :=
  {| oracle := oracle st; now := now st + secs;
     known_files := known_files st; trace := trace st ++ events |}.

(** The size samples recorded in a trace. *)
Fixpoint size_samples (tr : list event) : list (option N) :=
  match tr with
  | [] => []
  | EvGetsize _ r :: tr' => r :: size_samples tr'
  | _ :: tr' => size_samples tr'
  end.

(** What one sampling round of a complete file leaves in the trace. *)
Definition sample_round (p : string) (x : N) : list event :=
  [EvGetsize p (Some x); EvSleep 1].

(** The lines of a text, each ended by a line feed (the last one may
    lack it). *)
Fixpoint split_lines (s : string) : list string :=
  match s with
  | EmptyString => []
  | String c s' =>
      if Ascii.eqb c "010"%char then EmptyString :: split_lines s'
      else
        match split_lines s' with
        | [] => [String c EmptyString]
        | line :: rest => String c line :: rest
        end
  end.

Fixpoint has_LF (s : string) : bool :=
  match s with
  | EmptyString => false
  | String c s' => Ascii.eqb c "010"%char || has_LF s'
  end.


(** ** Concrete inputs used by the examples below *)

Definition sample_workflow : json :=
  JDict
    [("6", JDict [("class_type", JStr "CLIPTextEncode");
                  ("inputs", JDict [("text", JStr "cinematic, __SCENE_PROMPT__, 4k");
                                    ("seed", JInt 42);
                                    ("cfg", JFloat 4620693217682128896)])]);
     ("9", JList [JStr "__SCENE_PROMPT__ / __SCENE_PROMPT__"; JNull;
                  JBool true; JStr "no token here"])].

Definition sample_injected : json :=
  JDict
    [("6", JDict [("class_type", JStr "CLIPTextEncode");
                  ("inputs", JDict [("text", JStr "cinematic, a robot paints, 4k");
                                    ("seed", JInt 42);
                                    ("cfg", JFloat 4620693217682128896)])]);
     ("9", JList [JStr "a robot paints / a robot paints"; JNull;
                  JBool true; JStr "no token here"])].

Definition ok_response : http_response :=
  {| status_code := 200;
     body := Some (JDict [("prompt_id", JStr "7f3a"); ("number", JInt 1)]) |}.

Definition initial_state (o : Oracle) (known : gset string) : State :=
  {| oracle := o; now := 0; known_files := known; trace := [] |}.

(** The watched folder [out] holds an old clip; [clip.MP4] appears at
    time 2, complete, 100 bytes long, next to a file that is no video. *)
Definition steady_oracle : Oracle :=
  {| listdir := λ t folder,
       if String.eqb folder "out"
       then Some (if t <? 2 then ["old.mp4"]
                  else ["old.mp4"; "clip.MP4"; "notes.txt"])
       else None;
     stat := λ t p,
       if String.eqb p "out/old.mp4"
       then Some {| st_mtime := -5; st_size := 4096 |}
       else if String.eqb p "out/clip.MP4" && (2 <=? t)
       then Some {| st_mtime := 2; st_size := 100 |}
       else None;
     http_post := λ _ _ _, Ok ok_response;
     disk := λ _ _, None;
     subprocess_run := λ _ _, Ok 0 |}.

(** [clip.mp4] is there from the start and grows by one byte a second,
    for ever. *)
Definition growing_oracle : Oracle :=
  {| listdir := λ _ folder,
       if String.eqb folder "out" then Some ["clip.mp4"] else None;
     stat := λ t p,
       if String.eqb p "out/clip.mp4"
       then Some {| st_mtime := t; st_size := Z.to_N t |}
       else None;
     http_post := λ _ _ _, Ok ok_response;
     disk := λ _ _, None;
     subprocess_run := λ _ _, Ok 0 |}.

(** Nothing ever appears in [out]. *)
Definition empty_oracle : Oracle :=
  {| listdir := λ _ folder,
       if String.eqb folder "out" then Some ["old.mp4"; "notes.txt"] else None;
     stat := λ _ _, None;
     http_post := λ _ _ _, Ok ok_response;
     disk := λ _ _, None;
     subprocess_run := λ _ _, Ok 0 |}.

(** As [steady_oracle], with a disk that refuses every copy. *)
Definition full_disk_oracle : Oracle :=
  {| listdir := listdir steady_oracle;
     stat := stat steady_oracle;
     http_post := http_post steady_oracle;
     disk := λ _ op,
       match op with
       | OpCopy2 _ _ => Some (OSError "No space left on device")
       | _ => None
       end;
     subprocess_run := subprocess_run steady_oracle |}.


(** The backend always answers 500. *)
Definition down_oracle : Oracle :=
  {| listdir := λ _ _, Some [];
     stat := λ _ _, None;
     http_post := λ _ _ _, Ok {| status_code := 500; body := None |};
     disk := λ _ _, None;
     subprocess_run := λ _ _, Ok 0 |}.

(** ffmpeg exits with status 1. *)
Definition ffmpeg_fails_oracle : Oracle :=
  {| listdir := λ _ _, Some [];
     stat := λ _ _, None;
     http_post := λ _ _ _, Ok ok_response;
     disk := λ _ _, None;
     subprocess_run := λ _ _, Ok 1 |}.

Definition steady_known : gset string := {["out/old.mp4"]}.

Definition steady_run : outcome string * State :=
  wait_for_new_video 10 "out" steady_known 900
    (initial_state steady_oracle steady_known).

Definition empty_run : outcome string * State :=
  wait_for_new_video 10 "out" steady_known 5
    (initial_state empty_oracle steady_known).

Definition full_disk_run : outcome string * State :=
  run_scene_through_comfy 10 3 "a robot paints" "http://127.0.0.1:8188"
    sample_workflow "out" "clips" 1
    (initial_state full_disk_oracle steady_known).





Definition three_clips : list string :=
  ["clips/scene_01.mp4"; "clips/scene_02.mp4"; "clips/scene_03.mp4"].

Definition ffmpeg_fails_run : outcome unit * State :=
  concat_clips three_clips "clips/final_video.mp4"
    (initial_state ffmpeg_fails_oracle ∅).

(** [clip.mp4] grows for ten seconds and is complete after that. *)
Definition late_oracle : Oracle :=
  {| listdir := λ _ folder,
       if String.eqb folder "out" then Some ["clip.mp4"] else None;
     stat := λ t p,
       if String.eqb p "out/clip.mp4"
       then Some {| st_mtime := Z.min t 10; st_size := Z.to_N (Z.min t 10) |}
       else None;
     http_post := λ _ _ _, Ok ok_response;
     disk := λ _ _, None;
     subprocess_run := λ _ _, Ok 0 |}.

Definition late_run : outcome string * State :=
  wait_for_new_video 20 "out" ∅ 5 (initial_state late_oracle ∅).
(** * The rest of [orchestrator.py]

    [call_lmstudio] (the request, the two-stage parse of the reply and the
    derivation of the prompts), the parsing of [--comfy-urls] and the
    rendering part of [main]. Three things Python provides are taken as
    parameters: [isspace], the table of whitespace characters [str.strip]
    uses; [json_loads], the parser behind [json.loads] ([None] stands for
    [json.JSONDecodeError]); and [py_str], [str] on values that are not
    strings. Text is, as before, the UTF-8 encoding of a [str];
    [isspace] is asked byte by byte, so for [strip] the embedding is the
    code on text whose whitespace is ASCII, with [ascii_isspace] for
    [isspace]. *)

(** ** More of Python's strings *)

(** [s.lstrip()] *)
Fixpoint lstrip (isspace : ascii → bool) (s : string) : string :=
  match s with
  | EmptyString => EmptyString
  | String c s' => if isspace c then lstrip isspace s' else s
  end.

(** [s.rstrip()] *)
Fixpoint rstrip (isspace : ascii → bool) (s : string) : string :=
  match s with
  | EmptyString => EmptyString
  | String c s' =>
      let r := rstrip isspace s' in
      if isspace c && String.eqb r "" then EmptyString else String c r
  end.

(** [s.strip()] *)
Definition strip (isspace : ascii → bool) (s : string) : string :=
  rstrip isspace (lstrip isspace s).

(** The whitespace characters among the first 128: tab to carriage
    return, the four separators, the space. *)
Definition ascii_isspace (c : ascii) : bool :=
  let n := N_of_ascii c in
  ((9 <=? n) && (n <=? 13) || (28 <=? n) && (n <=? 32))%N.

(** [s.split(sep)] for a separator of one character. *)
Fixpoint split_on (sep : ascii) (s : string) : list string :=
  match s with
  | EmptyString => [EmptyString]
  | String c s' =>
      if Ascii.eqb c sep then EmptyString :: split_on sep s'
      else
        match split_on sep s' with
        | [] => [String c EmptyString]
        | piece :: rest => String c piece :: rest
        end
  end.

(** [sep.join(pieces)] *)
Fixpoint join_with (sep : string) (pieces : list string) : string :=
  match pieces with
  | [] => EmptyString
  | [p] => p
  | p :: rest => p +:+ sep +:+ join_with sep rest
  end.

Fixpoint has_char (c : ascii) (s : string) : bool :=
  match s with
  | EmptyString => false
  | String x s' => Ascii.eqb x c || has_char c s'
  end.

(** [s.find(c)] for a string [c] of one character: the first index, or
    [-1]. *)
Fixpoint find_char (c : ascii) (s : string) : Z :=
  match s with
  | EmptyString => -1
  | String x s' =>
      if Ascii.eqb x c then 0
      else
        let i := find_char c s' in
        if i =? -1 then -1 else i + 1
  end.

(** [s.rfind(c)]: the last index, or [-1]. *)
Fixpoint rfind_char (c : ascii) (s : string) : Z :=
  match s with
  | EmptyString => -1
  | String x s' =>
      let i := rfind_char c s' in
      if i =? -1 then (if Ascii.eqb x c then 0 else -1) else i + 1
  end.

Fixpoint str_take (n : nat) (s : string) : string :=
  match n, s with
  | S n', String c s' => String c (str_take n' s')
  | _, _ => EmptyString
  end.

Fixpoint str_drop (n : nat) (s : string) : string :=
  match n, s with
  | S n', String _ s' => str_drop n' s'
  | _, _ => s
  end.

(** [s[start:stop]] for [0 <= start] and [0 <= stop]. *)
Definition py_slice (s : string) (start stop : Z) : string :=
  str_take (Z.to_nat (stop - start)) (str_drop (Z.to_nat start) s).

(** Bytes that all continue a character. *)
Fixpoint continuation_only (s : string) : bool :=
  match s with
  | EmptyString => true
  | String c s' => is_continuation c && continuation_only s'
  end.

(** One byte, then bytes that continue it. *)
Definition char_bytes (ch : string) : bool :=
  match ch with
  | EmptyString => false
  | String _ rest => continuation_only rest
  end.

(** The bytes of one character: a byte that continues none, then bytes
    that continue it. *)
Definition one_char (ch : string) : bool :=
  match ch with
  | EmptyString => false
  | String c rest => negb (is_continuation c) && continuation_only rest
  end.

(** Text of ASCII characters only. *)
Fixpoint ascii_only (s : string) : bool :=
  match s with
  | EmptyString => true
  | String c s' => (N_of_ascii c <? 128)%N && ascii_only s'
  end.

(** ** Errors *)

(** [exn] with the two kinds the code below raises besides. *)
Inductive error : Type :=
| Exn (e : exn)
| KeyError (key : json)
| SystemExit (msg : string).

Inductive result (A : Type) : Type :=
| Done (a : A)
| Failed (e : error).
Arguments Done {A} a.
Arguments Failed {A} e.

Definition result_bind {A B : Type} (r : result A) (k : A → result B)
    : result B :=
  match r with
  | Done a => k a
  | Failed e => Failed e
  end.

Definition of_res {A : Type} (r : res A) : result A :=
  match r with
  | Ok a => Done a
  | Err e => Failed (Exn e)
  end.

(** ** Subscripts on loaded JSON *)

(** [v[key]] for a string [key]. *)
Definition getitem_key (v : json) (key : string) : result json :=
  match v with
  | JDict kvs =>
      match dict_get key kvs with
      | Some x => Done x
      | None => Failed (KeyError (JStr key))
      end
  | _ => Failed (Exn TypeError)
  end.

(** [v[0]] *)
Definition getitem_0 (v : json) : result json :=
  match v with
  | JList (x :: _) => Done x
  | JList [] => Failed (Exn IndexError)
  | JDict _ => Failed (KeyError (JInt 0))
  | JStr s =>
      match utf8_chars s with
      | ch :: _ => Done (JStr ch)
      | [] => Failed (Exn IndexError)
      end
  | _ => Failed (Exn TypeError)
  end.

(** ** [call_lmstudio]: from the reply to the prompts *)

(** [data["choices"][0]["message"]["content"]] (line 64), which the code
    goes on to slice and to parse: anything but a string ends in a
    [TypeError] there (for a dict Python 3.12 and later raise [KeyError]
    on the slice instead). *)
Definition reply_content (data : json) : result string :=
  result_bind (getitem_key data "choices") (λ choices,
  result_bind (getitem_0 choices) (λ choice,
  result_bind (getitem_key choice "message") (λ message,
  result_bind (getitem_key message "content") (λ content,
  match content with
  | JStr s => Done s
  | _ => Failed (Exn TypeError)
  end)))).

(** [s[:n]]: the first [n] characters. *)
Definition py_prefix (n : nat) (s : string) : string :=
  foldr String.append "" (take n (utf8_chars s)).

Definition no_braces_message (content : string) : string :=
  "Failed to parse LM Studio JSON (no braces). First 400 chars:" +:+ LF
  +:+ py_prefix 400 content.

Definition bad_json_message (content : string) : string :=
  "Failed to parse LM Studio JSON. First 400 chars:" +:+ LF
  +:+ py_prefix 400 content.

(** The block between the first opening and the last closing brace
    (lines 73-80). *)
Definition json_block_of (content : string) : res string :=
  let start := find_char "{"%char content in
  let end_ := rfind_char "}"%char content in
  if (start =? -1) || (end_ =? -1) || (end_ <=? start)
  then Err (RuntimeError (no_braces_message content))
  else Ok (py_slice content start (end_ + 1)).

(** The two-stage parse (lines 70-87). *)
Definition parse_content (json_loads : string → option json)
    (content : string) : res json :=
  match json_loads content with
  | Some parsed => Ok parsed
  | None =>
      match json_block_of content with
      | Err e => Err e
      | Ok json_block =>
          match json_loads json_block with
          | Some parsed => Ok parsed
          | None => Err (RuntimeError (bad_json_message content))
          end
      end
  end.

Definition no_scenes_message (py_str : json → string) (parsed : json)
    : string :=
  "LM Studio returned no scenes: " +:+ py_str parsed.

(** [parsed.get("scenes", [])] and the check after it (lines 89-91). *)
Definition scenes_raw_of (py_str : json → string) (parsed : json)
    : res (list json) :=
  match parsed with
  | JDict kvs =>
      match default (JList []) (dict_get "scenes" kvs) with
      | JList (scene :: rest) => Ok (scene :: rest)
      | _ => Err (RuntimeError (no_scenes_message py_str parsed))
      end
  | _ => Err AttributeError
  end.

(** [(scene.get(key) or "").strip()] *)
Definition text_field (isspace : ascii → bool) (kvs : list (string * json))
    (key : string) : res string :=
  let v := default JNull (dict_get key kvs) in
  if truthy v then
    match v with
    | JStr s => Ok (strip isspace s)
    | _ => Err AttributeError
    end
  else Ok (strip isspace "").

(** The choice of lines 105-112. *)
Definition compose_prompt (i : Z) (title desc : string) : string :=
  if negb (String.eqb title "") && negb (String.eqb desc "")
  then title +:+ ": " +:+ desc
  else if negb (String.eqb desc "") then desc
  else if negb (String.eqb title "") then title
  else "Scene " +:+ str_int i.

(** One round of the loop of lines 95-115. *)
Definition derive_prompt (isspace : ascii → bool) (py_str : json → string)
    (i : Z) (scene : json) : res string :=
  match scene with
  | JDict kvs =>
      match text_field isspace kvs "title" with
      | Err e => Err e
      | Ok title =>
          match text_field isspace kvs "description" with
          | Err e => Err e
          | Ok desc => Ok (compose_prompt i title desc)
          end
      end
  | JStr s => Ok (compose_prompt i "" (strip isspace s))
  | other => Ok (compose_prompt i "" (strip isspace (py_str other)))
  end.

(** The loop, [i] counting from its start value. *)
Fixpoint derive_prompts (isspace : ascii → bool) (py_str : json → string)
    (i : Z) (scenes_raw : list json) : res (list string) :=
  match scenes_raw with
  | [] => Ok []
  | scene :: rest =>
      match derive_prompt isspace py_str i scene with
      | Err e => Err e
      | Ok full =>
          match derive_prompts isspace py_str (i + 1) rest with
          | Err e => Err e
          | Ok fulls => Ok (full :: fulls)
          end
      end
  end.

(** Lines 69-123: from the text of the reply to the prompts returned. *)
Definition prompts_of_content (json_loads : string → option json)
    (py_str : json → string) (isspace : ascii → bool)
    (content : string) (num_scenes : Z) : res (list string) :=
  match parse_content json_loads content with
  | Err e => Err e
  | Ok parsed =>
      match scenes_raw_of py_str parsed with
      | Err e => Err e
      | Ok scenes_raw =>
          match derive_prompts isspace py_str 1 scenes_raw with
          | Err e => Err e
          | Ok scene_prompts =>
              call_lmstudio_normalize scene_prompts num_scenes
          end
      end
  end.

(** ** [call_lmstudio]: the request *)

Definition LMSTUDIO_URL : string := "http://127.0.0.1:1234/v1/chat/completions".

Definition LMSTUDIO_MODEL : string := "maya1-i1".

Definition DQ : string := String "034"%char EmptyString.

(** The lines of the f-string [system_msg] (lines 27-43); each is
    followed by a line feed. *)
Definition system_msg_lines (story_prompt : string) (num_scenes : Z)
    : list string :=
  ["You generate a storyboard for a short vertical video.";
   "";
   "Return exactly " +:+ str_int num_scenes +:+ " scenes in strict JSON like:";
   "";
   "{";
   "  " +:+ DQ +:+ "scenes" +:+ DQ +:+ ": [";
   "    {";
   "      " +:+ DQ +:+ "title" +:+ DQ +:+ ": " +:+ DQ
     +:+ "Short cinematic title" +:+ DQ +:+ ",";
   "      " +:+ DQ +:+ "description" +:+ DQ +:+ ": " +:+ DQ
     +:+ "1â€“3 sentences describing the shot in visual detail." +:+ DQ;
   "    }";
   "  ]";
   "}";
   "";
   "Rules:";
   "- Respond ONLY with JSON, no extra commentary.";
   "- The story should be about: " +:+ story_prompt].

Definition system_msg (story_prompt : string) (num_scenes : Z) : string :=
  foldr (λ line acc, line +:+ LF +:+ acc) "" (system_msg_lines story_prompt num_scenes).

(** The request body (lines 45-54); [0.7] is the double
    [0x3FE6666666666666]. *)
Definition lmstudio_payload (story_prompt : string) (num_scenes : Z) : json :=
  JDict
    [("model", JStr LMSTUDIO_MODEL);
     ("messages",
      JList [JDict [("role", JStr "system");
                    ("content", JStr (system_msg story_prompt num_scenes))];
             JDict [("role", JStr "user"); ("content", JStr story_prompt)]]);
     ("temperature", JFloat 4604480259023595110);
     ("max_tokens", JInt 512);
     ("response_format", JDict [("type", JStr "text")])].

(** [call_lmstudio]: one request, then the reply is taken apart. The
    state changes by the one event of the request. *)
Definition call_lmstudio (json_loads : string → option json)
    (py_str : json → string) (isspace : ascii → bool)
    (story_prompt : string) (num_scenes : Z)
    : State → result (list string) * State :=
  λ st,
    let payload := lmstudio_payload story_prompt num_scenes in
    let st1 := snd (log (EvPost LMSTUDIO_URL payload) st) in
    match http_post (oracle st) (now st) LMSTUDIO_URL payload with
    | Err e => (Failed (Exn e), st1)
    | Ok resp =>
        if resp_ok resp then
          match body resp with
          | None => (Failed (Exn JSONDecodeError), st1)
          | Some data =>
              (result_bind (reply_content data) (λ content,
                 of_res (prompts_of_content json_loads py_str isspace
                           content num_scenes)),
               st1)
          end
        else (Failed (Exn (HTTPError (status_code resp))), st1)
    end.

(** ** [main]: the backends and the rendering *)

(** [[u.strip() for u in args.comfy_urls.split(",") if u.strip()]]
    (line 390). *)
Definition parse_comfy_urls (isspace : ascii → bool) (comfy_urls : string)
    : list string :=
  map (strip isspace)
    (filter (λ u, strip isspace u ≠ "") (split_on ","%char comfy_urls)).

(** Lines 390-392. *)
Definition comfy_urls_of (isspace : ascii → bool) (comfy_urls : string)
    : result (list string) :=
  match parse_comfy_urls isspace comfy_urls with
  | [] => Failed (SystemExit "No valid URLs in --comfy-urls")
  | urls => Done urls
  end.

(** [not args.x] is false for an argument that was given and is not the
    empty string. *)
Definition given (arg : option string) : bool :=
  match arg with
  | Some (String _ _) => true
  | _ => false
  end.

(** The list [missing] of lines 378-386. *)
Definition missing_args
    (workflow_json comfy_urls comfy_output_dir output_dir : option string)
    : list string :=
  (if given workflow_json then [] else ["--workflow-json"])
  ++ (if given comfy_urls then [] else ["--comfy-urls"])
  ++ (if given comfy_output_dir then [] else ["--comfy-output-dir"])
  ++ (if given output_dir then [] else ["--output-dir"]).

Definition missing_message (missing : list string) : string :=
  "Missing required arguments for rendering: " +:+ join_with ", " missing.

(** Lines 378-392: the check of the required arguments, then the
    backends. *)
Definition main_comfy_urls (isspace : ascii → bool)
    (workflow_json comfy_urls comfy_output_dir output_dir : option string)
    : result (list string) :=
  match missing_args workflow_json comfy_urls comfy_output_dir output_dir with
  | [] => comfy_urls_of isspace (default "" comfy_urls)
  | missing => Failed (SystemExit (missing_message missing))
  end.

(** The end of the [try] block (lines 246-254): mark the detected clip,
    make the folder, copy, return the destination. *)
Definition claim_and_copy (video_path output_dir dest_path : string)
    : M string :=
  known_files_add video_path ;;;
  do_disk (OpMakedirs output_dir) ;;;
  shutil_copy2 video_path dest_path ;;;
  ret dest_path.

(** [known_files = set(paths)]: [main] creates the set every dispatch
    shares. *)
Definition set_known_files (paths : list string) : M unit :=
  λ st,
    (Return tt,
     {| oracle := oracle st; now := now st;
        known_files := list_to_set paths; trace := trace st |}).

(** The loop of lines 458-470, [idx] counting from its start value;
    [clip_paths] is the list built so far. *)
Fixpoint dispatch_loop (fuel : nat) (idx : Z) (scene_prompts : list string)
    (comfy_urls : list string) (base_workflow : json)
    (comfy_output_dir output_dir : string) (max_retries : Z)
    (clip_paths : list string) : M (list string) :=
  match scene_prompts with
  | [] => ret clip_paths
  | prompt :: rest =>
      url <- lift_res (select_endpoint idx comfy_urls) ;;
      clip_path <- run_scene_through_comfy fuel idx prompt url base_workflow
                     comfy_output_dir output_dir max_retries ;;
      dispatch_loop fuel (idx + 1) rest comfy_urls base_workflow
        comfy_output_dir output_dir max_retries (clip_paths ++ [clip_path])
  end.

(** Lines 452-473 of [main]: snapshot the folder, render every scene in
    order, assemble. *)
Definition main_render (fuel : nat) (scene_prompts comfy_urls : list string)
    (base_workflow : json) (comfy_output_dir output_dir : string)
    (max_retries : Z) : M unit :=
  do_disk (OpMakedirs comfy_output_dir) ;;;
  paths <- list_mp4s comfy_output_dir ;;
  set_known_files paths ;;;
  clip_paths <- dispatch_loop fuel 1 scene_prompts comfy_urls base_workflow
                  comfy_output_dir output_dir max_retries [] ;;
  concat_clips clip_paths (path_join output_dir "final_video.mp4").

(** ** Reading traces *)

(** What [evs] was added to the trace between two states, in one
    environment. *)
Definition extends (st st' : State) (evs : list event) : Prop :=
  oracle st' = oracle st ∧ trace st' = trace st ++ evs.

(** The seconds slept in a trace. *)
Fixpoint slept (tr : list event) : Z :=
  match tr with
  | [] => 0
  | EvSleep secs :: tr' => secs + slept tr'
  | _ :: tr' => slept tr'
  end.

(** The requests of a trace. *)
Fixpoint posts (tr : list event) : list (string * json) :=
  match tr with
  | [] => []
  | EvPost url payload :: tr' => (url, payload) :: posts tr'
  | _ :: tr' => posts tr'
  end.

(** The copies of a trace that completed, as (source, destination). *)
Fixpoint copies (tr : list event) : list (string * string) :=
  match tr with
  | [] => []
  | EvDisk (OpCopy2 src dst) :: tr' => (src, dst) :: copies tr'
  | _ :: tr' => copies tr'
  end.

(** Every call of [shutil.copy2] in a trace, whether it completed or
    raised. *)
Fixpoint copy_calls (tr : list event) : list (string * string) :=
  match tr with
  | [] => []
  | EvDisk (OpCopy2 src dst) :: tr' => (src, dst) :: copy_calls tr'
  | EvCopyFailed src dst :: tr' => (src, dst) :: copy_calls tr'
  | _ :: tr' => copy_calls tr'
  end.

(** The external processes of a trace. *)
Fixpoint runs (tr : list event) : list (list string) :=
  match tr with
  | [] => []
  | EvRun cmd :: tr' => cmd :: runs tr'
  | _ :: tr' => runs tr'
  end.

(** The files written in a trace, as (path, content). *)
Fixpoint writes (tr : list event) : list (string * string) :=
  match tr with
  | [] => []
  | EvDisk (OpWrite path content) :: tr' => (path, content) :: writes tr'
  | _ :: tr' => writes tr'
  end.

(** What the detector does while it watches [p]: it sleeps a second or
    samples the size of [p]. *)
Definition watch_event (p : string) (ev : event) : Prop :=
  ev = EvSleep 1 ∨ ∃ r, ev = EvGetsize p r.

(** Between two states the program only watched [p]: same environment,
    same known files, a clock that moved by the seconds slept. *)
Definition watched (p : string) (st st' : State) (evs : list event) : Prop :=
  extends st st' evs
  ∧ known_files st' = known_files st
  ∧ now st' = now st + slept evs
  ∧ Forall (watch_event p) evs.

(** The modification time of [p] at time [t]. *)
Definition mtime_at (o : Oracle) (p : string) (t : Z) : option Z :=
  st_mtime <$> stat o t p.

(** What one dispatch may do: the same job to the same endpoint, the
    detector's watching, the pause between attempts, the folder and the
    copy, completed or not, of its own clip. *)
Definition dispatch_event (url : string) (payload : json)
    (output_dir dest_path : string) (ev : event) : Prop :=
  match ev with
  | EvSleep secs => secs = 1 ∨ secs = 3
  | EvGetsize _ _ => True
  | EvPost u p => u = url ∧ p = payload
  | EvDisk (OpMakedirs d) => d = output_dir
  | EvDisk (OpCopy2 _ dst) => dst = dest_path
  | EvDisk (OpWrite _ _) => False
  | EvRun _ => False
  | EvCopyFailed _ dst => dst = dest_path
  end.

(** The destination of scene [idx]. *)
Definition clip_path_of (output_dir : string) (idx : Z) : string :=
  path_join output_dir (scene_filename idx).

(** Between two states clips were claimed soundly: the known files only
    grew, and the sources of the copy calls, completed or not, are
    distinct files that were not known before and are known now. *)
Definition claimed (st st' : State) (evs : list event) : Prop :=
  extends st st' evs
  ∧ known_files st ⊆ known_files st'
  ∧ NoDup (copy_calls evs).*1
  ∧ ∀ p, p ∈ (copy_calls evs).*1 →
         (p ∉ known_files st) ∧ (p ∈ known_files st').

(** The trace of (a part of) one dispatch: clips claimed soundly, only
    events of that dispatch, no process and no file written. *)
Definition dispatch_trace (url : string) (payload : json)
    (output_dir dest_path : string) (st st' : State) (evs : list event)
    : Prop :=
  claimed st st' evs
  ∧ Forall (dispatch_event url payload output_dir dest_path) evs
  ∧ runs evs = [] ∧ writes evs = [].

(** How a dispatch ends: when it returns, with the completed copy of a
    new [.mp4] to its clip path and no completed copy before; otherwise
    without a completed copy. *)
Definition ends_in_copy (known : gset string) (dest_path : string)
    (r : outcome string) (evs : list event) : Prop :=
  match r with
  | Return d =>
      d = dest_path
      ∧ ∃ src evs0,
          evs = evs0 ++ [EvDisk (OpCopy2 src d)] ∧ copies evs0 = []
          ∧ (src ∉ known) ∧ is_mp4 src = true
  | _ => copies evs = []
  end.

(** A trace read with a scene counter that starts at [idx]: every copy
    call goes to the clip of the counter, and a copy that completes moves
    the counter on. *)
Fixpoint scene_ordered (output_dir : string) (idx : Z) (tr : list event)
    : Prop :=
  match tr with
  | [] => True
  | EvDisk (OpCopy2 _ dst) :: tr' =>
      dst = clip_path_of output_dir idx
      ∧ scene_ordered output_dir (idx + 1) tr'
  | EvCopyFailed _ dst :: tr' =>
      dst = clip_path_of output_dir idx ∧ scene_ordered output_dir idx tr'
  | _ :: tr' => scene_ordered output_dir idx tr'
  end.

(** The requests of scene [idx + j], for the [j]-th block of a list of
    blocks: at most [max_retries], each the scene's workflow sent to the
    scene's backend. *)
Definition scene_blocks (scene_prompts comfy_urls : list string)
    (base_workflow : json) (max_retries idx : Z)
    (blocks : list (list (string * json))) : Prop :=
  (length blocks ≤ length scene_prompts)%nat
  ∧ ∀ (j : nat) block,
      blocks !! j = Some block →
      ∃ prompt url,
        scene_prompts !! j = Some prompt
        ∧ select_endpoint (idx + Z.of_nat j) comfy_urls = Ok url
        ∧ (length block ≤ Z.to_nat max_retries)%nat
        ∧ Forall (λ up, up = (url +:+ "/prompt",
                              JDict [("prompt",
                                      inject_scene_prompt base_workflow
                                        prompt)])) block.

(** The paths of the [.mp4] files a folder lists at one instant. *)
Definition snapshot_at (o : Oracle) (folder : string) (t : Z) : list string :=
  match listdir o t folder with
  | Some names =>
      map (path_join folder) (filter (λ f, is_mp4 f = true) names)
  | None => []
  end.

(** The scene part of a rendering that began with the [.mp4] files
    [snapshot] in the watched folder and copied [k] clips. *)
Definition render_trace (scene_prompts comfy_urls : list string)
    (base_workflow : json) (output_dir : string) (max_retries : Z)
    (snapshot : list string) (evs : list event) (k : nat)
    (blocks : list (list (string * json))) : Prop :=
  runs evs = [] ∧ writes evs = []
  ∧ posts evs = concat blocks
  ∧ scene_blocks scene_prompts comfy_urls base_workflow max_retries 1 blocks
  ∧ (k ≤ length scene_prompts)%nat
  ∧ (copies evs).*2 = map (clip_path_of output_dir) (seqZ 1 (Z.of_nat k))
  ∧ scene_ordered output_dir 1 evs
  ∧ NoDup (copy_calls evs).*1
  ∧ ∀ p, p ∈ (copy_calls evs).*1 → p ∉ snapshot.

(** ** Concrete inputs for the examples of this part *)

(** The text [{"scenes": ["A", {"title": " T ", "description": "D"}]}]. *)
Definition sample_block : string :=
  "{" +:+ DQ +:+ "scenes" +:+ DQ +:+ ": [" +:+ DQ +:+ "A" +:+ DQ +:+ ", {"
  +:+ DQ +:+ "title" +:+ DQ +:+ ": " +:+ DQ +:+ " T " +:+ DQ +:+ ", "
  +:+ DQ +:+ "description" +:+ DQ +:+ ": " +:+ DQ +:+ "D" +:+ DQ +:+ "}]}".

Definition sample_parsed : json :=
  JDict [("scenes",
          JList [JStr "A";
                 JDict [("title", JStr " T "); ("description", JStr "D")]])].

(** A parser that knows one text. *)
Definition sample_loads (s : string) : option json :=
  if String.eqb s sample_block then Some sample_parsed else None.

Definition sample_str (v : json) : string :=
  match v with
  | JStr s => s
  | JInt n => str_int n
  | _ => "?"
  end.

(** A reply that wraps the block in prose. *)
Definition chatty_content : string :=
  "Sure! Here is the storyboard: " +:+ sample_block +:+ " Enjoy.".

Definition chatty_response : http_response :=
  {| status_code := 200;
     body :=
       Some (JDict
               [("choices",
                 JList [JDict [("message",
                                JDict [("role", JStr "assistant");
                                       ("content", JStr chatty_content)])]])]) |}.

Definition lmstudio_oracle : Oracle :=
  {| listdir := λ _ _, Some [];
     stat := λ _ _, None;
     http_post := λ _ _ _, Ok chatty_response;
     disk := λ _ _, None;
     subprocess_run := λ _ _, Ok 0 |}.

(** The watched folder [out] holds an old clip; a backend delivers
    [a.mp4] at time 2 and [b.mp4] at time 9, each complete at once. *)
Definition studio_oracle : Oracle :=
  {| listdir := λ t folder,
       if String.eqb folder "out"
       then Some (["old.mp4"]
                  ++ (if 2 <=? t then ["a.mp4"] else [])
                  ++ (if 9 <=? t then ["b.mp4"] else []))
       else None;
     stat := λ t p,
       if String.eqb p "out/old.mp4"
       then Some {| st_mtime := -5; st_size := 4096 |}
       else if String.eqb p "out/a.mp4" && (2 <=? t)
       then Some {| st_mtime := 2; st_size := 100 |}
       else if String.eqb p "out/b.mp4" && (9 <=? t)
       then Some {| st_mtime := 9; st_size := 200 |}
       else None;
     http_post := λ _ _ _, Ok ok_response;
     disk := λ _ _, None;
     subprocess_run := λ _ _, Ok 0 |}.

Definition studio_urls : list string :=
  ["http://127.0.0.1:8188"; "http://127.0.0.1:8288"].

Definition studio_run : outcome unit * State :=
  main_render 20 ["a robot paints"; "the robot sleeps"] studio_urls
    sample_workflow "out" "clips" 2 (initial_state studio_oracle ∅).

(** As [studio_oracle], with a disk on which every copy of [a.mp4] fails
    with an input/output error. *)
Definition torn_oracle : Oracle :=
  {| listdir := listdir studio_oracle;
     stat := stat studio_oracle;
     http_post := http_post studio_oracle;
     disk := λ _ op,
       match op with
       | OpCopy2 src _ =>
           if String.eqb src "out/a.mp4"
           then Some (OSError "Input/output error") else None
       | _ => None
       end;
     subprocess_run := subprocess_run studio_oracle |}.

Definition torn_run : outcome string * State :=
  run_scene_through_comfy 20 1 "a robot paints" "http://127.0.0.1:8188"
    sample_workflow "out" "clips" 4
    (initial_state torn_oracle {["out/old.mp4"]}).

(** * Properties *)

(** ** Strings *)

Lemma append_nil_l (t : string) : "" +:+ t = t.
Proof. reflexivity. Qed.

Lemma append_cons (c : ascii) (s t : string) :
  String c s +:+ t = String c (s +:+ t).
Proof. reflexivity. Qed.

Ltac str_norm := rewrite ?append_cons, ?append_nil_l.

Lemma append_empty_r (s : string) : s +:+ "" = s.
Proof. induction s as [|c s IH]; str_norm; [done | by rewrite IH]. Qed.

Lemma append_assoc (a b c : string) : (a +:+ b) +:+ c = a +:+ b +:+ c.
Proof. induction a as [|x a IH]; str_norm; [done | by rewrite IH]. Qed.

Lemma startswith_app (p rest : string) : startswith p (p +:+ rest) = true.
Proof.
  induction p as [|c p IH]; str_norm; simpl; [done |].
  by rewrite Ascii.eqb_refl.
Qed.

Lemma startswith_spec (p s : string) :
  startswith p s = true ↔ ∃ rest, s = p +:+ rest.
Proof.
  split.
  - revert s. induction p as [|c p IH]; intros s H.
    + by exists s.
    + destruct s as [|b s]; simpl in H; [done |].
      destruct (Ascii.eqb_spec c b) as [->|]; [| done].
      destruct (IH _ H) as [rest ->]. by exists rest.
  - intros [rest ->]. apply startswith_app.
Qed.

Lemma endswith_app (pre suf : string) : endswith (pre +:+ suf) suf = true.
Proof.
  induction pre as [|c pre IH]; str_norm.
  - destruct suf; cbn [endswith]; by rewrite String.eqb_refl.
  - cbn [endswith]. by destruct (String.eqb _ _).
Qed.

Lemma endswith_spec (s suf : string) :
  endswith s suf = true ↔ ∃ pre, s = pre +:+ suf.
Proof.
  split.
  - induction s as [|c s IH]; cbn [endswith].
    + destruct (String.eqb_spec "" suf) as [<-|]; [| done].
      by exists "".
    + destruct (String.eqb_spec (String c s) suf) as [<-|].
      * by exists "".
      * intros H. destruct (IH H) as [pre ->]. by exists (String c pre).
  - intros [pre ->]. apply endswith_app.
Qed.

Lemma replace_go_skip (old new s1 rest : string) :
  replace_go old new (String.length s1) (s1 +:+ rest)
  = replace_go old new 0 rest.
Proof.
  induction s1 as [|c s1 IH]; str_norm; simpl; [| done].
  by destruct rest.
Qed.

Lemma replace_go_match (old new rest : string) :
  old ≠ "" →
  replace_go old new 0 (old +:+ rest) = new +:+ replace_go old new 0 rest.
Proof.
  destruct old as [|c old]; [done | intros _].
  pose proof (startswith_app (String c old) rest) as Hsw.
  rewrite append_cons in *. cbn [replace_go]. rewrite Hsw.
  cbn [String.length Nat.pred]. by rewrite replace_go_skip.
Qed.

Lemma replace_go_clean (old new a tail : string) :
  clean_prefix old a tail = true →
  replace_go old new 0 (a +:+ tail) = a +:+ replace_go old new 0 tail.
Proof.
  induction a as [|c a IH]; [done |].
  cbn [clean_prefix]. intros [Hno Hrest]%andb_prop.
  apply negb_true_iff in Hno. rewrite !append_cons in *.
  cbn [replace_go]. by rewrite Hno, (IH Hrest).
Qed.

(** A string in which [old] is not a substring has a clean prefix all
    the way. *)
Lemma clean_prefix_no_substring (old s tail : string) :
  (∀ pre post, s +:+ tail ≠ pre +:+ old +:+ post) →
  clean_prefix old s tail = true.
Proof.
  induction s as [|c s IH]; intros Hno; [done |].
  cbn [clean_prefix]. apply andb_true_intro; split.
  - apply negb_true_iff. destruct (startswith old _) eqn:E; [| done].
    apply startswith_spec in E as [rest E].
    by destruct (Hno "" rest).
  - apply IH. intros pre post E.
    apply (Hno (String c pre) post). rewrite !append_cons. by rewrite E.
Qed.

(** [replace] rewrites the leftmost occurrence and goes on after it. *)
Lemma replace_first_occurrence (old new a rest : string) :
  old ≠ "" →
  clean_prefix old a (old +:+ rest) = true →
  replace old new (a +:+ old +:+ rest) = a +:+ new +:+ replace old new rest.
Proof.
  intros Hne Hclean. unfold replace.
  destruct old as [|c old]; [done |].
  rewrite (replace_go_clean _ _ _ _ Hclean).
  by rewrite replace_go_match.
Qed.

(** [replace] leaves a string without occurrence as it is. *)
Lemma replace_no_occurrence (old new s : string) :
  old ≠ "" →
  (∀ pre post, s ≠ pre +:+ old +:+ post) →
  replace old new s = s.
Proof.
  intros Hne Hno. unfold replace. destruct old as [|c old]; [done |].
  rewrite <- (append_empty_r s) at 1.
  rewrite replace_go_clean; [cbn [replace_go]; by rewrite append_empty_r |].
  apply clean_prefix_no_substring. intros pre post.
  rewrite append_empty_r. apply Hno.
Qed.

Example replace_examples :
  replace "aa" "b" "aaaaa" = "bba" ∧ replace "ab" "" "xabyab" = "xy"
  ∧ replace "" "-" "abc" = "-a-b-c-".
Proof. repeat split; reflexivity. Qed.

Example path_examples :
  path_join "out" "clip.mp4" = "out/clip.mp4"
  ∧ path_join "out/" "clip.mp4" = "out/clip.mp4"
  ∧ path_join "" "clip.mp4" = "clip.mp4"
  ∧ dirname "clips/final_video.mp4" = "clips"
  ∧ dirname "final_video.mp4" = ""
  ∧ dirname "/final_video.mp4" = "/".
Proof. repeat split; reflexivity. Qed.

Example format_examples :
  format_02d 7 = "07" ∧ format_02d 10 = "10" ∧ format_02d 123 = "123"
  ∧ format_02d (-5) = "-5".
Proof. repeat split; vm_compute; reflexivity. Qed.

(** ** JSON documents *)

Lemma json_nested_ind (P : json → Prop) :
  P JNull →
  (∀ b, P (JBool b)) →
  (∀ n, P (JInt n)) →
  (∀ bits, P (JFloat bits)) →
  (∀ s, P (JStr s)) →
  (∀ l, Forall P l → P (JList l)) →
  (∀ kvs, Forall (λ kv, P kv.2) kvs → P (JDict kvs)) →
  ∀ d, P d.
Proof.
  intros HN HB HI HF HS HL HD.
  fix IH 1. intros [ | b | n | bits | s | l | kvs].
  - exact HN.
  - apply HB.
  - apply HI.
  - apply HF.
  - apply HS.
  - apply HL. induction l as [|x l IHl]; constructor; [apply IH | exact IHl].
  - apply HD. induction kvs as [|[k v] kvs IHk]; constructor; [apply IH | exact IHk].
Qed.

Lemma dict_get_map (f : json → json) (k : string) (kvs : list (string * json)) :
  dict_get k (map (λ kv, (kv.1, f kv.2)) kvs) = f <$> dict_get k kvs.
Proof.
  induction kvs as [|[k' v] kvs IH]; simpl; [done |].
  by destruct (String.eqb k k').
Qed.

Lemma shape_replace (scene_prompt : string) (d : json) :
  shape (_replace scene_prompt d) = shape d.
Proof.
  induction d as [ | | | | | l IH | kvs IH] using json_nested_ind; simpl; try done.
  - f_equal. rewrite map_map. apply map_ext_Forall, IH.
  - f_equal. rewrite map_map. apply map_ext_Forall.
    eapply Forall_impl; [apply IH |]. intros [k v] H; simpl in *. by rewrite H.
Qed.

Lemma strings_of_replace (scene_prompt : string) (d : json) :
  strings_of (_replace scene_prompt d)
  = map (replace PROMPT_PLACEHOLDER scene_prompt) (strings_of d).
Proof.
  induction d as [ | | | | | l IH | kvs IH] using json_nested_ind; simpl; try done.
  - induction IH as [|x l Hx _ IHl]; simpl; [done |].
    by rewrite map_app, Hx, IHl.
  - induction IH as [|[k v] kvs Hx _ IHl]; simpl in *; [done |].
    by rewrite map_app, Hx, IHl.
Qed.

Lemma lookup_path_replace (scene_prompt : string) (path : list step) (d : json) :
  lookup_path path (_replace scene_prompt d)
  = _replace scene_prompt <$> lookup_path path d.
Proof.
  revert d. induction path as [|[k|i] path IH]; intros d; [done | |].
  - destruct d; simpl; try done.
    rewrite dict_get_map. destruct (dict_get k kvs); simpl; [apply IH | done].
  - destruct d; simpl; try done.
    rewrite list_lookup_fmap. destruct (items !! i); simpl; [apply IH | done].
Qed.

(** ** Workflow templating *)

Example inject_sample :
  inject_scene_prompt sample_workflow "a robot paints" = sample_injected.
Proof. reflexivity. Qed.

(** Occurrences are taken leftmost and without overlap, as [str.replace]
    does. *)
Example replace_overlapping :
  replace PROMPT_PLACEHOLDER "X" "__SCENE_PROMPT__SCENE_PROMPT__"
  = "XSCENE_PROMPT__".
Proof. reflexivity. Qed.

(** C4: [inject_scene_prompt] is a total function of the document and the
    prompt (the input, a value, is never written to). Its result has the
    shape of the input: same keys, same sequence lengths, same positions.
    At every position holding a string it holds that string with the
    placeholder replaced by the prompt ([str.replace]: each occurrence,
    leftmost first); at every position holding another scalar it holds the
    same scalar; a string without the placeholder is returned unchanged. *)
Theorem inject_scene_prompt_spec (workflow : json) (scene_prompt : string) :
  shape (inject_scene_prompt workflow scene_prompt) = shape workflow
  ∧ (∀ path s,
       lookup_path path workflow = Some (JStr s) →
       lookup_path path (inject_scene_prompt workflow scene_prompt)
       = Some (JStr (replace PROMPT_PLACEHOLDER scene_prompt s)))
  ∧ (∀ path v,
       lookup_path path workflow = Some v → plain_scalar v = true →
       lookup_path path (inject_scene_prompt workflow scene_prompt) = Some v)
  ∧ (∀ path,
       lookup_path path workflow = None →
       lookup_path path (inject_scene_prompt workflow scene_prompt) = None)
  ∧ strings_of (inject_scene_prompt workflow scene_prompt)
    = map (replace PROMPT_PLACEHOLDER scene_prompt) (strings_of workflow)
  ∧ (∀ a rest,
       clean_prefix PROMPT_PLACEHOLDER a (PROMPT_PLACEHOLDER +:+ rest) = true →
       replace PROMPT_PLACEHOLDER scene_prompt (a +:+ PROMPT_PLACEHOLDER +:+ rest)
       = a +:+ scene_prompt +:+ replace PROMPT_PLACEHOLDER scene_prompt rest)
  ∧ (∀ s,
       (∀ pre post, s ≠ pre +:+ PROMPT_PLACEHOLDER +:+ post) →
       replace PROMPT_PLACEHOLDER scene_prompt s = s).
Proof.
  unfold inject_scene_prompt. repeat split.
  - apply shape_replace.
  - intros path s H. by rewrite lookup_path_replace, H.
  - intros path v H Hv. rewrite lookup_path_replace, H. by destruct v.
  - intros path H. by rewrite lookup_path_replace, H.
  - apply strings_of_replace.
  - intros a rest. by apply replace_first_occurrence.
  - intros s. by apply replace_no_occurrence.
Qed.

Lemma inject_scene_prompt_spec_witness :
  shape sample_injected = shape sample_workflow
  ∧ lookup_path [Key "6"; Key "inputs"; Key "text"] sample_injected
    = Some (JStr "cinematic, a robot paints, 4k")
  ∧ lookup_path [Key "6"; Key "inputs"; Key "seed"] sample_injected
    = Some (JInt 42)
  ∧ lookup_path [Key "9"; Idx 3] sample_injected = Some (JStr "no token here").
Proof.
  pose proof (inject_scene_prompt_spec sample_workflow "a robot paints")
    as (Hshape & Hstr & Hscalar & _).
  rewrite inject_sample in *.
  split; [exact Hshape |].
  split; [exact (Hstr [Key "6"; Key "inputs"; Key "text"] _ eq_refl) |].
  split; [exact (Hscalar [Key "6"; Key "inputs"; Key "seed"] _ eq_refl eq_refl) |].
  exact (Hstr [Key "9"; Idx 3] _ eq_refl).
Defined.

(** ** Scene-count normalisation *)

Lemma last_nonempty (l : list string) : l ≠ [] → ∃ x, last l = Some x.
Proof.
  intros H. destruct (last l) as [x|] eqn:E; [by exists x |].
  by apply last_None in E.
Qed.

Lemma py_slice_to_nonneg (l : list string) (n : Z) :
  0 ≤ n → py_slice_to l n = take (Z.to_nat n) l.
Proof. intros H. unfold py_slice_to. by rewrite (proj2 (Z.leb_le 0 n) H). Qed.

Lemma normalize_pad (l : list string) (n : Z) (x : string) :
  Z.of_nat (length l) < n → last l = Some x →
  normalized_to l n (l ++ py_repeat x (n - Z.of_nat (length l))).
Proof.
  intros Hlt Hx. unfold normalized_to, py_repeat. repeat split.
  - rewrite length_app, length_replicate. lia.
  - intros _. by exists x.
  - lia.
  - lia.
Qed.

Lemma normalize_cut (l : list string) (n : Z) :
  0 ≤ n → n < Z.of_nat (length l) →
  normalized_to l n (py_slice_to l n).
Proof.
  intros H0 Hlt. rewrite py_slice_to_nonneg by done.
  unfold normalized_to. repeat split.
  - rewrite length_take. lia.
  - lia.
  - lia.
Qed.

Lemma normalize_same (l : list string) :
  normalized_to l (Z.of_nat (length l)) l.
Proof. unfold normalized_to. repeat split; (done || lia). Qed.

Lemma call_lmstudio_normalize_spec (scene_prompts : list string) (num_scenes : Z) :
  scene_prompts ≠ [] → 0 ≤ num_scenes →
  ∃ out, call_lmstudio_normalize scene_prompts num_scenes = Ok out
         ∧ normalized_to scene_prompts num_scenes out.
Proof.
  intros Hne Hn. unfold call_lmstudio_normalize.
  destruct (last_nonempty _ Hne) as [x Hx]. unfold py_last. rewrite Hx.
  destruct (Z.ltb_spec (Z.of_nat (length scene_prompts)) num_scenes).
  { eexists; split; [done |]. by apply normalize_pad. }
  destruct (Z.ltb_spec num_scenes (Z.of_nat (length scene_prompts))).
  { eexists; split; [done |]. by apply normalize_cut. }
  eexists; split; [done |].
  replace num_scenes with (Z.of_nat (length scene_prompts)) by lia.
  apply normalize_same.
Qed.

Lemma main_adjust_scene_count_spec (scene_prompts : list string) (num_scenes : Z) :
  scene_prompts ≠ [] → 1 ≤ num_scenes →
  ∃ out, main_adjust_scene_count scene_prompts num_scenes = Ok out
         ∧ normalized_to scene_prompts num_scenes out.
Proof.
  intros Hne Hn. unfold main_adjust_scene_count.
  destruct (last_nonempty _ Hne) as [x Hx]. unfold py_last. rewrite Hx.
  destruct (Z.eqb_spec num_scenes 0); [lia |].
  destruct (Z.eqb_spec (Z.of_nat (length scene_prompts)) num_scenes) as [<-|Hneq];
    cbn [negb andb].
  { eexists; split; [done |]. apply normalize_same. }
  destruct (Z.ltb_spec (Z.of_nat (length scene_prompts)) num_scenes).
  { eexists; split; [done |]. by apply normalize_pad. }
  eexists; split; [done |]. apply normalize_cut; lia.
Qed.

(** The adjustment in [main] with target 0: the guard
    [if args.num_scenes and ...] is false, and every list is left as it
    is. *)
Lemma main_adjust_no_target (scene_prompts : list string) :
  main_adjust_scene_count scene_prompts 0 = Ok scene_prompts.
Proof. reflexivity. Qed.

(** C5, as the code has it: for M >= 1 derived prompts, the tail of
    [call_lmstudio] normalises to every target count N >= 0 and the
    adjustment in [main] to every N >= 1: the output has exactly N
    entries, for M < N the original list followed by N - M copies of its
    last entry, for M > N its first N entries. [main] reads N = 0 as no
    target: it returns the list as it is, whatever its length. (A
    negative N cannot be a length.) *)
Theorem scene_count_normalization (scene_prompts : list string) (num_scenes : Z) :
  scene_prompts ≠ [] →
  (0 ≤ num_scenes →
   ∃ out, call_lmstudio_normalize scene_prompts num_scenes = Ok out
          ∧ normalized_to scene_prompts num_scenes out)
  ∧ (1 ≤ num_scenes →
     ∃ out, main_adjust_scene_count scene_prompts num_scenes = Ok out
            ∧ normalized_to scene_prompts num_scenes out)
  ∧ main_adjust_scene_count scene_prompts 0 = Ok scene_prompts.
Proof.
  intros Hne. split; [| split].
  - intros Hn. by apply call_lmstudio_normalize_spec.
  - intros Hn. by apply main_adjust_scene_count_spec.
  - apply main_adjust_no_target.
Qed.

Lemma scene_count_normalization_witness :
  (∃ out, call_lmstudio_normalize ["a"; "b"] 3 = Ok out
          ∧ normalized_to ["a"; "b"] 3 out)
  ∧ (∃ out, main_adjust_scene_count ["a"; "b"; "c"] 2 = Ok out
            ∧ normalized_to ["a"; "b"; "c"] 2 out)
  ∧ main_adjust_scene_count ["a"; "b"; "c"] 0 = Ok ["a"; "b"; "c"].
Proof.
  split; [| split].
  - apply (scene_count_normalization ["a"; "b"] 3); [discriminate | lia].
  - apply (scene_count_normalization ["a"; "b"; "c"] 2); [discriminate | lia].
  - apply (scene_count_normalization ["a"; "b"; "c"] 2). discriminate.
Defined.

Example normalize_pads : call_lmstudio_normalize ["a"; "b"] 3 = Ok ["a"; "b"; "b"].
Proof. reflexivity. Qed.

Example normalize_cuts : main_adjust_scene_count ["a"; "b"; "c"] 2 = Ok ["a"; "b"].
Proof. reflexivity. Qed.

(** C5, counterexample: with target count 0 the adjustment in [main] is
    skipped, and a one-entry list keeps its one entry. *)
Lemma main_adjust_zero_target :
  main_adjust_scene_count ["a"] 0 = Ok ["a"]
  ∧ ¬ normalized_to ["a"] 0 ["a"].
Proof.
  split; [reflexivity |].
  intros [Hlen _]. simpl in Hlen. lia.
Qed.

(** A negative target count: [l[:n]] drops from the end. *)
Example normalize_negative_target :
  call_lmstudio_normalize ["a"; "b"; "c"] (-1) = Ok ["a"; "b"].
Proof. reflexivity. Qed.

(** ** Backend selection *)

Lemma py_index_in_range (l : list string) (i : Z) :
  0 ≤ i < Z.of_nat (length l) →
  ∃ u, py_index l i = Ok u ∧ l !! Z.to_nat i = Some u.
Proof.
  intros Hi. unfold py_index.
  destruct (Z.ltb_spec i 0); [lia |].
  destruct (Z.leb_spec 0 i); [| lia].
  destruct (Z.ltb_spec i (Z.of_nat (length l))); [| lia].
  cbn [andb].
  destruct (lookup_lt_is_Some_2 l (Z.to_nat i)) as [u Hu]; [lia |].
  rewrite Hu. by exists u.
Qed.

Lemma select_endpoint_lookup (idx : Z) (comfy_urls : list string) :
  comfy_urls ≠ [] →
  ∃ u, select_endpoint idx comfy_urls = Ok u
       ∧ comfy_urls !! Z.to_nat ((idx - 1) mod Z.of_nat (length comfy_urls))
         = Some u.
Proof.
  intros Hne. unfold select_endpoint.
  assert (0 < Z.of_nat (length comfy_urls)) as Hpos.
  { destruct comfy_urls; [done | simpl; lia]. }
  destruct (Z.eqb_spec (Z.of_nat (length comfy_urls)) 0); [lia |].
  apply py_index_in_range. by apply Z.mod_pos_bound.
Qed.

(** C7, as the code has it: the endpoint of scene [idx >= 1] over a
    non-empty list of length L exists and is
    [comfy_urls[(idx - 1) mod L]]; with L = 1 every scene gets the same
    endpoint; two different scenes among the first L get different
    positions of the list, and different endpoints when the list repeats
    no URL. *)
Theorem select_endpoint_round_robin (idx : Z) (comfy_urls : list string) :
  1 ≤ idx → comfy_urls ≠ [] →
  (∃ u, select_endpoint idx comfy_urls = Ok u
        ∧ comfy_urls !! Z.to_nat ((idx - 1) mod Z.of_nat (length comfy_urls))
          = Some u)
  ∧ (length comfy_urls = 1%nat →
     ∀ idx', 1 ≤ idx' →
       select_endpoint idx' comfy_urls = select_endpoint idx comfy_urls)
  ∧ (∀ idx', 1 ≤ idx' → idx' ≠ idx →
       idx ≤ Z.of_nat (length comfy_urls) →
       idx' ≤ Z.of_nat (length comfy_urls) →
       (idx' - 1) mod Z.of_nat (length comfy_urls)
       ≠ (idx - 1) mod Z.of_nat (length comfy_urls)
       ∧ (NoDup comfy_urls →
          select_endpoint idx' comfy_urls ≠ select_endpoint idx comfy_urls)).
Proof.
  intros Hidx Hne. split; [by apply select_endpoint_lookup |]. split.
  - intros Hlen idx' _.
    destruct (select_endpoint_lookup idx comfy_urls Hne) as (u & -> & Hu).
    destruct (select_endpoint_lookup idx' comfy_urls Hne) as (u' & -> & Hu').
    rewrite Hlen in Hu, Hu'. rewrite Z.mod_1_r in Hu, Hu'. congruence.
  - intros idx' Hidx' Hdiff Hle Hle'.
    assert ((idx' - 1) mod Z.of_nat (length comfy_urls)
            ≠ (idx - 1) mod Z.of_nat (length comfy_urls)) as Hpos.
    { rewrite !Z.mod_small by lia. lia. }
    split; [exact Hpos |]. intros Hnodup.
    destruct (select_endpoint_lookup idx comfy_urls Hne) as (u & -> & Hu).
    destruct (select_endpoint_lookup idx' comfy_urls Hne) as (u' & -> & Hu').
    intros [= ->]. apply Hpos.
    pose proof (NoDup_lookup _ _ _ _ Hnodup Hu Hu') as Heq.
    pose proof (Z.mod_pos_bound (idx - 1) (Z.of_nat (length comfy_urls))).
    pose proof (Z.mod_pos_bound (idx' - 1) (Z.of_nat (length comfy_urls))).
    lia.
Qed.

Lemma select_endpoint_round_robin_witness :
  select_endpoint 3 ["http://127.0.0.1:8188"; "http://127.0.0.1:8288"]
  = Ok "http://127.0.0.1:8188"
  ∧ select_endpoint 2 ["http://127.0.0.1:8188"; "http://127.0.0.1:8288"]
    ≠ select_endpoint 1 ["http://127.0.0.1:8188"; "http://127.0.0.1:8288"].
Proof.
  split.
  - destruct (select_endpoint_round_robin 3
                ["http://127.0.0.1:8188"; "http://127.0.0.1:8288"])
      as ((u & Hsel & Hu) & _); [lia | discriminate |].
    rewrite Hsel. f_equal. vm_compute in Hu. congruence.
  - destruct (select_endpoint_round_robin 1
                ["http://127.0.0.1:8188"; "http://127.0.0.1:8288"])
      as (_ & _ & Hdistinct); [lia | discriminate |].
    apply (Hdistinct 2); [lia | lia | simpl; lia | simpl; lia |].
    apply NoDup_cons; split; [| apply NoDup_singleton].
    intros Hin. apply list_elem_of_singleton in Hin. discriminate.
Defined.

(** C7, counterexample: [--comfy-urls] may name one backend twice, and
    line 390 keeps both entries; the two scenes of a run with N = 2 = L
    then get the same endpoint. *)
Lemma repeated_url_same_endpoint :
  parse_comfy_urls ascii_isspace "http://127.0.0.1:8188,http://127.0.0.1:8188"
  = ["http://127.0.0.1:8188"; "http://127.0.0.1:8188"]
  ∧ select_endpoint 1 ["http://127.0.0.1:8188"; "http://127.0.0.1:8188"]
    = Ok "http://127.0.0.1:8188"
  ∧ select_endpoint 2 ["http://127.0.0.1:8188"; "http://127.0.0.1:8188"]
    = Ok "http://127.0.0.1:8188".
Proof. repeat split; vm_compute; reflexivity. Qed.

(** ** The persisted scene list *)

Lemma load_scene_dumped (py_str : json → string) (scene_prompts : list string) :
  map (load_scene py_str) (map JStr scene_prompts) = scene_prompts.
Proof.
  induction scene_prompts as [|p l IH]; simpl; [done | by rewrite IH].
Qed.

(** C9: loading what was persisted as a [scenes] object gives back the
    same prompts in the same order, whatever [str] does (the loading path
    never calls it on a string entry). *)
Theorem scenes_round_trip (py_str : json → string) (scene_prompts : list string) :
  load_scene_prompts py_str (dump_scenes scene_prompts) = Ok scene_prompts.
Proof.
  unfold load_scene_prompts, dump_scenes. cbn [dict_get].
  rewrite String.eqb_refl. cbn [py_iter].
  by rewrite load_scene_dumped.
Qed.

(** Other persisted forms: records with a prompt or description, and
    entries that go through [str]. *)
Example load_scene_records (py_str : json → string) :
  load_scene_prompts py_str
    (JList [JStr "a";
            JDict [("prompt", JStr ""); ("description", JStr "d")];
            JDict [("title", JStr "t")];
            JInt 3])
  = Ok ["a"; py_str (JStr "d"); py_str (JStr ""); py_str (JInt 3)].
Proof. reflexivity. Qed.

(** After the round trip the adjustment in [main] changes nothing when
    the list was persisted with the same target count. *)
Lemma scenes_round_trip_then_adjust (scene_prompts : list string) :
  main_adjust_scene_count scene_prompts (Z.of_nat (length scene_prompts))
  = Ok scene_prompts.
Proof.
  unfold main_adjust_scene_count. rewrite Z.eqb_refl.
  by rewrite andb_false_r.
Qed.

(** ** The state monad *)

Lemma bind_return {A B : Type} (m : M A) (k : A → M B) (st st' : State) (a : A) :
  m st = (Return a, st') → bind m k st = k a st'.
Proof. intros H. unfold bind. by rewrite H. Qed.

Lemma bind_raise {A B : Type} (m : M A) (k : A → M B) (st st' : State) (e : exn) :
  m st = (Raise e, st') → bind m k st = (Raise e, st').
Proof. intros H. unfold bind. by rewrite H. Qed.

Lemma bind_out_of_fuel {A B : Type} (m : M A) (k : A → M B) (st : State) :
  fst (m st) = OutOfFuel → fst (bind m k st) = OutOfFuel.
Proof. unfold bind. destruct (m st) as [[a|e|] st']; simpl; done. Qed.

Lemma advance_advance (a b : Z) (e1 e2 : list event) (st : State) :
  advance b e2 (advance a e1 st) = advance (a + b) (e1 ++ e2) st.
Proof. unfold advance; simpl. f_equal; [lia | by rewrite app_assoc]. Qed.

Lemma advance_zero (st : State) : advance 0 [] st = st.
Proof.
  destruct st as [o t k tr]. unfold advance; simpl.
  f_equal; [lia | by rewrite app_nil_r].
Qed.

Lemma time_sleep_eq (secs : Z) (st : State) :
  time_sleep secs st = (Return tt, advance secs [EvSleep secs] st).
Proof. reflexivity. Qed.

(** ** The completion detector: one step of each loop *)

Lemma os_getsize_eq (p : string) (st : State) :
  os_getsize p st
  = (Return (size_at (oracle st) p (now st)),
     {| oracle := oracle st; now := now st; known_files := known_files st;
        trace := trace st ++ [EvGetsize p (size_at (oracle st) p (now st))] |}).
Proof. reflexivity. Qed.

Lemma stabilize_done (fuel : nat) (p : string) (last c : Z) (st : State) :
  3 ≤ c → stabilize (S fuel) p last c st = (Return last, st).
Proof.
  intros Hc. cbn [stabilize].
  by destruct (Z.ltb_spec c 3); [lia |].
Qed.

Lemma stabilize_step_some (fuel : nat) (p : string) (last c : Z) (x : N)
    (st : State) :
  c < 3 → size_at (oracle st) p (now st) = Some x →
  stabilize (S fuel) p last c st
  = stabilize fuel p (if Z.of_N x =? last then last else Z.of_N x)
      (if Z.of_N x =? last then c + 1 else 0)
      (advance 1 (sample_round p x) st).
Proof.
  intros Hc Hx. cbn [stabilize].
  destruct (Z.ltb_spec c 3); [| lia].
  unfold bind at 1. rewrite os_getsize_eq, Hx.
  assert (∀ st0 : State,
            st0 = {| oracle := oracle st; now := now st;
                     known_files := known_files st;
                     trace := trace st ++ [EvGetsize p (Some x)] |} →
            advance 1 [EvSleep 1] st0 = advance 1 (sample_round p x) st) as Hst.
  { intros st0 ->. unfold advance, sample_round; simpl.
    by rewrite <- app_assoc. }
  destruct (Z.of_N x =? last); unfold bind; rewrite time_sleep_eq;
    by rewrite (Hst _ eq_refl).
Qed.

Lemma stabilize_step_none (fuel : nat) (p : string) (last c : Z) (st : State) :
  c < 3 → size_at (oracle st) p (now st) = None →
  stabilize (S fuel) p last c st
  = stabilize fuel p (-1) 0 (advance 1 [EvGetsize p None; EvSleep 1] st).
Proof.
  intros Hc Hx. cbn [stabilize].
  destruct (Z.ltb_spec c 3); [| lia].
  unfold bind at 1. rewrite os_getsize_eq, Hx.
  unfold bind; rewrite time_sleep_eq. f_equal.
  unfold advance; simpl. by rewrite <- app_assoc.
Qed.

(** The stabilising loop never raises. *)
Lemma stabilize_no_raise (fuel : nat) (p : string) (last c : Z) (st : State) (e : exn) :
  fst (stabilize fuel p last c st) ≠ Raise e.
Proof.
  revert last c st. induction fuel as [|fuel IH]; intros last c st; [done |].
  destruct (Z.ltb_spec c 3) as [Hc|Hc].
  - destruct (size_at (oracle st) p (now st)) as [x|] eqn:Hx.
    + rewrite (stabilize_step_some _ _ _ _ x) by done. apply IH.
    + rewrite stabilize_step_none by done. apply IH.
  - by rewrite stabilize_done.
Qed.

(** It changes neither the environment nor the known files. *)
Lemma stabilize_frame (fuel : nat) (p : string) (last c : Z) (st : State) :
  oracle (snd (stabilize fuel p last c st)) = oracle st
  ∧ known_files (snd (stabilize fuel p last c st)) = known_files st.
Proof.
  revert last c st. induction fuel as [|fuel IH]; intros last c st; [done |].
  destruct (Z.ltb_spec c 3) as [Hc|Hc].
  - destruct (size_at (oracle st) p (now st)) as [x|] eqn:Hx.
    + rewrite (stabilize_step_some _ _ _ _ x) by done.
      destruct (IH (if Z.of_N x =? last then last else Z.of_N x)
                   (if Z.of_N x =? last then c + 1 else 0)
                   (advance 1 (sample_round p x) st)) as [-> ->]. done.
    + rewrite stabilize_step_none by done.
      destruct (IH (-1) 0 (advance 1 [EvGetsize p None; EvSleep 1] st))
        as [-> ->]. done.
  - by rewrite stabilize_done.
Qed.

(** A file whose size is the same at four sampling instants in a row is
    returned after exactly these four samples. *)
Lemma stabilize_steady (fuel : nat) (p : string) (x : N) (st : State) :
  (∀ k, 0 ≤ k ≤ 3 → size_at (oracle st) p (now st + k) = Some x) →
  stabilize (5 + fuel) p (-1) 0 st
  = (Return (Z.of_N x),
     advance 4 (sample_round p x ++ sample_round p x
                ++ sample_round p x ++ sample_round p x) st).
Proof.
  intros Hx. change (5 + fuel)%nat with (S (S (S (S (S fuel))))).
  rewrite (stabilize_step_some _ _ _ _ x); [| lia |].
  2:{ rewrite <- (Hx 0) by lia. f_equal. lia. }
  destruct (Z.eqb_spec (Z.of_N x) (-1)); [lia |].
  rewrite (stabilize_step_some _ _ _ _ x); [| lia | by apply (Hx 1); lia].
  rewrite Z.eqb_refl.
  rewrite (stabilize_step_some _ _ _ _ x); [| lia |].
  2:{ cbn [advance now oracle]. rewrite <- (Hx 2) by lia. f_equal. lia. }
  rewrite Z.eqb_refl.
  rewrite (stabilize_step_some _ _ _ _ x); [| lia |].
  2:{ cbn [advance now oracle]. rewrite <- (Hx 3) by lia. f_equal. lia. }
  rewrite Z.eqb_refl.
  rewrite stabilize_done by lia.
  rewrite !advance_advance. done.
Qed.

(** Three equal samples are not enough: when the fourth differs the loop
    starts counting again. *)
Lemma stabilize_three_then_change (fuel : nat) (p : string) (x y : N) (st : State) :
  (∀ k, 0 ≤ k ≤ 2 → size_at (oracle st) p (now st + k) = Some x) →
  size_at (oracle st) p (now st + 3) = Some y → y ≠ x →
  stabilize (4 + fuel) p (-1) 0 st
  = stabilize fuel p (Z.of_N y) 0
      (advance 4 (sample_round p x ++ sample_round p x
                  ++ sample_round p x ++ sample_round p y) st).
Proof.
  intros Hx Hy Hne. change (4 + fuel)%nat with (S (S (S (S fuel)))).
  rewrite (stabilize_step_some _ _ _ _ x); [| lia |].
  2:{ rewrite <- (Hx 0) by lia. f_equal. lia. }
  destruct (Z.eqb_spec (Z.of_N x) (-1)); [lia |].
  rewrite (stabilize_step_some _ _ _ _ x); [| lia | by apply (Hx 1); lia].
  rewrite Z.eqb_refl.
  rewrite (stabilize_step_some _ _ _ _ x); [| lia |].
  2:{ cbn [advance now oracle]. rewrite <- (Hx 2) by lia. f_equal. lia. }
  rewrite Z.eqb_refl.
  rewrite (stabilize_step_some _ _ _ _ y); [| lia |].
  2:{ cbn [advance now oracle]. rewrite <- Hy. f_equal. lia. }
  destruct (Z.eqb_spec (Z.of_N y) (Z.of_N x)); [lia |].
  rewrite !advance_advance. done.
Qed.

(** A file that never shows four equal samples in a row keeps the loop
    running for ever. The invariant: the counter is below 3 and counts the
    samples, all taken since [t0], that repeated [last_size]. *)
Lemma stabilize_unstable_inv (o : Oracle) (p : string) (t0 : Z) :
  unstable_from o p t0 →
  ∀ (fuel : nat) (last c : Z) (st : State),
    oracle st = o → t0 ≤ now st → 0 ≤ c ≤ 2 →
    (last = -1 ∧ c = 0)
    ∨ (∃ x, last = Z.of_N x ∧ t0 ≤ now st - (c + 1)
            ∧ ∀ k, 1 ≤ k ≤ c + 1 → size_at o p (now st - k) = Some x) →
    fst (stabilize fuel p last c st) = OutOfFuel.
Proof.
  intros Hun. induction fuel as [|fuel IH]; intros last c st Ho Ht Hc Hinv;
    [done |].
  destruct (size_at (oracle st) p (now st)) as [x|] eqn:Hx.
  2:{ rewrite stabilize_step_none by (done || lia).
      apply IH; cbn [advance oracle now]; [done | lia | lia | by left]. }
  rewrite (stabilize_step_some _ _ _ _ x) by (done || lia).
  rewrite Ho in Hx.
  destruct (Z.eqb_spec (Z.of_N x) last) as [Heq|Hneq].
  - destruct Hinv as [[-> _]|(x' & -> & Hwin & Hsame)]; [lia |].
    apply N2Z.inj in Heq as ->.
    assert (c ≠ 2) as Hc2.
    { intros ->. apply (Hun (now st - 3) x'); [lia |].
      repeat split.
      - apply Hsame; lia.
      - replace (now st - 3 + 1) with (now st - 2) by lia. apply Hsame; lia.
      - replace (now st - 3 + 2) with (now st - 1) by lia. apply Hsame; lia.
      - replace (now st - 3 + 3) with (now st) by lia. done. }
    apply IH; cbn [advance oracle now]; [done | lia | lia |].
    right. exists x'. split; [done |]. split; [lia |].
    intros k Hk. destruct (Z.eq_dec k 1) as [->|].
    + replace (now st + 1 - 1) with (now st) by lia. done.
    + replace (now st + 1 - k) with (now st - (k - 1)) by lia.
      apply Hsame; lia.
  - apply IH; cbn [advance oracle now]; [done | lia | lia |].
    right. exists x. split; [done |]. split; [lia |].
    intros k Hk. replace (now st + 1 - k) with (now st) by lia. done.
Qed.

Lemma stabilize_unstable (p : string) (fuel : nat) (st : State) :
  unstable_from (oracle st) p (now st) →
  fst (stabilize fuel p (-1) 0 st) = OutOfFuel.
Proof.
  intros Hun.
  apply (stabilize_unstable_inv (oracle st) p (now st) Hun);
    [done | lia | lia | by left].
Qed.

(** ** The completion detector: choosing the candidate *)

Lemma os_getmtime_frame (p : string) (st : State) :
  snd (os_getmtime p st) = st ∧ fst (os_getmtime p st) ≠ OutOfFuel
  ∧ ∀ msg, fst (os_getmtime p st) ≠ Raise (TimeoutError msg).
Proof.
  unfold os_getmtime. by destruct (stat (oracle st) (now st) p).
Qed.

Lemma max_mtime_from_spec (rest : list string) (best : string) (m : Z) (st : State) :
  snd (max_mtime_from best m rest st) = st
  ∧ fst (max_mtime_from best m rest st) ≠ OutOfFuel
  ∧ (∀ msg, fst (max_mtime_from best m rest st) ≠ Raise (TimeoutError msg))
  ∧ (∀ c, fst (max_mtime_from best m rest st) = Return c →
          c = best ∨ c ∈ rest).
Proof.
  revert best m. induction rest as [|p rest IH]; intros best m.
  { repeat split; try done. intros c [= ->]. by left. }
  cbn [max_mtime_from]. unfold bind, os_getmtime.
  destruct (stat (oracle st) (now st) p) as [s|]; [| done].
  destruct (m <? st_mtime s).
  - destruct (IH p (st_mtime s)) as (H1 & H2 & H3 & H4).
    repeat split; try done.
    intros c Hc. right. destruct (H4 c Hc) as [->|Hin].
    + apply list_elem_of_here.
    + by apply list_elem_of_further.
  - destruct (IH best m) as (H1 & H2 & H3 & H4).
    repeat split; try done.
    intros c Hc. destruct (H4 c Hc) as [->|Hin]; [by left |].
    right. by apply list_elem_of_further.
Qed.

Lemma max_mtime_spec (new_files : list string) (st : State) :
  snd (max_mtime new_files st) = st
  ∧ fst (max_mtime new_files st) ≠ OutOfFuel
  ∧ (∀ msg, fst (max_mtime new_files st) ≠ Raise (TimeoutError msg))
  ∧ (∀ c, fst (max_mtime new_files st) = Return c → c ∈ new_files).
Proof.
  destruct new_files as [|p rest]; [done |].
  cbn [max_mtime]. unfold bind, os_getmtime.
  destruct (stat (oracle st) (now st) p) as [s|]; [| done].
  destruct (max_mtime_from_spec rest p (st_mtime s) st) as (H1 & H2 & H3 & H4).
  repeat split; try done.
  intros c Hc. destruct (H4 c Hc) as [->|Hin].
  - apply list_elem_of_here.
  - by apply list_elem_of_further.
Qed.

Lemma max_mtime_single (p : string) (st : State) :
  is_Some (stat (oracle st) (now st) p) →
  max_mtime [p] st = (Return p, st).
Proof.
  intros [s Hs]. cbn [max_mtime max_mtime_from]. unfold bind, os_getmtime.
  by rewrite Hs.
Qed.

(** What a new file is: the path of a listed [.mp4] name, not known. *)
Lemma new_files_at_elem (o : Oracle) (output_dir : string) (known : gset string)
    (t : Z) (nf : list string) (p : string) :
  new_files_at o output_dir known t = Some nf → p ∈ nf →
  (p ∉ known)
  ∧ ∃ f names, listdir o t output_dir = Some names ∧ f ∈ names
               ∧ is_mp4 f = true ∧ p = path_join output_dir f.
Proof.
  unfold new_files_at, new_files_of.
  destruct (listdir o t output_dir) as [names|]; [| done].
  intros [= <-] Hin.
  apply list_elem_of_filter in Hin as [Hknown Hin].
  rewrite elem_of_remove_dups in Hin.
  apply list_elem_of_fmap in Hin as (f & -> & Hf).
  apply list_elem_of_filter in Hf as [Hmp4 Hf].
  split; [done |]. by exists f, names.
Qed.

(** ** The completion detector: the polling loop *)

Lemma list_mp4s_eq (folder : string) (st : State) :
  list_mp4s folder st
  = match listdir (oracle st) (now st) folder with
    | Some names =>
        (Return (map (path_join folder) (filter (λ f, is_mp4 f = true) names)),
         st)
    | None => (Raise (FileNotFoundError folder), st)
    end.
Proof.
  unfold list_mp4s, bind, os_listdir.
  by destruct (listdir (oracle st) (now st) folder).
Qed.

Lemma poll_timed_out (fuel : nat) (output_dir : string) (known : gset string)
    (timeout start : Z) (st : State) :
  timeout ≤ now st - start →
  poll (S fuel) output_dir known timeout start st
  = (Raise (TimeoutError (timeout_message output_dir timeout)), st).
Proof.
  intros H. cbn [poll]. unfold bind at 1, time_time.
  by destruct (Z.ltb_spec (now st - start) timeout); [lia |].
Qed.

Lemma poll_idle_step (fuel : nat) (output_dir : string) (known : gset string)
    (timeout start : Z) (st : State) :
  now st - start < timeout →
  idle_at (oracle st) output_dir known (now st) →
  poll (S fuel) output_dir known timeout start st
  = poll fuel output_dir known timeout start (advance 1 [EvSleep 1] st).
Proof.
  intros Ht Hidle. cbn [poll]. unfold bind at 1, time_time.
  destruct (Z.ltb_spec (now st - start) timeout); [| lia].
  unfold bind at 1. rewrite list_mp4s_eq.
  unfold idle_at, new_files_at in Hidle.
  destruct (listdir (oracle st) (now st) output_dir) as [names|]; [| done].
  injection Hidle as ->. unfold bind. by rewrite time_sleep_eq.
Qed.

Lemma poll_found (fuel : nat) (output_dir : string) (known : gset string)
    (timeout start : Z) (st : State) (nf : list string) :
  now st - start < timeout →
  new_files_at (oracle st) output_dir known (now st) = Some nf → nf ≠ [] →
  poll (S fuel) output_dir known timeout start st
  = bind (max_mtime nf)
      (λ candidate, bind (stabilize fuel candidate (-1) 0) (λ _, ret candidate))
      st.
Proof.
  intros Ht Hnf Hne. cbn [poll]. unfold bind at 1, time_time.
  destruct (Z.ltb_spec (now st - start) timeout); [| lia].
  unfold bind at 1. rewrite list_mp4s_eq.
  unfold new_files_at in Hnf.
  destruct (listdir (oracle st) (now st) output_dir) as [names|]; [| done].
  injection Hnf as ->. by destruct nf.
Qed.

Lemma poll_no_listing (fuel : nat) (output_dir : string) (known : gset string)
    (timeout start : Z) (st : State) :
  now st - start < timeout →
  new_files_at (oracle st) output_dir known (now st) = None →
  poll (S fuel) output_dir known timeout start st
  = (Raise (FileNotFoundError output_dir), st).
Proof.
  intros Ht Hnf. cbn [poll]. unfold bind at 1, time_time.
  destruct (Z.ltb_spec (now st - start) timeout); [| lia].
  unfold bind at 1. rewrite list_mp4s_eq.
  unfold new_files_at in Hnf.
  by destruct (listdir (oracle st) (now st) output_dir).
Qed.

(** [n] idle polls in a row take [n] seconds and [n] units of fuel. *)
Lemma poll_idle_n (n fuel : nat) (output_dir : string) (known : gset string)
    (timeout start : Z) (st : State) :
  (∀ k : nat, (k < n)%nat →
     idle_at (oracle st) output_dir known (now st + Z.of_nat k)) →
  ((0 < n)%nat → now st + Z.of_nat n - start ≤ timeout) →
  poll (n + fuel) output_dir known timeout start st
  = poll fuel output_dir known timeout start
      (advance (Z.of_nat n) (replicate n (EvSleep 1)) st).
Proof.
  revert st. induction n as [|n IH]; intros st Hidle Ht.
  { by rewrite advance_zero. }
  specialize (Ht ltac:(lia)).
  change (S n + fuel)%nat with (S (n + fuel)).
  rewrite poll_idle_step; [| lia |].
  2:{ specialize (Hidle 0%nat). rewrite Z.add_0_r in Hidle. apply Hidle. lia. }
  rewrite IH.
  - rewrite advance_advance.
    replace (1 + Z.of_nat n) with (Z.of_nat (S n)) by lia. done.
  - intros k Hk. cbn [advance oracle now].
    replace (now st + 1 + Z.of_nat k) with (now st + Z.of_nat (S k)) by lia.
    apply Hidle. lia.
  - cbn [advance now]. lia.
Qed.

(** Whatever the detector returns was a new file at some poll. *)
Lemma poll_returns_new_file (fuel : nat) (output_dir : string)
    (known : gset string) (timeout start : Z) (st st' : State) (p : string) :
  poll fuel output_dir known timeout start st = (Return p, st') →
  ∃ t nf, new_files_at (oracle st) output_dir known t = Some nf ∧ p ∈ nf.
Proof.
  revert st. induction fuel as [|fuel IH]; intros st Hret; [done |].
  destruct (Z.ltb_spec (now st - start) timeout) as [Ht|Ht].
  2:{ by rewrite poll_timed_out in Hret. }
  destruct (new_files_at (oracle st) output_dir known (now st)) as [nf|] eqn:Hnf.
  2:{ by rewrite poll_no_listing in Hret. }
  destruct nf as [|p0 nf].
  { rewrite poll_idle_step in Hret by done. apply IH in Hret. exact Hret. }
  rewrite (poll_found _ _ _ _ _ _ (p0 :: nf)) in Hret by done.
  exists (now st), (p0 :: nf). split; [done |].
  destruct (max_mtime_spec (p0 :: nf) st) as (Hst & _ & _ & Hin).
  unfold bind in Hret at 1.
  destruct (max_mtime (p0 :: nf) st) as [[c| |] st1] eqn:Hmax; try done.
  unfold bind in Hret.
  destruct (stabilize fuel c (-1) 0 st1) as [[v| |] st2]; try done.
  injection Hret as <- _. by apply Hin.
Qed.

(** A timeout error is raised only after idle polls throughout the
    window. *)
Lemma poll_timeout_only_idle (fuel : nat) (output_dir : string)
    (known : gset string) (timeout start : Z) (st : State) (msg : string) :
  fst (poll fuel output_dir known timeout start st) = Raise (TimeoutError msg) →
  ∀ t, now st ≤ t < start + timeout →
       idle_at (oracle st) output_dir known t.
Proof.
  revert st. induction fuel as [|fuel IH]; intros st Hres t Hrange; [done |].
  destruct (Z.ltb_spec (now st - start) timeout) as [Ht|Ht]; [| lia].
  destruct (new_files_at (oracle st) output_dir known (now st)) as [nf|] eqn:Hnf.
  2:{ by rewrite poll_no_listing in Hres. }
  destruct nf as [|p0 nf].
  { rewrite poll_idle_step in Hres by done.
    destruct (Z.eq_dec t (now st)) as [->|]; [done |].
    apply (IH _ Hres). cbn [advance now]. lia. }
  rewrite (poll_found _ _ _ _ _ _ (p0 :: nf)) in Hres by done.
  destruct (max_mtime_spec (p0 :: nf) st) as (_ & _ & Hnt & _).
  unfold bind in Hres at 1.
  destruct (max_mtime (p0 :: nf) st) as [[c| |] st1] eqn:Hmax.
  - unfold bind in Hres.
    pose proof (stabilize_no_raise fuel c (-1) 0 st1 (TimeoutError msg)) as Hno.
    destruct (stabilize fuel c (-1) 0 st1) as [[v| |] st2];
      simpl in *; congruence.
  - simpl in *. by destruct (Hnt msg).
  - done.
Qed.

(** The detector leaves the environment and the known files alone. *)
Lemma poll_frame (fuel : nat) (output_dir : string) (known : gset string)
    (timeout start : Z) (st : State) :
  oracle (snd (poll fuel output_dir known timeout start st)) = oracle st
  ∧ known_files (snd (poll fuel output_dir known timeout start st))
    = known_files st.
Proof.
  revert st. induction fuel as [|fuel IH]; intros st; [done |].
  destruct (Z.ltb_spec (now st - start) timeout) as [Ht|Ht].
  2:{ by rewrite poll_timed_out. }
  destruct (new_files_at (oracle st) output_dir known (now st)) as [nf|] eqn:Hnf.
  2:{ by rewrite poll_no_listing. }
  destruct nf as [|p0 nf].
  { rewrite poll_idle_step by done.
    destruct (IH (advance 1 [EvSleep 1] st)) as [-> ->]. done. }
  rewrite (poll_found _ _ _ _ _ _ (p0 :: nf)) by done.
  destruct (max_mtime_spec (p0 :: nf) st) as (Hst & _ & _ & _).
  unfold bind at 1 3.
  destruct (max_mtime (p0 :: nf) st) as [[c| |] st1] eqn:Hmax;
    cbn [snd] in Hst; subst st1; try done.
  unfold bind.
  pose proof (stabilize_frame fuel c (-1) 0 st) as Hfr.
  destruct (stabilize fuel c (-1) 0 st) as [[v| |] st2]; exact Hfr.
Qed.

Lemma wait_for_new_video_eq (fuel : nat) (output_dir : string)
    (known : gset string) (timeout : Z) (st : State) :
  wait_for_new_video fuel output_dir known timeout st
  = poll fuel output_dir known timeout (now st) st.
Proof. reflexivity. Qed.

Lemma with_snd {A : Type} (x : outcome A * State) (r : outcome A) :
  fst x = r → x = (r, snd x).
Proof. intros <-. by destruct x. Qed.

(** (A) Nothing new for the whole window: the timeout error, after
    [timeout] sleeps of one second. *)
Lemma wait_times_out_when_idle (fuel : nat) (output_dir : string)
    (known : gset string) (timeout : Z) (st : State) :
  (∀ t, now st ≤ t < now st + timeout →
        idle_at (oracle st) output_dir known t) →
  (Z.to_nat timeout < fuel)%nat →
  wait_for_new_video fuel output_dir known timeout st
  = (Raise (TimeoutError (timeout_message output_dir timeout)),
     advance (Z.of_nat (Z.to_nat timeout))
       (replicate (Z.to_nat timeout) (EvSleep 1)) st).
Proof.
  intros Hidle Hfuel. rewrite wait_for_new_video_eq.
  replace fuel with (Z.to_nat timeout + S (fuel - S (Z.to_nat timeout)))%nat
    by lia.
  rewrite poll_idle_n.
  - apply poll_timed_out. cbn [advance now]. lia.
  - intros k Hk. apply Hidle. lia.
  - lia.
Qed.

(** (C) A candidate that never stabilises: no result, whatever the
    fuel. *)
Lemma poll_unstable_diverges (n : nat) (output_dir : string)
    (known : gset string) (timeout start : Z) (nf : list string) (c : string) :
  ∀ (fuel : nat) (st : State),
    (∀ k : nat, (k < n)%nat →
       idle_at (oracle st) output_dir known (now st + Z.of_nat k)) →
    now st + Z.of_nat n - start < timeout →
    new_files_at (oracle st) output_dir known (now st + Z.of_nat n) = Some nf →
    fst (max_mtime nf (advance (Z.of_nat n) (replicate n (EvSleep 1)) st))
    = Return c →
    unstable_from (oracle st) c (now st + Z.of_nat n) →
    fst (poll fuel output_dir known timeout start st) = OutOfFuel.
Proof.
  induction n as [|n IH]; intros fuel st Hidle Ht Hnf Hmax Hun;
    (destruct fuel as [|fuel]; [done |]).
  - rewrite advance_zero in Hmax.
    replace (now st + Z.of_nat 0) with (now st) in * by lia.
    assert (nf ≠ []) as Hne by (by intros ->).
    rewrite (poll_found _ _ _ _ _ _ nf) by (done || lia).
    destruct (max_mtime_spec nf st) as (Hst & _).
    rewrite (bind_return _ _ st st c)
      by (rewrite <- Hst at 2; by apply with_snd).
    apply bind_out_of_fuel. by apply stabilize_unstable.
  - rewrite poll_idle_step; [| lia |].
    2:{ specialize (Hidle 0%nat). rewrite Z.add_0_r in Hidle. apply Hidle. lia. }
    apply IH; cbn [advance oracle now].
    + intros k Hk.
      replace (now st + 1 + Z.of_nat k) with (now st + Z.of_nat (S k)) by lia.
      apply Hidle. lia.
    + lia.
    + by replace (now st + 1 + Z.of_nat n) with (now st + Z.of_nat (S n)) by lia.
    + rewrite advance_advance.
      by replace (1 + Z.of_nat n) with (Z.of_nat (S n)) by lia.
    + by replace (now st + 1 + Z.of_nat n) with (now st + Z.of_nat (S n)) by lia.
Qed.

(** C1, as the code has it: the timeout bounds the search for a new file
    only. (a) When no poll before [timeout] seconds sees a new file, the
    call raises the timeout error, whose message carries the folder and
    the timeout. (b) A timeout error means that no poll saw a new file.
    (c) Once a candidate is seen whose size never shows four equal
    samples in a row, the call neither raises nor returns: it runs out of
    any amount of fuel. *)
Theorem timeout_bounds_search_only (fuel : nat) (output_dir : string)
    (known : gset string) (timeout : Z) (st : State) :
  ((∀ t, now st ≤ t < now st + timeout →
         idle_at (oracle st) output_dir known t) →
   (Z.to_nat timeout < fuel)%nat →
   wait_for_new_video fuel output_dir known timeout st
   = (Raise (TimeoutError (timeout_message output_dir timeout)),
      advance (Z.of_nat (Z.to_nat timeout))
        (replicate (Z.to_nat timeout) (EvSleep 1)) st))
  ∧ (∀ msg,
       fst (wait_for_new_video fuel output_dir known timeout st)
       = Raise (TimeoutError msg) →
       ∀ t, now st ≤ t < now st + timeout →
            idle_at (oracle st) output_dir known t)
  ∧ (∀ (n : nat) nf c,
       (∀ k : nat, (k < n)%nat →
          idle_at (oracle st) output_dir known (now st + Z.of_nat k)) →
       Z.of_nat n < timeout →
       new_files_at (oracle st) output_dir known (now st + Z.of_nat n)
       = Some nf →
       fst (max_mtime nf (advance (Z.of_nat n) (replicate n (EvSleep 1)) st))
       = Return c →
       unstable_from (oracle st) c (now st + Z.of_nat n) →
       fst (wait_for_new_video fuel output_dir known timeout st) = OutOfFuel).
Proof.
  split; [apply wait_times_out_when_idle |]. split.
  - intros msg Hres. rewrite wait_for_new_video_eq in Hres.
    by apply (poll_timeout_only_idle _ _ _ _ _ _ _ Hres).
  - intros n nf c Hidle Ht Hnf Hmax Hun. rewrite wait_for_new_video_eq.
    apply (poll_unstable_diverges n _ _ _ _ nf c); try done. lia.
Qed.

Lemma empty_oracle_idle (t : Z) : idle_at empty_oracle "out" steady_known t.
Proof. vm_compute. reflexivity. Qed.

Lemma timeout_bounds_search_only_witness :
  empty_run
  = (Raise (TimeoutError "No new .mp4 detected in out within 5 seconds."),
     advance 5 (replicate 5 (EvSleep 1)) (initial_state empty_oracle steady_known)).
Proof.
  apply (timeout_bounds_search_only 10 "out" steady_known 5
           (initial_state empty_oracle steady_known)).
  - intros t _. apply empty_oracle_idle.
  - vm_compute. lia.
Defined.

Lemma growing_unstable : unstable_from growing_oracle "out/clip.mp4" 0.
Proof.
  intros t x Ht (H0 & H1 & _).
  unfold size_at, growing_oracle in H0, H1. cbn [stat] in H0, H1.
  rewrite String.eqb_refl in H0, H1. cbn in H0, H1.
  injection H0 as <-. injection H1 as H1. lia.
Qed.

(** C1, counterexample: [clip.mp4] is seen at the first poll and grows
    for ever; with a timeout of 5 seconds the call never raises the
    timeout error, it keeps sampling. *)
Lemma growing_file_never_times_out :
  new_files_at growing_oracle "out" ∅ 0 = Some ["out/clip.mp4"]
  ∧ unstable_from growing_oracle "out/clip.mp4" 0
  ∧ (∀ fuel,
       fst (wait_for_new_video fuel "out" ∅ 5 (initial_state growing_oracle ∅))
       = OutOfFuel)
  ∧ ¬ (∃ fuel msg,
         fst (wait_for_new_video fuel "out" ∅ 5 (initial_state growing_oracle ∅))
         = Raise (TimeoutError msg)).
Proof.
  assert (∀ fuel,
            fst (wait_for_new_video fuel "out" ∅ 5
                   (initial_state growing_oracle ∅)) = OutOfFuel) as Hdiv.
  { intros fuel. rewrite wait_for_new_video_eq.
    apply (poll_unstable_diverges 0 _ _ _ _ ["out/clip.mp4"] "out/clip.mp4").
    - intros k Hk. lia.
    - vm_compute. reflexivity.
    - vm_compute. reflexivity.
    - vm_compute. reflexivity.
    - apply growing_unstable. }
  split; [vm_compute; reflexivity |].
  split; [apply growing_unstable |].
  split; [exact Hdiv |].
  intros (fuel & msg & H). by rewrite Hdiv in H.
Qed.

(** A file that stabilises only after the timeout has passed is still
    returned: the call ends at time 14, with a timeout of 5. *)
Example late_file_is_returned :
  fst late_run = Return "out/clip.mp4" ∧ now (snd late_run) = 14.
Proof. split; vm_compute; reflexivity. Qed.

Lemma size_samples_app (a b : list event) :
  size_samples (a ++ b) = size_samples a ++ size_samples b.
Proof.
  induction a as [|ev a IH]; [done |].
  destruct ev; simpl; by rewrite IH.
Qed.

Lemma size_samples_sleeps (n : nat) (secs : Z) :
  size_samples (replicate n (EvSleep secs)) = [].
Proof. induction n as [|n IH]; [done | exact IH]. Qed.

(** C2, as the code has it: a new file [F] that is the only new file of
    the poll that first sees it, and whose size is the same [x] at that
    instant and the three following ones, is returned after exactly four
    size samples: the first sets the reference size, the three equal ones
    after it take the stability counter to its threshold 3. *)
Theorem detector_returns_after_four_samples (fuel n : nat) (output_dir : string)
    (known : gset string) (timeout : Z) (st : State) (F : string) (x : N) :
  (∀ k : nat, (k < n)%nat →
     idle_at (oracle st) output_dir known (now st + Z.of_nat k)) →
  Z.of_nat n < timeout →
  new_files_at (oracle st) output_dir known (now st + Z.of_nat n) = Some [F] →
  (∀ k, 0 ≤ k ≤ 3 →
        size_at (oracle st) F (now st + Z.of_nat n + k) = Some x) →
  wait_for_new_video (n + (6 + fuel)) output_dir known timeout st
  = (Return F,
     advance (Z.of_nat n + 4)
       (replicate n (EvSleep 1)
        ++ sample_round F x ++ sample_round F x
        ++ sample_round F x ++ sample_round F x) st)
  ∧ size_samples
      (replicate n (EvSleep 1)
       ++ sample_round F x ++ sample_round F x
       ++ sample_round F x ++ sample_round F x)
    = [Some x; Some x; Some x; Some x].
Proof.
  intros Hidle Ht Hnf Hx. split.
  2:{ by rewrite size_samples_app, size_samples_sleeps. }
  rewrite wait_for_new_video_eq, poll_idle_n by (done || lia).
  change (6 + fuel)%nat with (S (5 + fuel)).
  rewrite (poll_found _ _ _ _ _ _ [F]); cbn [advance oracle now];
    [| lia | done | done].
  assert (is_Some (stat (oracle st) (now st + Z.of_nat n) F)) as HF.
  { specialize (Hx 0 ltac:(lia)). rewrite Z.add_0_r in Hx.
    unfold size_at in Hx.
    by destruct (stat (oracle st) (now st + Z.of_nat n) F). }
  rewrite (bind_return _ _ _ _ F
             (max_mtime_single F
                (advance (Z.of_nat n) (replicate n (EvSleep 1)) st) HF)).
  rewrite (bind_return _ _ _ _ _
             (stabilize_steady fuel F x
                (advance (Z.of_nat n) (replicate n (EvSleep 1)) st) Hx)).
  unfold ret. by rewrite advance_advance.
Qed.

Lemma steady_idle_before (k : nat) :
  (k < 2)%nat →
  idle_at steady_oracle "out" steady_known (0 + Z.of_nat k).
Proof.
  intros Hk. destruct k as [|[|k]]; [| | lia]; vm_compute; reflexivity.
Qed.

Lemma steady_size (k : Z) :
  0 ≤ k ≤ 3 → size_at steady_oracle "out/clip.MP4" (0 + Z.of_nat 2 + k) = Some 100%N.
Proof.
  intros Hk. unfold size_at, steady_oracle. cbn [stat].
  change (String.eqb "out/clip.MP4" "out/old.mp4") with false.
  change (String.eqb "out/clip.MP4" "out/clip.MP4") with true.
  cbn [andb]. by destruct (Z.leb_spec 2 (0 + Z.of_nat 2 + k)); [| lia].
Qed.

Lemma detector_returns_after_four_samples_witness :
  steady_run
  = (Return "out/clip.MP4",
     advance 6
       (replicate 2 (EvSleep 1)
        ++ sample_round "out/clip.MP4" 100 ++ sample_round "out/clip.MP4" 100
        ++ sample_round "out/clip.MP4" 100 ++ sample_round "out/clip.MP4" 100)
       (initial_state steady_oracle steady_known)).
Proof.
  apply (detector_returns_after_four_samples 2 2 "out" steady_known 900
           (initial_state steady_oracle steady_known) "out/clip.MP4" 100).
  - apply steady_idle_before.
  - lia.
  - vm_compute. reflexivity.
  - apply steady_size.
Defined.

(** C2, counterexample: [clip.MP4] is 100 bytes long from its first
    sample on. The detector returns it with four samples in its trace, not
    three; with fuel for three sampling rounds the loop is still
    running. *)
Lemma steady_file_takes_four_samples :
  fst steady_run = Return "out/clip.MP4"
  ∧ size_samples (trace (snd steady_run))
    = [Some 100%N; Some 100%N; Some 100%N; Some 100%N]
  ∧ size_samples (trace (snd steady_run)) ≠ [Some 100%N; Some 100%N; Some 100%N]
  ∧ fst (stabilize 3 "out/clip.MP4" (-1) 0
           (advance 2 [] (initial_state steady_oracle steady_known)))
    = OutOfFuel.
Proof.
  assert (size_samples (trace (snd steady_run))
          = [Some 100%N; Some 100%N; Some 100%N; Some 100%N]) as Hs
    by (vm_compute; reflexivity).
  split; [vm_compute; reflexivity |].
  split; [exact Hs |].
  split; [rewrite Hs; discriminate |].
  vm_compute; reflexivity.
Qed.

Lemma lower_app (a b : string) : lower (a +:+ b) = lower a +:+ lower b.
Proof.
  induction a as [|c a IH]; str_norm; [done |].
  cbn [lower]. by rewrite IH, append_cons.
Qed.

Lemma path_join_suffix (a b : string) : ∃ pre, path_join a b = pre +:+ b.
Proof.
  unfold path_join. destruct (startswith "/" b); [by exists "" |].
  destruct (String.eqb a "" || endswith a "/").
  - by exists a.
  - exists (a +:+ "/"). by rewrite append_assoc.
Qed.

Lemma is_mp4_path_join (folder f : string) :
  is_mp4 f = true → is_mp4 (path_join folder f) = true.
Proof.
  unfold is_mp4. intros [pre Hpre]%endswith_spec.
  destruct (path_join_suffix folder f) as [dir ->].
  apply endswith_spec. exists (lower dir +:+ pre).
  by rewrite lower_app, Hpre, append_assoc.
Qed.

(** The detector never returns a known file. *)
Lemma wait_for_new_video_not_known (fuel : nat) (output_dir : string)
    (known : gset string) (timeout : Z) (st st' : State) (p : string) :
  wait_for_new_video fuel output_dir known timeout st = (Return p, st') →
  p ∉ known.
Proof.
  rewrite wait_for_new_video_eq. intros Hret.
  destruct (poll_returns_new_file _ _ _ _ _ _ _ _ Hret) as (t & nf & Hnf & Hin).
  by destruct (new_files_at_elem _ _ _ _ _ _ Hnf Hin) as [Hknown _].
Qed.

(** C10: whatever [wait_for_new_video] returns is the path of a name
    listed in the watched folder that ends in [.mp4] when lowered (so
    does the path itself), and is not in the [known_files] it was given. *)
Theorem wait_for_new_video_returns_new_mp4 (fuel : nat) (output_dir : string)
    (known : gset string) (timeout : Z) (st st' : State) (p : string) :
  wait_for_new_video fuel output_dir known timeout st = (Return p, st') →
  (∃ f t names,
      listdir (oracle st) t output_dir = Some names ∧ f ∈ names
      ∧ endswith (lower f) ".mp4" = true
      ∧ p = path_join output_dir f)
  ∧ endswith (lower p) ".mp4" = true
  ∧ p ∉ known.
Proof.
  rewrite wait_for_new_video_eq. intros Hret.
  destruct (poll_returns_new_file _ _ _ _ _ _ _ _ Hret) as (t & nf & Hnf & Hin).
  destruct (new_files_at_elem _ _ _ _ _ _ Hnf Hin)
    as (Hknown & f & names & Hls & Hf & Hmp4 & ->).
  split; [by exists f, t, names |].
  split; [by apply is_mp4_path_join | done].
Qed.

Lemma wait_for_new_video_returns_new_mp4_witness :
  endswith (lower "out/clip.MP4") ".mp4" = true
  ∧ "out/clip.MP4" ∉ steady_known.
Proof.
  apply (wait_for_new_video_returns_new_mp4 10 "out" steady_known 900
           (initial_state steady_oracle steady_known) (snd steady_run)).
  apply with_snd. vm_compute. reflexivity.
Defined.

(** ** The scene dispatcher *)

Example scene_filenames :
  scene_filename 3 = "scene_03.mp4" ∧ scene_filename 12 = "scene_12.mp4"
  ∧ scene_filename 100 = "scene_100.mp4".
Proof. repeat split; vm_compute; reflexivity. Qed.

(** The state once the job has been posted. *)
Lemma requests_post_eq (url : string) (payload : json) (st : State) :
  requests_post url payload st
  = lift_res (http_post (oracle st) (now st) url payload)
      (snd (log (EvPost url payload) st)).
Proof. reflexivity. Qed.

(** An attempt whose job was accepted and whose clip was detected goes on
    with marking the clip, then creating the folder, then copying. *)
Lemma scene_attempt_after_detection (fuel : nat) (scene_index : Z)
    (scene_prompt comfy_url : string) (base_workflow : json)
    (comfy_output_dir output_dir : string) (st st1 : State)
    (resp : http_response) (kvs : list (string * json)) (p : string) :
  http_post (oracle st) (now st) (comfy_url +:+ "/prompt")
    (JDict [("prompt", inject_scene_prompt base_workflow scene_prompt)])
  = Ok resp →
  resp_ok resp = true →
  body resp = Some (JDict kvs) →
  wait_for_new_video fuel comfy_output_dir (known_files st) 900
    (snd (log (EvPost (comfy_url +:+ "/prompt")
                 (JDict [("prompt", inject_scene_prompt base_workflow scene_prompt)]))
            st))
  = (Return p, st1) →
  scene_attempt fuel scene_index scene_prompt comfy_url base_workflow
    comfy_output_dir output_dir st
  = bind (known_files_add p)
      (λ _, bind (do_disk (OpMakedirs output_dir))
         (λ _, bind (shutil_copy2 p (path_join output_dir
                                       (scene_filename scene_index)))
            (λ _, ret (path_join output_dir (scene_filename scene_index)))))
      st1.
Proof.
  intros Hpost Hok Hbody Hwait. unfold scene_attempt.
  unfold bind at 1. rewrite requests_post_eq, Hpost. cbn [lift_res ret].
  rewrite Hok. unfold bind at 1. cbn [ret].
  unfold bind at 1. unfold resp_json. rewrite Hbody. cbn [ret].
  unfold bind at 1. cbn [py_get ret].
  unfold bind at 1. cbn [py_get ret].
  unfold bind at 1. unfold get_known_files.
  cbn [log snd known_files] in *.
  unfold bind at 1. by rewrite Hwait.
Qed.

Lemma wait_for_new_video_frame (fuel : nat) (output_dir : string)
    (known : gset string) (timeout : Z) (st : State) :
  oracle (snd (wait_for_new_video fuel output_dir known timeout st)) = oracle st
  ∧ known_files (snd (wait_for_new_video fuel output_dir known timeout st))
    = known_files st.
Proof. rewrite wait_for_new_video_eq. apply poll_frame. Qed.

(** C3, as the code has it: within one attempt the detected path is
    marked as known right after detection, before the folder is created
    and the clip copied to [output_dir/scene_NN.mp4]. If the copy raises,
    the attempt raises that error and leaves the known-file set enlarged
    by the detected path; if it succeeds, the attempt returns the
    destination with the same enlarged set. *)
Theorem known_files_marked_before_copy (fuel : nat) (scene_index : Z)
    (scene_prompt comfy_url : string) (base_workflow : json)
    (comfy_output_dir output_dir : string) (st st1 : State)
    (resp : http_response) (kvs : list (string * json)) (p : string) :
  http_post (oracle st) (now st) (comfy_url +:+ "/prompt")
    (JDict [("prompt", inject_scene_prompt base_workflow scene_prompt)])
  = Ok resp →
  resp_ok resp = true →
  body resp = Some (JDict kvs) →
  wait_for_new_video fuel comfy_output_dir (known_files st) 900
    (snd (log (EvPost (comfy_url +:+ "/prompt")
                 (JDict [("prompt", inject_scene_prompt base_workflow scene_prompt)]))
            st))
  = (Return p, st1) →
  disk (oracle st) (now st1) (OpMakedirs output_dir) = None →
  (p ∉ known_files st)
  ∧ (∀ e,
       disk (oracle st) (now st1)
         (OpCopy2 p (path_join output_dir (scene_filename scene_index)))
       = Some e →
       ∃ st2,
         scene_attempt fuel scene_index scene_prompt comfy_url base_workflow
           comfy_output_dir output_dir st
         = (Raise e, st2)
         ∧ known_files st2 = {[p]} ∪ known_files st
         ∧ known_files st2 ≠ known_files st)
  ∧ (disk (oracle st) (now st1)
       (OpCopy2 p (path_join output_dir (scene_filename scene_index)))
     = None →
     ∃ st2,
       scene_attempt fuel scene_index scene_prompt comfy_url base_workflow
         comfy_output_dir output_dir st
       = (Return (path_join output_dir (scene_filename scene_index)), st2)
       ∧ known_files st2 = {[p]} ∪ known_files st
       ∧ trace st2
         = trace st1
           ++ [EvDisk (OpMakedirs output_dir);
               EvDisk (OpCopy2 p (path_join output_dir
                                    (scene_filename scene_index)))]).
Proof.
  intros Hpost Hok Hbody Hwait Hmk.
  pose proof (wait_for_new_video_not_known _ _ _ _ _ _ _ Hwait) as Hnew.
  pose proof (wait_for_new_video_frame fuel comfy_output_dir (known_files st) 900
                (snd (log (EvPost (comfy_url +:+ "/prompt")
                             (JDict [("prompt",
                                      inject_scene_prompt base_workflow
                                        scene_prompt)])) st)))
    as [Horacle Hknown].
  rewrite Hwait in Horacle, Hknown. cbn [snd log oracle known_files] in *.
  rewrite (scene_attempt_after_detection _ _ _ _ _ _ _ _ _ _ _ _
             Hpost Hok Hbody Hwait).
  split; [done |]. split.
  - intros e Hcopy. eexists. split.
    + unfold bind, known_files_add, do_disk, shutil_copy2, log, ret.
      cbn [oracle now]. rewrite Horacle, Hmk. cbn [oracle now].
      rewrite Hcopy. done.
    + cbn [known_files]. rewrite Hknown. split; [done |].
      intros Heq. apply Hnew. rewrite <- Heq.
      by apply elem_of_union_l, elem_of_singleton.
  - intros Hcopy. eexists. split.
    + unfold bind, known_files_add, do_disk, shutil_copy2, log, ret.
      cbn [oracle now]. rewrite Horacle, Hmk. cbn [oracle now].
      rewrite Hcopy. done.
    + cbn [known_files trace]. rewrite Hknown. split; [done |].
      by rewrite <- app_assoc.
Qed.

Lemma known_files_marked_before_copy_witness :
  ("out/clip.MP4" ∉ steady_known)
  ∧ ∃ st2,
      scene_attempt 10 3 "a robot paints" "http://127.0.0.1:8188"
        sample_workflow "out" "clips"
        (initial_state full_disk_oracle steady_known)
      = (Raise (OSError "No space left on device"), st2)
      ∧ known_files st2 = {["out/clip.MP4"]} ∪ steady_known
      ∧ known_files st2 ≠ steady_known.
Proof.
  destruct (known_files_marked_before_copy 10 3 "a robot paints"
              "http://127.0.0.1:8188" sample_workflow "out" "clips"
              (initial_state full_disk_oracle steady_known)
              (snd (wait_for_new_video 10 "out" steady_known 900
                      (snd (log (EvPost "http://127.0.0.1:8188/prompt"
                                   (JDict [("prompt",
                                            inject_scene_prompt sample_workflow
                                              "a robot paints")]))
                              (initial_state full_disk_oracle steady_known)))))
              ok_response [("prompt_id", JStr "7f3a"); ("number", JInt 1)]
              "out/clip.MP4")
    as (Hnew & Hfail & _).
  - reflexivity.
  - reflexivity.
  - reflexivity.
  - apply with_snd. vm_compute. reflexivity.
  - reflexivity.
  - split; [exact Hnew |].
    apply (Hfail (OSError "No space left on device")). reflexivity.
Defined.

(** C3, counterexample: the copy of the detected clip fails on the only
    attempt; the dispatch raises, and the clip is in the known-file set
    all the same, which it was not before. *)
Lemma failed_copy_leaves_clip_known :
  fst full_disk_run = Raise (OSError "No space left on device")
  ∧ ("out/clip.MP4" ∈ known_files (snd full_disk_run))
  ∧ ("out/clip.MP4"
     ∉ known_files (initial_state full_disk_oracle steady_known))
  ∧ known_files (snd full_disk_run)
    ≠ known_files (initial_state full_disk_oracle steady_known).
Proof.
  assert ("out/clip.MP4" ∈ known_files (snd full_disk_run)) as Hin.
  { apply (bool_decide_unpack _). vm_compute. exact I. }
  assert ("out/clip.MP4"
          ∉ known_files (initial_state full_disk_oracle steady_known)) as Hout.
  { apply (bool_decide_unpack _). vm_compute. exact I. }
  split; [vm_compute; reflexivity |].
  split; [exact Hin |]. split; [exact Hout |].
  intros Heq. apply Hout. by rewrite <- Heq.
Qed.

(** ** The retry loop *)

Lemma attempts_loop_cons (fuel : nat) (attempt : Z) (rest : list Z)
    (scene_index : Z) (scene_prompt comfy_url : string) (base_workflow : json)
    (comfy_output_dir output_dir : string) (max_retries : Z) (st : State) :
  attempts_loop fuel (attempt :: rest) scene_index scene_prompt comfy_url
    base_workflow comfy_output_dir output_dir max_retries st
  = match scene_attempt fuel scene_index scene_prompt comfy_url base_workflow
            comfy_output_dir output_dir st with
    | (Raise e, st1) =>
        if attempt =? max_retries then (Raise e, st1)
        else attempts_loop fuel rest scene_index scene_prompt comfy_url
               base_workflow comfy_output_dir output_dir max_retries
               (advance 3 [EvSleep 3] st1)
    | other => other
    end.
Proof.
  cbn [attempts_loop]. unfold try_except.
  destruct (scene_attempt _ _ _ _ _ _ _ st) as [[p|e|] st1]; try done.
  by destruct (attempt =? max_retries).
Qed.





(** With [max_retries <= 0] no attempt is made at all. *)
Example no_attempt_allowed :
  fst (run_scene_through_comfy 10 12 "a robot paints" "http://127.0.0.1:8188"
         (JStr "__SCENE_PROMPT__") "out" "clips" 0 (initial_state down_oracle ∅))
  = Raise (RuntimeError "Scene 12 failed to render after 0 attempts.").
Proof. vm_compute. reflexivity. Qed.

(** ** The assembler *)

Lemma manifest_cons (p : string) (clip_paths : list string) :
  manifest (p :: clip_paths) = "file '" +:+ p +:+ "'" +:+ LF +:+ manifest clip_paths.
Proof.
  unfold manifest, manifest_line. cbn [map foldr].
  by rewrite !append_assoc.
Qed.

Lemma split_lines_line (line rest : string) :
  has_LF line = false →
  split_lines (line +:+ LF +:+ rest) = line :: split_lines rest.
Proof.
  induction line as [|c line IH]; intros Hno.
  - rewrite append_nil_l. unfold LF. rewrite append_cons, append_nil_l.
    cbn [split_lines]. by rewrite Ascii.eqb_refl.
  - cbn [has_LF] in Hno. apply orb_false_elim in Hno as [Hc Hline].
    rewrite append_cons. cbn [split_lines]. by rewrite Hc, (IH Hline).
Qed.

Lemma has_LF_app (a b : string) : has_LF (a +:+ b) = has_LF a || has_LF b.
Proof.
  induction a as [|c a IH]; str_norm; [done |].
  cbn [has_LF]. by rewrite IH, orb_assoc.
Qed.

(** One line per clip, in order, each naming the clip. *)
Lemma manifest_lines (clip_paths : list string) :
  Forall (λ p, has_LF p = false) clip_paths →
  split_lines (manifest clip_paths)
  = map (λ p, "file '" +:+ p +:+ "'") clip_paths.
Proof.
  induction 1 as [|p l Hp _ IH]; [done |].
  rewrite manifest_cons.
  rewrite <- (append_assoc "file '" p), <- (append_assoc _ "'").
  rewrite split_lines_line, IH; [by rewrite !append_assoc |].
  rewrite !has_LF_app, Hp. done.
Qed.

Lemma ffmpeg_failed_message_inj (c1 c2 : Z) :
  ffmpeg_failed_message c1 = ffmpeg_failed_message c2 → c1 = c2.
Proof.
  unfold ffmpeg_failed_message, str_int. intros H.
  apply (inj (String.append "ffmpeg failed with code ")) in H.
  by apply (inj pretty) in H.
Qed.

(** C8: an empty clip list is rejected with an error and nothing is
    done, the external process not invoked. For a non-empty list the
    manifest is written first, then the process runs; the manifest has
    one line per clip, in the given order, naming that clip
    ([file '<path>']); a non-zero exit status raises an error whose
    message carries the status. *)
Theorem concat_clips_spec (clip_paths : list string) (final_output : string)
    (st : State) :
  concat_clips [] final_output st
  = (Raise (ValueError "No clips to concatenate."), st)
  ∧ (clip_paths ≠ [] →
     ∀ returncode,
       disk (oracle st) (now st)
         (OpWrite (path_join (dirname final_output) "concat_list.txt")
            (manifest clip_paths)) = None →
       subprocess_run (oracle st) (now st)
         (ffmpeg_cmd (path_join (dirname final_output) "concat_list.txt")
            final_output) = Ok returncode →
       concat_clips clip_paths final_output st
       = (if returncode =? 0 then Return tt
          else Raise (RuntimeError (ffmpeg_failed_message returncode)),
          {| oracle := oracle st; now := now st;
             known_files := known_files st;
             trace :=
               trace st
               ++ [EvDisk (OpWrite (path_join (dirname final_output)
                                      "concat_list.txt")
                             (manifest clip_paths));
                   EvRun (ffmpeg_cmd (path_join (dirname final_output)
                                        "concat_list.txt") final_output)] |}))
  ∧ (Forall (λ p, has_LF p = false) clip_paths →
     split_lines (manifest clip_paths)
     = map (λ p, "file '" +:+ p +:+ "'") clip_paths)
  ∧ (∀ c1 c2, ffmpeg_failed_message c1 = ffmpeg_failed_message c2 → c1 = c2).
Proof.
  split; [done |]. split; [| split].
  - intros Hne returncode Hwrite Hrun.
    destruct clip_paths as [|p l]; [done |].
    unfold concat_clips, bind, do_disk, subprocess_returncode.
    rewrite Hwrite. cbn [log oracle now]. rewrite Hrun.
    unfold bind. cbn [log ret].
    destruct (returncode =? 0); cbn [negb]; unfold raise, ret;
      cbn [oracle now known_files trace]; by rewrite <- app_assoc.
  - apply manifest_lines.
  - apply ffmpeg_failed_message_inj.
Qed.

Lemma concat_clips_spec_witness :
  fst ffmpeg_fails_run = Raise (RuntimeError "ffmpeg failed with code 1")
  ∧ split_lines (manifest three_clips)
    = ["file 'clips/scene_01.mp4'"; "file 'clips/scene_02.mp4'";
       "file 'clips/scene_03.mp4'"].
Proof.
  destruct (concat_clips_spec three_clips "clips/final_video.mp4"
              (initial_state ffmpeg_fails_oracle ∅))
    as (_ & Hrun & Hlines & _).
  split.
  - unfold ffmpeg_fails_run.
    rewrite (Hrun ltac:(discriminate) 1 eq_refl eq_refl). reflexivity.
  - rewrite Hlines; [reflexivity |].
    repeat constructor.
Defined.

(** A failed write of the manifest: the error propagates and the process
    is not started. *)
Lemma concat_clips_write_fails (clip_paths : list string) (final_output : string)
    (st : State) (e : exn) :
  clip_paths ≠ [] →
  disk (oracle st) (now st)
    (OpWrite (path_join (dirname final_output) "concat_list.txt")
       (manifest clip_paths)) = Some e →
  concat_clips clip_paths final_output st = (Raise e, st).
Proof.
  intros Hne Hwrite. destruct clip_paths as [|p l]; [done |].
  unfold concat_clips, bind, do_disk. by rewrite Hwrite.
Qed.

(** * Properties of the rest of [orchestrator.py] *)

(** ** Stripping and splitting *)

Lemma lstrip_head (isspace : ascii → bool) (s : string) :
  lstrip isspace s = ""
  ∨ ∃ c r, lstrip isspace s = String c r ∧ isspace c = false.
Proof.
  induction s as [|c s IH]; [by left |].
  cbn [lstrip]. destruct (isspace c) eqn:Hc; [exact IH |].
  right. by exists c, s.
Qed.

Lemma lstrip_fixed (isspace : ascii → bool) (c : ascii) (r : string) :
  isspace c = false → lstrip isspace (String c r) = String c r.
Proof. intros Hc. cbn [lstrip]. by rewrite Hc. Qed.

Lemma rstrip_cons_keep (isspace : ascii → bool) (c : ascii) (r : string) :
  isspace c = false →
  rstrip isspace (String c r) = String c (rstrip isspace r).
Proof. intros Hc. cbn [rstrip]. by rewrite Hc. Qed.

Lemma rstrip_idem (isspace : ascii → bool) (s : string) :
  rstrip isspace (rstrip isspace s) = rstrip isspace s.
Proof.
  induction s as [|c s IH]; [done |].
  cbn [rstrip].
  destruct (isspace c && String.eqb (rstrip isspace s) "") eqn:Hcase; [done |].
  cbn [rstrip]. rewrite IH. by rewrite Hcase.
Qed.

(** [strip] is idempotent. *)
Lemma strip_idem (isspace : ascii → bool) (s : string) :
  strip isspace (strip isspace s) = strip isspace s.
Proof.
  unfold strip.
  destruct (lstrip_head isspace s) as [->|(c & r & -> & Hc)]; [done |].
  rewrite (rstrip_cons_keep _ _ _ Hc), (lstrip_fixed _ _ _ Hc).
  rewrite <- (rstrip_cons_keep _ _ _ Hc). apply rstrip_idem.
Qed.

Lemma has_char_lstrip (isspace : ascii → bool) (x : ascii) (s : string) :
  has_char x s = false → has_char x (lstrip isspace s) = false.
Proof.
  induction s as [|c s IH]; [done |].
  cbn [lstrip has_char]. intros [Hc Hs]%orb_false_elim.
  destruct (isspace c); [by apply IH |].
  cbn [has_char]. by rewrite Hc, Hs.
Qed.

Lemma has_char_rstrip (isspace : ascii → bool) (x : ascii) (s : string) :
  has_char x s = false → has_char x (rstrip isspace s) = false.
Proof.
  induction s as [|c s IH]; [done |].
  cbn [rstrip has_char]. intros [Hc Hs]%orb_false_elim.
  destruct (isspace c && String.eqb (rstrip isspace s) ""); [done |].
  cbn [has_char]. by rewrite Hc, (IH Hs).
Qed.

Lemma has_char_strip (isspace : ascii → bool) (x : ascii) (s : string) :
  has_char x s = false → has_char x (strip isspace s) = false.
Proof. intros H. by apply has_char_rstrip, has_char_lstrip. Qed.

(** No piece of a split holds the separator. *)
Lemma split_on_pieces (sep : ascii) (s : string) :
  Forall (λ piece, has_char sep piece = false) (split_on sep s).
Proof.
  induction s as [|c s IH]; [by repeat constructor |].
  cbn [split_on]. destruct (Ascii.eqb c sep) eqn:Hc; [by constructor |].
  destruct (split_on sep s) as [|piece rest]; [by repeat constructor; cbn; rewrite Hc |].
  apply Forall_cons in IH as [Hp Hrest]. constructor; [| done].
  cbn [has_char]. by rewrite Hc, Hp.
Qed.

Lemma split_on_nonempty (sep : ascii) (s : string) : split_on sep s ≠ [].
Proof.
  destruct s as [|c s]; [done |]. cbn [split_on].
  destruct (Ascii.eqb c sep); [done |]. by destruct (split_on sep s).
Qed.

Lemma split_on_no_sep (sep : ascii) (s : string) :
  has_char sep s = false → split_on sep s = [s].
Proof.
  induction s as [|c s IH]; [done |].
  cbn [has_char split_on]. intros [Hc Hs]%orb_false_elim.
  by rewrite Hc, (IH Hs).
Qed.

Lemma split_on_piece (sep : ascii) (piece rest : string) :
  has_char sep piece = false →
  split_on sep (piece +:+ String sep rest) = piece :: split_on sep rest.
Proof.
  induction piece as [|c piece IH]; intros Hno.
  - rewrite append_nil_l. cbn [split_on]. by rewrite Ascii.eqb_refl.
  - cbn [has_char] in Hno. apply orb_false_elim in Hno as [Hc Hp].
    rewrite append_cons. cbn [split_on]. by rewrite Hc, (IH Hp).
Qed.

(** Splitting undoes joining, for pieces free of the separator. *)
Lemma split_on_join (sep : ascii) (pieces : list string) :
  pieces ≠ [] →
  Forall (λ piece, has_char sep piece = false) pieces →
  split_on sep (join_with (String sep "") pieces) = pieces.
Proof.
  intros Hne Hall. induction Hall as [|p l Hp Hl IH]; [done |].
  destruct l as [|q l].
  - cbn [join_with]. by apply split_on_no_sep.
  - change (join_with (String sep "") (p :: q :: l))
      with (p +:+ String sep "" +:+ join_with (String sep "") (q :: l)).
    rewrite append_cons, append_nil_l, split_on_piece by done.
    by rewrite IH.
Qed.

(** Joining undoes splitting. *)
Lemma join_split_on (sep : ascii) (s : string) :
  join_with (String sep "") (split_on sep s) = s.
Proof.
  induction s as [|c s IH]; [done |].
  cbn [split_on]. destruct (Ascii.eqb_spec c sep) as [->|Hne].
  - pose proof (split_on_nonempty sep s) as Hs.
    destruct (split_on sep s) as [|p l] eqn:E; [done |].
    change (join_with (String sep "") ("" :: p :: l))
      with ("" +:+ String sep "" +:+ join_with (String sep "") (p :: l)).
    by rewrite IH.
  - pose proof (split_on_nonempty sep s) as Hs.
    destruct (split_on sep s) as [|p l] eqn:E; [done |].
    destruct l as [|q l].
    + cbn [join_with] in *. by rewrite IH.
    + change (join_with (String sep "") (String c p :: q :: l))
        with (String c p +:+ String sep ""
              +:+ join_with (String sep "") (q :: l)).
      change (join_with (String sep "") (p :: q :: l))
        with (p +:+ String sep "" +:+ join_with (String sep "") (q :: l)) in IH.
      by rewrite append_cons, IH.
Qed.

(** ** The backends of [--comfy-urls] *)

Lemma parse_comfy_urls_clean (isspace : ascii → bool) (comfy_urls : string) :
  Forall (λ u, u ≠ "" ∧ has_char ","%char u = false ∧ strip isspace u = u)
    (parse_comfy_urls isspace comfy_urls).
Proof.
  unfold parse_comfy_urls. apply Forall_forall. intros u Hu.
  apply list_elem_of_fmap in Hu as (piece & -> & Hpiece).
  apply list_elem_of_filter in Hpiece as [Hne Hin].
  split; [done |]. split; [| apply strip_idem].
  apply has_char_strip.
  pose proof (split_on_pieces ","%char comfy_urls) as Hall.
  rewrite Forall_forall in Hall. by apply Hall.
Qed.

Lemma parse_comfy_urls_elem (isspace : ascii → bool) (comfy_urls u : string) :
  u ∈ parse_comfy_urls isspace comfy_urls
  ↔ ∃ piece, piece ∈ split_on ","%char comfy_urls
             ∧ strip isspace piece = u ∧ u ≠ "".
Proof.
  unfold parse_comfy_urls. split.
  - intros (piece & -> & Hpiece)%list_elem_of_fmap.
    apply list_elem_of_filter in Hpiece as [Hne Hin]. by exists piece.
  - intros (piece & Hin & <- & Hne). apply list_elem_of_fmap.
    exists piece. split; [done |]. by apply list_elem_of_filter.
Qed.

Lemma parse_comfy_urls_nil (isspace : ascii → bool) (comfy_urls : string) :
  parse_comfy_urls isspace comfy_urls = []
  ↔ Forall (λ piece, strip isspace piece = "") (split_on ","%char comfy_urls).
Proof.
  split.
  - intros Hnil. apply Forall_forall. intros piece Hin.
    destruct (decide (strip isspace piece = "")) as [|Hne]; [done |].
    assert (strip isspace piece ∈ parse_comfy_urls isspace comfy_urls) as Hu.
    { apply parse_comfy_urls_elem. by exists piece. }
    rewrite Hnil in Hu. by apply not_elem_of_nil in Hu.
  - intros Hall.
    destruct (parse_comfy_urls isspace comfy_urls) as [|u urls] eqn:E; [done |].
    assert (u ∈ parse_comfy_urls isspace comfy_urls) as Hu
      by (rewrite E; apply list_elem_of_here).
    apply parse_comfy_urls_elem in Hu as (piece & Hin & Hstrip & Hne).
    rewrite Forall_forall in Hall. rewrite (Hall piece Hin) in Hstrip.
    by destruct Hne.
Qed.

Lemma missing_message_other (missing : list string) :
  missing_message missing ≠ "No valid URLs in --comfy-urls".
Proof. unfold missing_message. by rewrite append_cons. Qed.

(** X1: In render mode, for arguments in ASCII: the backends are
    computed only when none of the four required arguments is missing or
    empty; the backends kept are the stripped pieces between commas that
    are not blank, so each is non-empty, holds no comma and has no
    whitespace left at either end; the run stops with [No valid URLs in
    --comfy-urls] exactly when no argument is missing and every piece is
    blank, and with the list of the missing arguments when one is. *)
Theorem comfy_urls_of_clean
    (workflow_json comfy_urls comfy_output_dir output_dir : option string) :
  ascii_only (default "" comfy_urls) = true →
  let pieces := split_on ","%char (default "" comfy_urls) in
  let missing :=
    missing_args workflow_json comfy_urls comfy_output_dir output_dir in
  match main_comfy_urls ascii_isspace workflow_json comfy_urls
          comfy_output_dir output_dir with
  | Done urls =>
      missing = [] ∧ urls ≠ []
      ∧ Forall (λ u, u ≠ "" ∧ has_char ","%char u = false
                     ∧ strip ascii_isspace u = u) urls
      ∧ ∀ u, u ∈ urls
             ↔ ∃ piece, piece ∈ pieces
                        ∧ strip ascii_isspace piece = u ∧ u ≠ ""
  | Failed e =>
      (missing ≠ [] ∧ e = SystemExit (missing_message missing))
      ∨ (missing = [] ∧ e = SystemExit "No valid URLs in --comfy-urls"
         ∧ Forall (λ piece, strip ascii_isspace piece = "") pieces)
  end
  ∧ (main_comfy_urls ascii_isspace workflow_json comfy_urls comfy_output_dir
       output_dir
     = Failed (SystemExit "No valid URLs in --comfy-urls")
     ↔ missing = []
       ∧ Forall (λ piece, strip ascii_isspace piece = "") pieces).
Proof.
  intros _ pieces missing. unfold main_comfy_urls. fold missing.
  destruct missing as [|m missing'] eqn:Hmissing.
  2:{ split; [left; by split |]. split.
      - intros Hmsg. exfalso.
        apply (missing_message_other (m :: missing')). congruence.
      - by intros [? _]. }
  unfold comfy_urls_of.
  pose proof (parse_comfy_urls_clean ascii_isspace (default "" comfy_urls))
    as Hclean.
  pose proof (parse_comfy_urls_nil ascii_isspace (default "" comfy_urls))
    as Hnil.
  pose proof (parse_comfy_urls_elem ascii_isspace (default "" comfy_urls))
    as Helem.
  fold pieces in Hnil, Helem.
  destruct (parse_comfy_urls ascii_isspace (default "" comfy_urls))
    as [|u urls].
  - split.
    + right. split; [done |]. split; [done |]. by apply Hnil.
    + split; [intros _; split; [done | by apply Hnil] | done].
  - split; [by repeat (split; [done |]) |]. split; [done |].
    intros [_ Hall]. by apply Hnil in Hall.
Qed.

Lemma comfy_urls_of_clean_witness :
  main_comfy_urls ascii_isspace (Some "wan.json") (Some " , ,") (Some "out")
    (Some "clips")
  = Failed (SystemExit "No valid URLs in --comfy-urls").
Proof.
  apply (comfy_urls_of_clean (Some "wan.json") (Some " , ,") (Some "out")
           (Some "clips")); [reflexivity |].
  split; [reflexivity |]. repeat constructor.
Defined.

Example main_comfy_urls_missing :
  main_comfy_urls ascii_isspace (Some "wan.json") (Some "") None (Some "clips")
  = Failed (SystemExit "Missing required arguments for rendering: --comfy-urls, --comfy-output-dir").
Proof. reflexivity. Qed.

(** X2: Backends that are clean in this sense come back as they are from
    their comma-separated list. *)
Theorem parse_comfy_urls_join (isspace : ascii → bool) (urls : list string) :
  Forall (λ u, u ≠ "" ∧ has_char ","%char u = false
               ∧ strip isspace u = u) urls →
  parse_comfy_urls isspace (join_with "," urls) = urls.
Proof.
  intros Hclean. unfold parse_comfy_urls.
  destruct urls as [|u urls]; [done |].
  rewrite (split_on_join ","%char) by
    (done || (eapply Forall_impl; [exact Hclean |]; by intros ? (_ & ? & _))).
  induction Hclean as [|v l (Hne & _ & Hstrip) _ IH]; [done |].
  rewrite filter_cons. rewrite Hstrip.
  destruct (decide (v ≠ "")); [| done].
  cbn [map]. by rewrite Hstrip, IH.
Qed.

Lemma parse_comfy_urls_join_witness :
  parse_comfy_urls ascii_isspace
    (join_with "," ["http://127.0.0.1:8188"; "http://127.0.0.1:8288"])
  = ["http://127.0.0.1:8188"; "http://127.0.0.1:8288"].
Proof.
  apply (parse_comfy_urls_join ascii_isspace).
  repeat constructor; (discriminate || reflexivity).
Defined.

Example parse_comfy_urls_blanks :
  parse_comfy_urls ascii_isspace " http://a:1 , ,http://b:2,, "
  = ["http://a:1"; "http://b:2"]
  ∧ comfy_urls_of ascii_isspace " , ,"
    = Failed (SystemExit "No valid URLs in --comfy-urls").
Proof. split; reflexivity. Qed.

(** ** Finding the JSON block of a reply *)

Lemma length_append (a b : string) :
  String.length (a +:+ b) = (String.length a + String.length b)%nat.
Proof. induction a as [|c a IH]; str_norm; [done |]. cbn. by rewrite IH. Qed.

Lemma has_char_app (c : ascii) (a b : string) :
  has_char c (a +:+ b) = has_char c a || has_char c b.
Proof.
  induction a as [|x a IH]; str_norm; [done |].
  cbn [has_char]. by rewrite IH, orb_assoc.
Qed.

Lemma str_drop_app (pre s : string) : str_drop (String.length pre) (pre +:+ s) = s.
Proof. induction pre as [|c pre IH]; str_norm; [by destruct s | exact IH]. Qed.

Lemma str_take_app (a b : string) : str_take (String.length a) (a +:+ b) = a.
Proof.
  induction a as [|c a IH]; str_norm; [by destruct b |].
  cbn [String.length str_take]. by rewrite IH.
Qed.

Lemma find_char_none (c : ascii) (s : string) :
  has_char c s = false → find_char c s = -1.
Proof.
  induction s as [|x s IH]; [done |].
  cbn [has_char find_char]. intros [Hx Hs]%orb_false_elim.
  by rewrite Hx, (IH Hs).
Qed.

Lemma rfind_char_none (c : ascii) (s : string) :
  has_char c s = false → rfind_char c s = -1.
Proof.
  induction s as [|x s IH]; [done |].
  cbn [has_char rfind_char]. intros [Hx Hs]%orb_false_elim.
  by rewrite Hx, (IH Hs).
Qed.

(** The first occurrence. *)
Lemma find_char_app (c : ascii) (pre rest : string) :
  has_char c pre = false →
  find_char c (pre +:+ String c rest) = Z.of_nat (String.length pre).
Proof.
  induction pre as [|x pre IH]; str_norm.
  - intros _. cbn [find_char]. by rewrite Ascii.eqb_refl.
  - cbn [has_char]. intros [Hx Hpre]%orb_false_elim.
    cbn [find_char String.length]. rewrite Hx, (IH Hpre).
    destruct (Z.eqb_spec (Z.of_nat (String.length pre)) (-1)); lia.
Qed.

(** The last occurrence. *)
Lemma rfind_char_app (c : ascii) (x post : string) :
  has_char c post = false →
  rfind_char c (x +:+ String c post) = Z.of_nat (String.length x).
Proof.
  intros Hpost. induction x as [|a x IH]; str_norm.
  - cbn [rfind_char]. by rewrite (rfind_char_none _ _ Hpost), Ascii.eqb_refl.
  - cbn [rfind_char String.length]. rewrite IH.
    destruct (Z.eqb_spec (Z.of_nat (String.length x)) (-1)); lia.
Qed.

Lemma find_char_split (c : ascii) (s : string) :
  has_char c s = true →
  ∃ pre rest, s = pre +:+ String c rest ∧ has_char c pre = false.
Proof.
  induction s as [|x s IH]; [done |].
  cbn [has_char]. destruct (Ascii.eqb_spec x c) as [->|Hne].
  - intros _. by exists "", s.
  - intros Hs. destruct (IH Hs) as (pre & rest & -> & Hpre).
    exists (String x pre), rest. split; [done |].
    cbn [has_char]. rewrite Hpre. by destruct (Ascii.eqb_spec x c).
Qed.

Lemma rfind_char_split (c : ascii) (s : string) :
  has_char c s = true →
  ∃ x post, s = x +:+ String c post ∧ has_char c post = false.
Proof.
  induction s as [|a s IH]; [done |].
  cbn [has_char]. destruct (has_char c s) eqn:Hs.
  - intros _. destruct (IH eq_refl) as (x & post & -> & Hpost).
    by exists (String a x), post.
  - rewrite orb_false_r. intros ->%Ascii.eqb_eq. by exists "", s.
Qed.

(** Two ways of cutting one string, the first cut the earlier one. *)
Lemma two_cuts (a r1 b r2 : string) (c1 c2 : ascii) :
  a +:+ String c1 r1 = b +:+ String c2 r2 →
  (String.length a < String.length b)%nat →
  ∃ mid, b = a +:+ String c1 mid ∧ r1 = mid +:+ String c2 r2.
Proof.
  revert b. induction a as [|x a IH]; intros b Heq Hlen.
  - destruct b as [|y b]; [cbn in Hlen; lia |].
    rewrite append_nil_l, append_cons in Heq. injection Heq as -> ->.
    by exists b.
  - destruct b as [|y b]; [cbn in Hlen; lia |].
    rewrite !append_cons in Heq. injection Heq as -> Heq.
    destruct (IH b Heq) as (mid & -> & ->); [cbn in Hlen; lia |].
    by exists mid.
Qed.

Lemma first_cut_le (c : ascii) (pre rest a r : string) :
  pre +:+ String c rest = a +:+ String c r → has_char c pre = false →
  (String.length pre ≤ String.length a)%nat.
Proof.
  intros Heq Hpre.
  destruct (Nat.le_gt_cases (String.length pre) (String.length a)) as [|Hlt];
    [done |].
  destruct (two_cuts _ _ _ _ _ _ (eq_sym Heq) Hlt) as (mid & -> & _).
  rewrite has_char_app in Hpre. cbn [has_char] in Hpre.
  rewrite Ascii.eqb_refl in Hpre. by destruct (has_char c a).
Qed.

Lemma last_cut_ge (c : ascii) (x post y b : string) :
  x +:+ String c post = y +:+ String c b → has_char c post = false →
  (String.length y ≤ String.length x)%nat.
Proof.
  intros Heq Hpost.
  destruct (Nat.le_gt_cases (String.length y) (String.length x)) as [|Hlt];
    [done |].
  destruct (two_cuts _ _ _ _ _ _ Heq Hlt) as (mid & _ & ->).
  rewrite has_char_app in Hpost. cbn [has_char] in Hpost.
  rewrite Ascii.eqb_refl in Hpost. by destruct (has_char c mid).
Qed.

(** The block of a reply whose first opening brace comes after [pre] and
    whose last closing brace comes before [post]. *)
Lemma json_block_of_cut (pre mid post : string) :
  has_char "{"%char pre = false → has_char "}"%char post = false →
  json_block_of (pre +:+ String "{"%char (mid +:+ String "}"%char post))
  = Ok (String "{"%char (mid +:+ String "}"%char "")).
Proof.
  intros Hpre Hpost.
  assert (rfind_char "}"%char
            (pre +:+ String "{"%char (mid +:+ String "}"%char post))
          = Z.of_nat (String.length pre + S (String.length mid))) as Hlast.
  { replace (pre +:+ String "{"%char (mid +:+ String "}"%char post))
      with ((pre +:+ String "{"%char mid) +:+ String "}"%char post)
      by (by rewrite append_assoc, append_cons).
    by rewrite (rfind_char_app _ _ _ Hpost), length_append. }
  unfold json_block_of. rewrite Hlast, (find_char_app _ _ _ Hpre).
  destruct (Z.eqb_spec (Z.of_nat (String.length pre)) (-1)); [lia |].
  destruct (Z.eqb_spec
              (Z.of_nat (String.length pre + S (String.length mid))) (-1));
    [lia |].
  destruct (Z.leb_spec
              (Z.of_nat (String.length pre + S (String.length mid)))
              (Z.of_nat (String.length pre))); [lia |].
  cbn [orb]. f_equal. unfold py_slice.
  rewrite Nat2Z.id, str_drop_app.
  replace (Z.to_nat (Z.of_nat (String.length pre + S (String.length mid)) + 1
                     - Z.of_nat (String.length pre)))
    with (String.length (String "{"%char (mid +:+ String "}"%char "")))
    by (cbn [String.length]; rewrite length_append; cbn [String.length]; lia).
  replace (String "{"%char (mid +:+ String "}"%char post))
    with (String "{"%char (mid +:+ String "}"%char "") +:+ post)
    by (by rewrite append_cons, append_assoc, append_cons, append_nil_l).
  apply str_take_app.
Qed.

(** X3: The block taken from a reply runs from its first opening brace to its
    last closing brace; the reply is refused exactly when it holds no
    opening brace followed, anywhere later, by a closing one. *)
Theorem json_block_of_spec (content : string) :
  match json_block_of content with
  | Ok block =>
      ∃ pre mid post,
        content = pre +:+ String "{"%char (mid +:+ String "}"%char post)
        ∧ block = String "{"%char (mid +:+ String "}"%char "")
        ∧ has_char "{"%char pre = false ∧ has_char "}"%char post = false
  | Err e =>
      e = RuntimeError (no_braces_message content)
      ∧ ∀ a m b, content ≠ a +:+ String "{"%char (m +:+ String "}"%char b)
  end.
Proof.
  destruct (has_char "{"%char content) eqn:Hopen.
  2:{ unfold json_block_of. rewrite (find_char_none _ _ Hopen). cbn [Z.eqb orb].
      split; [done |]. intros a m b ->.
      rewrite has_char_app in Hopen. cbn [has_char] in Hopen.
      rewrite Ascii.eqb_refl in Hopen. by destruct (has_char "{"%char a). }
  destruct (has_char "}"%char content) eqn:Hclose.
  2:{ unfold json_block_of. rewrite (rfind_char_none _ _ Hclose).
      cbn [Z.eqb orb]. rewrite orb_true_r. cbn [orb].
      split; [done |]. intros a m b ->.
      rewrite has_char_app in Hclose. cbn [has_char] in Hclose.
      rewrite has_char_app in Hclose. cbn [has_char] in Hclose.
      rewrite Ascii.eqb_refl in Hclose.
      by destruct (has_char "}"%char a), (has_char "}"%char m),
           (Ascii.eqb "{" "}"). }
  destruct (find_char_split _ _ Hopen) as (pre & rest & E1 & Hpre).
  destruct (rfind_char_split _ _ Hclose) as (x & post & E2 & Hpost).
  destruct (Nat.lt_ge_cases (String.length pre) (String.length x)) as [Hlt|Hge].
  - assert (pre +:+ String "{"%char rest = x +:+ String "}"%char post) as Heq
      by congruence.
    destruct (two_cuts _ _ _ _ _ _ Heq Hlt) as (mid & -> & ->).
    rewrite E1, (json_block_of_cut _ _ _ Hpre Hpost).
    by exists pre, mid, post.
  - assert (find_char "{"%char content = Z.of_nat (String.length pre)) as Hf
      by (rewrite E1; by apply find_char_app).
    assert (rfind_char "}"%char content = Z.of_nat (String.length x)) as Hl
      by (rewrite E2; by apply rfind_char_app).
    unfold json_block_of. rewrite Hf, Hl.
    destruct (Z.leb_spec (Z.of_nat (String.length x))
                (Z.of_nat (String.length pre))); [| lia].
    rewrite orb_true_r. split; [done |]. intros a m b E3.
    assert (String.length pre ≤ String.length a)%nat as H1.
    { apply (first_cut_le "{"%char pre rest a (m +:+ String "}"%char b));
        [congruence | done]. }
    assert (String.length (a +:+ String "{"%char m) ≤ String.length x)%nat as H2.
    { apply (last_cut_ge "}"%char x post (a +:+ String "{"%char m) b); [| done].
      rewrite <- E2, E3. by rewrite append_assoc, append_cons. }
    rewrite length_append in H2. cbn [String.length] in H2. lia.
Qed.

(** X4: A reply that is not JSON as a whole but wraps one block in prose free
    of braces is parsed as that block. *)
Theorem parse_content_embedded (json_loads : string → option json)
    (pre mid post : string) :
  has_char "{"%char pre = false → has_char "}"%char post = false →
  json_loads (pre +:+ String "{"%char (mid +:+ String "}"%char post)) = None →
  parse_content json_loads
    (pre +:+ String "{"%char (mid +:+ String "}"%char post))
  = match json_loads (String "{"%char (mid +:+ String "}"%char "")) with
    | Some parsed => Ok parsed
    | None =>
        Err (RuntimeError
               (bad_json_message
                  (pre +:+ String "{"%char (mid +:+ String "}"%char post))))
    end.
Proof.
  intros Hpre Hpost Hraw. unfold parse_content.
  by rewrite Hraw, (json_block_of_cut _ _ _ Hpre Hpost).
Qed.

Lemma parse_content_embedded_witness :
  parse_content sample_loads chatty_content = Ok sample_parsed.
Proof.
  exact (parse_content_embedded sample_loads
           "Sure! Here is the storyboard: "
           (DQ +:+ "scenes" +:+ DQ +:+ ": [" +:+ DQ +:+ "A" +:+ DQ +:+ ", {"
            +:+ DQ +:+ "title" +:+ DQ +:+ ": " +:+ DQ +:+ " T " +:+ DQ +:+ ", "
            +:+ DQ +:+ "description" +:+ DQ +:+ ": " +:+ DQ +:+ "D" +:+ DQ
            +:+ "}]")
           " Enjoy." eq_refl eq_refl eq_refl).
Defined.

(** ** Deriving the prompts *)

Lemma append_nonempty_l (a b : string) : a ≠ "" → a +:+ b ≠ "".
Proof. by destruct a. Qed.

Lemma compose_prompt_nonempty (i : Z) (title desc : string) :
  compose_prompt i title desc ≠ "".
Proof.
  unfold compose_prompt.
  destruct (String.eqb_spec title "") as [->|Ht],
           (String.eqb_spec desc "") as [->|Hd]; cbn [negb andb]; try done.
  by apply append_nonempty_l.
Qed.

Lemma derive_prompt_nonempty (isspace : ascii → bool) (py_str : json → string)
    (i : Z) (scene : json) (p : string) :
  derive_prompt isspace py_str i scene = Ok p → p ≠ "".
Proof.
  unfold derive_prompt. intros H.
  repeat case_match; simplify_eq; apply compose_prompt_nonempty.
Qed.

Lemma derive_prompts_nonempty (isspace : ascii → bool) (py_str : json → string)
    (scenes_raw : list json) :
  ∀ (i : Z) (scene_prompts : list string),
    derive_prompts isspace py_str i scenes_raw = Ok scene_prompts →
    length scene_prompts = length scenes_raw
    ∧ Forall (λ p, p ≠ "") scene_prompts.
Proof.
  induction scenes_raw as [|scene rest IH]; intros i scene_prompts.
  { intros [= <-]. split; [done | constructor]. }
  cbn [derive_prompts].
  destruct (derive_prompt isspace py_str i scene) as [full|] eqn:Hfull; [| done].
  destruct (derive_prompts isspace py_str (i + 1) rest) as [fulls|] eqn:Hrest;
    [| done].
  intros [= <-]. destruct (IH _ _ Hrest) as [Hlen Hne].
  split; [cbn; by rewrite Hlen |].
  constructor; [by eapply derive_prompt_nonempty | done].
Qed.

(** X5: The derived prompts: one for each scene of the reply, in order, none
    of them empty; the prompt at position [k] is derived from the scene at
    position [k] under the number [i + k]. *)
Theorem derive_prompts_spec (isspace : ascii → bool) (py_str : json → string)
    (i : Z) (scenes_raw : list json) (scene_prompts : list string) :
  derive_prompts isspace py_str i scenes_raw = Ok scene_prompts →
  length scene_prompts = length scenes_raw
  ∧ Forall (λ p, p ≠ "") scene_prompts
  ∧ ∀ (k : nat) scene,
      scenes_raw !! k = Some scene →
      ∃ p, scene_prompts !! k = Some p
           ∧ derive_prompt isspace py_str (i + Z.of_nat k) scene = Ok p.
Proof.
  revert i scene_prompts.
  induction scenes_raw as [|scene rest IH]; intros i scene_prompts.
  { intros [= <-]. repeat split; [constructor | done]. }
  cbn [derive_prompts].
  destruct (derive_prompt isspace py_str i scene) as [full|] eqn:Hfull; [| done].
  destruct (derive_prompts isspace py_str (i + 1) rest) as [fulls|] eqn:Hrest;
    [| done].
  intros [= <-]. destruct (IH _ _ Hrest) as (Hlen & Hne & Hk).
  split; [cbn; by rewrite Hlen |]. split.
  - constructor; [by eapply derive_prompt_nonempty | done].
  - intros [|k] sc Hsc.
    + injection Hsc as <-. exists full. by rewrite Z.add_0_r.
    + destruct (Hk k sc Hsc) as (p & Hp & Hd). exists p. split; [done |].
      by replace (i + Z.of_nat (S k)) with (i + 1 + Z.of_nat k) by lia.
Qed.

Example derive_prompts_sample :
  derive_prompts ascii_isspace sample_str 1
    [JStr "A"; JDict [("title", JStr " T "); ("description", JStr "D")];
     JDict [("title", JNull)]; JInt 7]
  = Ok ["A"; "T: D"; "Scene 3"; "7"].
Proof. vm_compute. reflexivity. Qed.

Lemma derive_prompts_spec_witness :
  Forall (λ p, p ≠ "") ["A"; "T: D"; "Scene 3"; "7"].
Proof.
  apply (derive_prompts_spec ascii_isspace sample_str 1
           [JStr "A"; JDict [("title", JStr " T "); ("description", JStr "D")];
            JDict [("title", JNull)]; JInt 7]
           ["A"; "T: D"; "Scene 3"; "7"]).
  vm_compute. reflexivity.
Defined.

(** A title or description that is there but is no string stops the
    derivation. *)
Example derive_prompt_bad_title :
  derive_prompt ascii_isspace sample_str 1 (JDict [("title", JInt 5)])
  = Err AttributeError.
Proof. reflexivity. Qed.

(** ** [call_lmstudio] as a whole *)

Lemma last_elem_of (l : list string) (x : string) : last l = Some x → x ∈ l.
Proof.
  induction l as [|y l IH]; [done |].
  destruct l as [|z l].
  - intros [= ->]. apply list_elem_of_here.
  - intros H. apply list_elem_of_further. by apply IH.
Qed.

Lemma normalize_keeps_nonempty (scene_prompts out : list string) (num_scenes : Z) :
  call_lmstudio_normalize scene_prompts num_scenes = Ok out →
  Forall (λ p, p ≠ "") scene_prompts → Forall (λ p, p ≠ "") out.
Proof.
  unfold call_lmstudio_normalize, py_last, py_repeat, py_slice_to.
  intros H Hall. repeat case_match; simplify_eq; try done.
  - apply Forall_app. split; [done |]. apply Forall_replicate.
    rewrite Forall_forall in Hall. apply Hall. by apply last_elem_of.
  - by apply Forall_take.
  - by apply Forall_take.
Qed.

Lemma prompts_of_content_spec (json_loads : string → option json)
    (py_str : json → string) (isspace : ascii → bool)
    (content : string) (num_scenes : Z) (prompts : list string) :
  prompts_of_content json_loads py_str isspace content num_scenes = Ok prompts →
  Forall (λ p, p ≠ "") prompts
  ∧ (0 ≤ num_scenes → Z.of_nat (length prompts) = num_scenes).
Proof.
  unfold prompts_of_content.
  destruct (parse_content json_loads content) as [parsed|]; [| done].
  destruct (scenes_raw_of py_str parsed) as [scenes_raw|] eqn:Hraw; [| done].
  destruct (derive_prompts isspace py_str 1 scenes_raw) as [derived|] eqn:Hd;
    [| done].
  intros Hnorm.
  destruct (derive_prompts_nonempty _ _ _ _ _ Hd) as (Hlen & Hne).
  split; [by eapply normalize_keeps_nonempty |].
  intros Hnum.
  assert (derived ≠ []) as Hderived.
  { intros ->. unfold scenes_raw_of in Hraw.
    repeat case_match; simplify_eq; done. }
  destruct (call_lmstudio_normalize_spec derived num_scenes Hderived Hnum)
    as (out & Hout & Hnormal & _).
  congruence.
Qed.

(** X6: [call_lmstudio] sends exactly one request and does nothing else to
    the world; the prompts it returns are never empty and, for a target
    count of zero or more, exactly that many, and it returns only when the
    server answered with a success status; an error status is raised as
    [HTTPError] without looking at the body. *)
Theorem call_lmstudio_spec (json_loads : string → option json)
    (py_str : json → string) (isspace : ascii → bool)
    (story_prompt : string) (num_scenes : Z) (st : State) :
  snd (call_lmstudio json_loads py_str isspace story_prompt num_scenes st)
  = {| oracle := oracle st; now := now st; known_files := known_files st;
       trace := trace st
                ++ [EvPost LMSTUDIO_URL
                      (lmstudio_payload story_prompt num_scenes)] |}
  ∧ (∀ prompts,
       fst (call_lmstudio json_loads py_str isspace story_prompt num_scenes st)
       = Done prompts →
       Forall (λ p, p ≠ "") prompts
       ∧ (0 ≤ num_scenes → Z.of_nat (length prompts) = num_scenes)
       ∧ ∃ resp,
           http_post (oracle st) (now st) LMSTUDIO_URL
             (lmstudio_payload story_prompt num_scenes) = Ok resp
           ∧ resp_ok resp = true)
  ∧ (∀ resp,
       http_post (oracle st) (now st) LMSTUDIO_URL
         (lmstudio_payload story_prompt num_scenes) = Ok resp →
       resp_ok resp = false →
       fst (call_lmstudio json_loads py_str isspace story_prompt num_scenes st)
       = Failed (Exn (HTTPError (status_code resp)))).
Proof.
  unfold call_lmstudio. cbn [log snd].
  destruct (http_post (oracle st) (now st) LMSTUDIO_URL
              (lmstudio_payload story_prompt num_scenes)) as [resp|e] eqn:Hpost.
  2:{ repeat split; done. }
  destruct (resp_ok resp) eqn:Hok.
  2:{ split; [done |]. split; [done |]. by intros resp' [= <-] _. }
  destruct (body resp) as [data|] eqn:Hbody.
  2:{ split; [done |]. split; [done |]. intros resp' [= <-]. congruence. }
  split; [done |]. split.
  - cbn [fst]. intros prompts Hdone.
    destruct (reply_content data) as [content|]; [| done].
    cbn [result_bind] in Hdone.
    destruct (prompts_of_content json_loads py_str isspace content num_scenes)
      as [out|] eqn:Hout; [| done].
    injection Hdone as ->.
    destruct (prompts_of_content_spec _ _ _ _ _ _ Hout) as [Hne Hlen].
    split; [done |]. split; [done |]. by exists resp.
  - intros resp' [= <-]. congruence.
Qed.

Lemma call_lmstudio_spec_witness :
  fst (call_lmstudio sample_loads sample_str ascii_isspace
         "a robot learns to paint" 3 (initial_state lmstudio_oracle ∅))
  = Done ["A"; "T: D"; "T: D"]
  ∧ Forall (λ p, p ≠ "") ["A"; "T: D"; "T: D"].
Proof.
  assert (fst (call_lmstudio sample_loads sample_str ascii_isspace
                 "a robot learns to paint" 3 (initial_state lmstudio_oracle ∅))
          = Done ["A"; "T: D"; "T: D"]) as Hrun by (vm_compute; reflexivity).
  split; [exact Hrun |].
  destruct (call_lmstudio_spec sample_loads sample_str ascii_isspace
              "a robot learns to paint" 3 (initial_state lmstudio_oracle ∅))
    as (_ & Hdone & _).
  by destruct (Hdone _ Hrun).
Defined.

(** ** Reading traces *)

Lemma slept_app (a b : list event) : slept (a ++ b) = slept a + slept b.
Proof.
  induction a as [|ev a IH]; [done |].
  destruct ev; cbn [app slept]; lia.
Qed.

Lemma posts_app (a b : list event) : posts (a ++ b) = posts a ++ posts b.
Proof.
  induction a as [|ev a IH]; [done |].
  destruct ev; cbn [app posts]; by rewrite ?IH.
Qed.

Lemma copies_app (a b : list event) : copies (a ++ b) = copies a ++ copies b.
Proof.
  induction a as [|ev a IH]; [done |].
  destruct ev as [| | |[]| |]; cbn [app copies]; by rewrite ?IH.
Qed.

Lemma copy_calls_app (a b : list event) :
  copy_calls (a ++ b) = copy_calls a ++ copy_calls b.
Proof.
  induction a as [|ev a IH]; [done |].
  destruct ev as [| | |[]| |]; cbn [app copy_calls]; by rewrite ?IH.
Qed.

Lemma runs_app (a b : list event) : runs (a ++ b) = runs a ++ runs b.
Proof.
  induction a as [|ev a IH]; [done |].
  destruct ev; cbn [app runs]; by rewrite ?IH.
Qed.

Lemma writes_app (a b : list event) : writes (a ++ b) = writes a ++ writes b.
Proof.
  induction a as [|ev a IH]; [done |].
  destruct ev as [| | |[]| |]; cbn [app writes]; by rewrite ?IH.
Qed.

Lemma extends_refl (st : State) : extends st st [].
Proof. split; [done | by rewrite app_nil_r]. Qed.

Lemma extends_trans (st st1 st2 : State) (e1 e2 : list event) :
  extends st st1 e1 → extends st1 st2 e2 → extends st st2 (e1 ++ e2).
Proof.
  intros [Ho1 Ht1] [Ho2 Ht2]. split; [congruence |].
  by rewrite Ht2, Ht1, app_assoc.
Qed.

Lemma extends_advance (secs : Z) (evs : list event) (st : State) :
  extends st (advance secs evs st) evs.
Proof. done. Qed.

Lemma watched_refl (p : string) (st : State) : watched p st st [].
Proof.
  split; [apply extends_refl |]. split; [done |].
  split; [cbn; lia | constructor].
Qed.

Lemma watched_trans (p : string) (st st1 st2 : State) (e1 e2 : list event) :
  watched p st st1 e1 → watched p st1 st2 e2 → watched p st st2 (e1 ++ e2).
Proof.
  intros (Hx1 & Hk1 & Hn1 & Hw1) (Hx2 & Hk2 & Hn2 & Hw2).
  split; [by eapply extends_trans |]. split; [congruence |].
  split; [rewrite slept_app; lia | by apply Forall_app].
Qed.

Lemma watched_round (p : string) (r : option N) (st : State) :
  watched p st (advance 1 [EvGetsize p r; EvSleep 1] st)
    [EvGetsize p r; EvSleep 1].
Proof.
  split; [done |]. split; [done |]. split; [done |].
  constructor; [right; by exists r |]. constructor; [by left | constructor].
Qed.

Lemma watched_sleep (p : string) (st : State) :
  watched p st (advance 1 [EvSleep 1] st) [EvSleep 1].
Proof.
  split; [done |]. split; [done |]. split; [done |].
  constructor; [by left | constructor].
Qed.

(** ** More on the completion detector *)

Lemma stabilize_watched (fuel : nat) (p : string) (last c : Z) (st : State) :
  ∃ evs, watched p st (snd (stabilize fuel p last c st)) evs.
Proof.
  revert last c st. induction fuel as [|fuel IH]; intros last c st.
  { exists []. apply watched_refl. }
  destruct (Z.ltb_spec c 3) as [Hc|Hc].
  2:{ rewrite stabilize_done by done. exists []. apply watched_refl. }
  destruct (size_at (oracle st) p (now st)) as [x|] eqn:Hx.
  - rewrite (stabilize_step_some _ _ _ _ x) by done.
    destruct (IH (if Z.of_N x =? last then last else Z.of_N x)
                 (if Z.of_N x =? last then c + 1 else 0)
                 (advance 1 (sample_round p x) st)) as [evs Hevs].
    eexists. eapply watched_trans; [apply watched_round | exact Hevs].
  - rewrite stabilize_step_none by done.
    destruct (IH (-1) 0 (advance 1 [EvGetsize p None; EvSleep 1] st))
      as [evs Hevs].
    eexists. eapply watched_trans; [apply watched_round | exact Hevs].
Qed.

Lemma size_samples_round (tr : list event) (p : string) (r : option N) :
  size_samples (tr ++ [EvGetsize p r; EvSleep 1]) = size_samples tr ++ [r].
Proof. by rewrite size_samples_app. Qed.

(** When the stabilising loop returns, the last four samples taken since
    [base] were the same size, the one returned. The invariant: the
    counter plus one trailing samples equal [last_size]. *)
Lemma stabilize_returns_stable (p : string) (base : list event) :
  ∀ (fuel : nat) (last c : Z) (st st' : State) (sofar : list event) (v : Z),
    stabilize fuel p last c st = (Return v, st') →
    trace st = base ++ sofar → 0 ≤ c ≤ 3 →
    (last = -1 ∧ c = 0)
    ∨ (∃ x pre, last = Z.of_N x
                ∧ size_samples sofar
                  = pre ++ replicate (Z.to_nat (c + 1)) (Some x)) →
    ∃ evs x pre,
      trace st' = base ++ evs ∧ v = Z.of_N x
      ∧ size_samples evs = pre ++ replicate 4 (Some x).
Proof.
  induction fuel as [|fuel IH]; intros last c st st' sofar v Hret Htr Hc Hinv;
    [done |].
  destruct (Z.ltb_spec c 3) as [Hlt|Hge].
  2:{ rewrite stabilize_done in Hret by done. injection Hret as <- <-.
      destruct Hinv as [[_ ->]|(x & pre & -> & Hs)]; [lia |].
      replace c with 3 in Hs by lia. by exists sofar, x, pre. }
  destruct (size_at (oracle st) p (now st)) as [y|] eqn:Hy.
  2:{ rewrite stabilize_step_none in Hret by done.
      apply (IH _ _ _ _ (sofar ++ [EvGetsize p None; EvSleep 1]) _ Hret);
        [cbn [advance trace]; by rewrite Htr, app_assoc | lia | by left]. }
  rewrite (stabilize_step_some _ _ _ _ y) in Hret by done.
  apply (IH _ _ _ _ (sofar ++ sample_round p y) _ Hret);
    [cbn [advance trace]; by rewrite Htr, app_assoc | |].
  - destruct (Z.of_N y =? last); lia.
  - right. unfold sample_round. rewrite size_samples_round.
    destruct (Z.eqb_spec (Z.of_N y) last) as [Heq|Hneq].
    + destruct Hinv as [[-> _]|(x & pre & -> & Hs)]; [lia |].
      apply N2Z.inj in Heq as ->. exists x, pre. split; [done |].
      rewrite Hs, <- app_assoc. f_equal.
      replace (Z.to_nat (c + 1 + 1)) with (S (Z.to_nat (c + 1))) by lia.
      by rewrite replicate_S_end.
    + exists y, (size_samples sofar). by split.
Qed.

(** The same in terms of the file itself: at the four instants before the
    loop returned, one second apart, it had the size returned. *)
Lemma stabilize_returns_settled (p : string) :
  ∀ (fuel : nat) (last c : Z) (st st' : State) (v : Z),
    stabilize fuel p last c st = (Return v, st') → 0 ≤ c ≤ 3 →
    (last = -1 ∧ c = 0)
    ∨ (∃ x, last = Z.of_N x
            ∧ ∀ k, 1 ≤ k ≤ c + 1 →
                   size_at (oracle st) p (now st - k) = Some x) →
    ∃ x, v = Z.of_N x
         ∧ ∀ k, 1 ≤ k ≤ 4 → size_at (oracle st) p (now st' - k) = Some x.
Proof.
  induction fuel as [|fuel IH]; intros last c st st' v Hret Hc Hinv; [done |].
  destruct (Z.ltb_spec c 3) as [Hlt|Hge].
  2:{ rewrite stabilize_done in Hret by done. injection Hret as <- <-.
      destruct Hinv as [[_ ->]|(x & -> & Hs)]; [lia |].
      exists x. split; [done |]. intros k Hk. apply Hs. lia. }
  destruct (size_at (oracle st) p (now st)) as [y|] eqn:Hy.
  2:{ rewrite stabilize_step_none in Hret by done.
      apply (IH _ _ _ _ _ Hret); [lia | by left]. }
  rewrite (stabilize_step_some _ _ _ _ y) in Hret by done.
  apply (IH _ _ _ _ _ Hret); [destruct (Z.of_N y =? last); lia |].
  right. cbn [advance oracle now].
  destruct (Z.eqb_spec (Z.of_N y) last) as [Heq|Hneq].
  - destruct Hinv as [[-> _]|(x & -> & Hs)]; [lia |].
    apply N2Z.inj in Heq as ->. exists x. split; [done |].
    intros k Hk. destruct (Z.eq_dec k 1) as [->|].
    + by replace (now st + 1 - 1) with (now st) by lia.
    + replace (now st + 1 - k) with (now st - (k - 1)) by lia.
      apply Hs. lia.
  - exists y. split; [done |]. intros k Hk.
    by replace (now st + 1 - k) with (now st) by lia.
Qed.

Lemma bind_diverge {A B : Type} (m : M A) (k : A → M B) (st st' : State) :
  m st = (OutOfFuel, st') → bind m k st = (OutOfFuel, st').
Proof. intros H. unfold bind. by rewrite H. Qed.

Lemma snd_bind_ret {A B : Type} (m : M A) (b : B) (st : State) :
  snd (bind m (λ _, ret b) st) = snd (m st).
Proof. unfold bind, ret. by destruct (m st) as [[a|e|] st']. Qed.

Lemma fst_bind_ret {A B : Type} (m : M A) (b b' : B) (st : State) :
  fst (bind m (λ _, ret b) st) = Return b' →
  b' = b ∧ ∃ a, fst (m st) = Return a.
Proof.
  unfold bind, ret. destruct (m st) as [[a|e|] st']; cbn; try done.
  intros [= ->]. split; [done |]. by exists a.
Qed.

(** All the polling loop does is watch one path; when it returns, that
    path is the one returned and its size had settled. *)
Lemma poll_outcome (fuel : nat) (output_dir : string) (known : gset string)
    (timeout start : Z) (st : State) :
  ∃ evs p,
    watched p st (snd (poll fuel output_dir known timeout start st)) evs
    ∧ ∀ q,
        fst (poll fuel output_dir known timeout start st) = Return q →
        q = p
        ∧ ∃ x pre,
            size_samples evs = pre ++ replicate 4 (Some x)
            ∧ ∀ k, 1 ≤ k ≤ 4 →
                   size_at (oracle st) p
                     (now (snd (poll fuel output_dir known timeout start st)) - k)
                   = Some x.
Proof.
  revert st. induction fuel as [|fuel IH]; intros st.
  { exists [], "". split; [apply watched_refl | done]. }
  destruct (Z.ltb_spec (now st - start) timeout) as [Ht|Ht].
  2:{ rewrite poll_timed_out by done. exists [], "".
      split; [apply watched_refl | done]. }
  destruct (new_files_at (oracle st) output_dir known (now st)) as [nf|] eqn:Hnf.
  2:{ rewrite poll_no_listing by done. exists [], "".
      split; [apply watched_refl | done]. }
  destruct nf as [|p0 nf].
  { rewrite poll_idle_step by done.
    destruct (IH (advance 1 [EvSleep 1] st)) as (evs & p & Hw & Hret).
    exists ([EvSleep 1] ++ evs), p. split.
    - eapply watched_trans; [apply watched_sleep | exact Hw].
    - intros q Hq. destruct (Hret q Hq) as (-> & x & pre & Hs & Hsz).
      split; [done |]. exists x, pre. split; [exact Hs | exact Hsz]. }
  rewrite (poll_found _ _ _ _ _ _ (p0 :: nf)) by done.
  destruct (max_mtime_spec (p0 :: nf) st) as (Hst & _).
  destruct (max_mtime (p0 :: nf) st) as [[c|e|] st1] eqn:Hmax;
    cbn [snd] in Hst; subst st1.
  2:{ rewrite (bind_raise _ _ _ _ _ Hmax). exists [], "".
      split; [apply watched_refl | done]. }
  2:{ rewrite (bind_diverge _ _ _ _ Hmax). exists [], "".
      split; [apply watched_refl | done]. }
  rewrite (bind_return _ _ _ _ _ Hmax), snd_bind_ret.
  destruct (stabilize_watched fuel c (-1) 0 st) as [evs Hw].
  exists evs, c. split; [exact Hw |].
  intros q Hq. apply fst_bind_ret in Hq as (-> & v & Hv).
  split; [done |].
  pose proof (with_snd _ _ Hv) as Hrun.
  destruct (stabilize_returns_stable c (trace st) _ _ _ _ _ [] _ Hrun)
    as (evs0 & x & pre & Htr & -> & Hs); [by rewrite app_nil_r | lia | by left |].
  destruct (stabilize_returns_settled c _ _ _ _ _ _ Hrun)
    as (x' & Hx' & Hsz); [lia | by left |].
  apply N2Z.inj in Hx' as <-.
  destruct Hw as ((_ & Htr') & _).
  rewrite Htr' in Htr. apply app_inv_head in Htr as ->.
  by exists x, pre.
Qed.

(** X7: The detector touches nothing: whatever the outcome, all it did was
    sleep one second at a time and sample the size of one path, the one
    it returns if it returns; the clock moved by the seconds slept and
    the known files are as they were. *)
Theorem wait_for_new_video_only_watches (fuel : nat) (output_dir : string)
    (known : gset string) (timeout : Z) (st : State) :
  ∃ evs p,
    watched p st (snd (wait_for_new_video fuel output_dir known timeout st)) evs
    ∧ ∀ q,
        fst (wait_for_new_video fuel output_dir known timeout st) = Return q →
        q = p.
Proof.
  rewrite wait_for_new_video_eq.
  destruct (poll_outcome fuel output_dir known timeout (now st) st)
    as (evs & p & Hw & Hret).
  exists evs, p. split; [exact Hw |]. intros q Hq. by destruct (Hret q Hq).
Qed.

(** X8: A file the detector returns had settled: the last four samples the
    call took were of one size, and the file had that size at the four
    instants, a second apart, before the call returned. *)
Theorem wait_for_new_video_returns_settled (fuel : nat) (output_dir : string)
    (known : gset string) (timeout : Z) (st st' : State) (p : string) :
  wait_for_new_video fuel output_dir known timeout st = (Return p, st') →
  ∃ evs x pre,
    extends st st' evs
    ∧ size_samples evs = pre ++ replicate 4 (Some x)
    ∧ ∀ k, 1 ≤ k ≤ 4 → size_at (oracle st) p (now st' - k) = Some x.
Proof.
  rewrite wait_for_new_video_eq. intros Hrun.
  destruct (poll_outcome fuel output_dir known timeout (now st) st)
    as (evs & q & Hw & Hret).
  rewrite Hrun in Hw, Hret. cbn [fst snd] in Hw, Hret.
  destruct (Hret p eq_refl) as (-> & x & pre & Hs & Hsz).
  exists evs, x, pre. split; [apply Hw | by split].
Qed.

Lemma wait_for_new_video_returns_settled_witness :
  ∃ evs x pre,
    extends (initial_state steady_oracle steady_known) (snd steady_run) evs
    ∧ size_samples evs = pre ++ replicate 4 (Some x)
    ∧ ∀ k, 1 ≤ k ≤ 4 →
           size_at steady_oracle "out/clip.MP4" (now (snd steady_run) - k)
           = Some x.
Proof.
  apply (wait_for_new_video_returns_settled 10 "out" steady_known 900
           (initial_state steady_oracle steady_known) (snd steady_run)
           "out/clip.MP4").
  apply with_snd. vm_compute. reflexivity.
Defined.

Lemma max_mtime_from_newest (rest : list string) :
  ∀ (best : string) (m : Z) (st : State) (c : string),
    fst (max_mtime_from best m rest st) = Return c →
    mtime_at (oracle st) best (now st) = Some m →
    ∃ mc, mtime_at (oracle st) c (now st) = Some mc ∧ m ≤ mc
          ∧ ∀ q, q ∈ rest →
                 ∃ mq, mtime_at (oracle st) q (now st) = Some mq ∧ mq ≤ mc.
Proof.
  induction rest as [|p rest IH]; intros best m st c Hret Hbest.
  { injection Hret as <-. exists m. split; [done |]. split; [lia |].
    intros q Hq. by apply not_elem_of_nil in Hq. }
  cbn [max_mtime_from] in Hret. unfold bind, os_getmtime in Hret.
  destruct (stat (oracle st) (now st) p) as [s|] eqn:Hs; [| done].
  destruct (Z.ltb_spec m (st_mtime s)) as [Hlt|Hge].
  - destruct (IH p (st_mtime s) st c Hret) as (mc & Hc & Hle & Hall).
    { unfold mtime_at. by rewrite Hs. }
    exists mc. split; [done |]. split; [lia |].
    intros q [->|Hq]%elem_of_cons; [| by apply Hall].
    exists (st_mtime s). unfold mtime_at. by rewrite Hs.
  - destruct (IH best m st c Hret Hbest) as (mc & Hc & Hle & Hall).
    exists mc. split; [done |]. split; [done |].
    intros q [->|Hq]%elem_of_cons; [| by apply Hall].
    exists (st_mtime s). unfold mtime_at. rewrite Hs. split; [done | cbn; lia].
Qed.

Lemma max_mtime_newest (nf : list string) (st : State) (c : string) :
  fst (max_mtime nf st) = Return c →
  ∃ mc, mtime_at (oracle st) c (now st) = Some mc
        ∧ ∀ q, q ∈ nf →
               ∃ mq, mtime_at (oracle st) q (now st) = Some mq ∧ mq ≤ mc.
Proof.
  destruct nf as [|p rest]; [done |].
  cbn [max_mtime]. unfold bind, os_getmtime.
  destruct (stat (oracle st) (now st) p) as [s|] eqn:Hs; [| done].
  intros Hret.
  destruct (max_mtime_from_newest rest p (st_mtime s) st c Hret)
    as (mc & Hc & Hle & Hall).
  { unfold mtime_at. by rewrite Hs. }
  exists mc. split; [done |].
  intros q [->|Hq]%elem_of_cons; [| by apply Hall].
  exists (st_mtime s). unfold mtime_at. by rewrite Hs.
Qed.

(** X9: The file the detector returns was, at the poll that found it, a new
    file modified no earlier than any other new file of that poll. *)
Theorem wait_for_new_video_returns_newest (fuel : nat) (output_dir : string)
    (known : gset string) (timeout : Z) (st st' : State) (p : string) :
  wait_for_new_video fuel output_dir known timeout st = (Return p, st') →
  ∃ t nf mp,
    new_files_at (oracle st) output_dir known t = Some nf ∧ p ∈ nf
    ∧ mtime_at (oracle st) p t = Some mp
    ∧ ∀ q, q ∈ nf → ∃ mq, mtime_at (oracle st) q t = Some mq ∧ mq ≤ mp.
Proof.
  rewrite wait_for_new_video_eq. generalize (now st) at 1 as start.
  intros start. revert st.
  induction fuel as [|fuel IH]; intros st Hret; [done |].
  destruct (Z.ltb_spec (now st - start) timeout) as [Ht|Ht].
  2:{ by rewrite poll_timed_out in Hret. }
  destruct (new_files_at (oracle st) output_dir known (now st)) as [nf|] eqn:Hnf.
  2:{ by rewrite poll_no_listing in Hret. }
  destruct nf as [|p0 nf].
  { rewrite poll_idle_step in Hret by done. by apply IH in Hret. }
  rewrite (poll_found _ _ _ _ _ _ (p0 :: nf)) in Hret by done.
  destruct (max_mtime_spec (p0 :: nf) st) as (Hst & _ & _ & Hin).
  destruct (max_mtime (p0 :: nf) st) as [[c|e|] st1] eqn:Hmax;
    cbn [snd] in Hst; subst st1.
  2:{ by rewrite (bind_raise _ _ _ _ _ Hmax) in Hret. }
  2:{ by rewrite (bind_diverge _ _ _ _ Hmax) in Hret. }
  rewrite (bind_return _ _ _ _ _ Hmax) in Hret.
  assert (fst (bind (stabilize fuel c (-1) 0) (λ _, ret c) st) = Return p)
    as Hp by (by rewrite Hret).
  apply fst_bind_ret in Hp as [-> _].
  destruct (max_mtime_newest (p0 :: nf) st c) as (mc & Hc & Hall);
    [by rewrite Hmax |].
  exists (now st), (p0 :: nf), mc. split; [done |].
  split; [by apply Hin | by split].
Qed.

Lemma wait_for_new_video_returns_newest_witness :
  ∃ t nf mp,
    new_files_at steady_oracle "out" steady_known t = Some nf
    ∧ "out/clip.MP4" ∈ nf
    ∧ mtime_at steady_oracle "out/clip.MP4" t = Some mp
    ∧ ∀ q, q ∈ nf → ∃ mq, mtime_at steady_oracle q t = Some mq ∧ mq ≤ mp.
Proof.
  apply (wait_for_new_video_returns_newest 10 "out" steady_known 900
           (initial_state steady_oracle steady_known) (snd steady_run)
           "out/clip.MP4").
  apply with_snd. vm_compute. reflexivity.
Defined.




(** X11: Two edges of the detector: with a timeout of zero or less it raises
    the timeout error at once, without looking at the folder; with a
    folder that cannot be listed it raises [FileNotFoundError] for the
    folder at the first poll. Neither leaves a trace. *)
Theorem wait_for_new_video_edges (fuel : nat) (output_dir : string)
    (known : gset string) (timeout : Z) (st : State) :
  (timeout ≤ 0 →
   wait_for_new_video (S fuel) output_dir known timeout st
   = (Raise (TimeoutError (timeout_message output_dir timeout)), st))
  ∧ (0 < timeout →
     listdir (oracle st) (now st) output_dir = None →
     wait_for_new_video (S fuel) output_dir known timeout st
     = (Raise (FileNotFoundError output_dir), st)).
Proof.
  rewrite wait_for_new_video_eq. split.
  - intros Ht. apply poll_timed_out. lia.
  - intros Ht Hls. apply poll_no_listing; [lia |].
    unfold new_files_at. by rewrite Hls.
Qed.

Lemma wait_for_new_video_edges_witness :
  wait_for_new_video 1 "out" ∅ 0 (initial_state growing_oracle ∅)
  = (Raise (TimeoutError "No new .mp4 detected in out within 0 seconds."),
     initial_state growing_oracle ∅)
  ∧ wait_for_new_video 1 "elsewhere" ∅ 900 (initial_state growing_oracle ∅)
    = (Raise (FileNotFoundError "elsewhere"), initial_state growing_oracle ∅).
Proof.
  split.
  - apply (wait_for_new_video_edges 0 "out" ∅ 0
             (initial_state growing_oracle ∅)). lia.
  - apply (wait_for_new_video_edges 0 "elsewhere" ∅ 900
             (initial_state growing_oracle ∅)); [lia | reflexivity].
Defined.

(** ** More on the scene dispatcher *)

Lemma copies_copy_calls (evs : list event) :
  copy_calls evs = [] → copies evs = [].
Proof.
  induction evs as [|ev evs IH]; [done |].
  destruct ev as [| | |[]| |]; cbn [copy_calls copies]; done.
Qed.

Lemma copy_calls_copies (evs : list event) :
  (length (copies evs) ≤ length (copy_calls evs))%nat.
Proof.
  induction evs as [|ev evs IH]; [done |].
  destruct ev as [| | |[]| |]; cbn [copy_calls copies length]; lia.
Qed.

Lemma watched_quiet (p : string) (st st' : State) (evs : list event) :
  watched p st st' evs →
  posts evs = [] ∧ copy_calls evs = [] ∧ runs evs = [] ∧ writes evs = []
  ∧ ∀ url payload output_dir dest,
      Forall (dispatch_event url payload output_dir dest) evs.
Proof.
  intros (_ & _ & _ & Hw). induction Hw as [|ev evs Hev _ IH].
  { repeat split; constructor. }
  destruct IH as (Hp & Hc & Hr & Hwr & Hall).
  destruct Hev as [->|[r ->]]; cbn [posts copy_calls runs writes];
    (repeat split; [done.. |]); intros; constructor; cbn; auto.
Qed.

Lemma claimed_refl (st : State) : claimed st st [].
Proof.
  split; [apply extends_refl |]. split; [done |].
  split; [constructor |]. intros p Hp. by apply not_elem_of_nil in Hp.
Qed.

Lemma claimed_trans (st st1 st2 : State) (e1 e2 : list event) :
  claimed st st1 e1 → claimed st1 st2 e2 → claimed st st2 (e1 ++ e2).
Proof.
  intros (Hx1 & Hk1 & Hn1 & Hc1) (Hx2 & Hk2 & Hn2 & Hc2).
  split; [by eapply extends_trans |]. split; [by etrans |].
  rewrite copy_calls_app, fmap_app. split.
  - apply NoDup_app. split; [done |]. split; [| done].
    intros p Hp1 Hp2. destruct (Hc1 p Hp1) as [_ Hin].
    destruct (Hc2 p Hp2) as [Hout _]. done.
  - intros p [Hp|Hp]%elem_of_app.
    + destruct (Hc1 p Hp) as [Hout Hin]. split; [done |].
      by apply (proj1 (elem_of_subseteq _ _) Hk2).
    + destruct (Hc2 p Hp) as [Hout Hin]. split; [| done].
      intros Hp0. apply Hout. by apply (proj1 (elem_of_subseteq _ _) Hk1).
Qed.

(** A stretch without copy calls in which the known files only grew. *)
Lemma claimed_quiet (st st' : State) (evs : list event) :
  extends st st' evs → known_files st ⊆ known_files st' →
  copy_calls evs = [] → claimed st st' evs.
Proof.
  intros Hx Hk Hc. split; [done |]. split; [done |]. rewrite Hc.
  split; [constructor |]. intros p Hp. by apply not_elem_of_nil in Hp.
Qed.

Lemma dispatch_trace_refl (url : string) (payload : json)
    (output_dir dest : string) (st : State) :
  dispatch_trace url payload output_dir dest st st [].
Proof. split; [apply claimed_refl |]. by repeat split. Qed.

Lemma dispatch_trace_trans (url : string) (payload : json)
    (output_dir dest : string) (st st1 st2 : State) (e1 e2 : list event) :
  dispatch_trace url payload output_dir dest st st1 e1 →
  dispatch_trace url payload output_dir dest st1 st2 e2 →
  dispatch_trace url payload output_dir dest st st2 (e1 ++ e2).
Proof.
  intros (Hc1 & Hd1 & Hr1 & Hw1) (Hc2 & Hd2 & Hr2 & Hw2).
  split; [by eapply claimed_trans |]. split; [by apply Forall_app |].
  by rewrite runs_app, writes_app, Hr1, Hr2, Hw1, Hw2.
Qed.

Lemma dispatch_trace_watched (url : string) (payload : json)
    (output_dir dest p : string) (st st' : State) (evs : list event) :
  watched p st st' evs → dispatch_trace url payload output_dir dest st st' evs.
Proof.
  intros Hw. destruct (watched_quiet _ _ _ _ Hw) as (_ & Hc & Hr & Hwr & Hd).
  destruct Hw as (Hx & Hk & _).
  split; [apply claimed_quiet; [done | by rewrite Hk | done] |].
  by repeat split.
Qed.

(** The end of an attempt, from a state in which the detected clip is not
    yet known: at most one call of [copy2], of that clip. *)
Lemma claim_and_copy_outcome (url : string) (payload : json)
    (p output_dir dest : string) (st : State) :
  p ∉ known_files st →
  ∃ evs,
    dispatch_trace url payload output_dir dest st
      (snd (claim_and_copy p output_dir dest st)) evs
    ∧ posts evs = [] ∧ (length (copy_calls evs) ≤ 1)%nat
    ∧ match fst (claim_and_copy p output_dir dest st) with
      | Return d =>
          d = dest
          ∧ evs = [EvDisk (OpMakedirs output_dir); EvDisk (OpCopy2 p dest)]
      | _ => copies evs = []
      end.
Proof.
  intros Hnew.
  unfold claim_and_copy, bind, known_files_add, do_disk, shutil_copy2, log, ret.
  cbn [oracle now trace known_files].
  destruct (disk (oracle st) (now st) (OpMakedirs output_dir)) as [e|].
  { exists []. cbn [fst snd].
    split; [| repeat split; cbn; (done || lia)].
    split; [| by repeat split].
    apply claimed_quiet;
      [split; [done | cbn; by rewrite app_nil_r]
      | cbn; apply union_subseteq_r | done]. }
  cbn [oracle now trace known_files].
  assert (∀ ev st',
            copy_calls [ev] = [(p, dest)] →
            dispatch_event url payload output_dir dest ev →
            runs [ev] = [] → writes [ev] = [] →
            oracle st' = oracle st →
            known_files st' = {[p]} ∪ known_files st →
            trace st'
            = (trace st ++ [EvDisk (OpMakedirs output_dir)]) ++ [ev] →
            dispatch_trace url payload output_dir dest st st'
              [EvDisk (OpMakedirs output_dir); ev]) as Hboth.
  { intros ev st' Hcalls Hev Hr Hw Ho Hk Htr.
    split; [| split; [by repeat constructor |]].
    - split; [split; [done | by rewrite Htr, <- app_assoc] |].
      split; [rewrite Hk; apply union_subseteq_r |].
      change (copy_calls [EvDisk (OpMakedirs output_dir); ev])
        with (copy_calls [ev]).
      rewrite Hcalls. cbn [fmap list_fmap fst].
      split; [apply NoDup_singleton |].
      intros q ->%list_elem_of_singleton. split; [done |].
      rewrite Hk. by apply elem_of_union_l, elem_of_singleton.
    - change (runs [EvDisk (OpMakedirs output_dir); ev]) with (runs [ev]).
      change (writes [EvDisk (OpMakedirs output_dir); ev]) with (writes [ev]).
      done. }
  destruct (disk (oracle st) (now st) (OpCopy2 p dest)) as [e|].
  - exists [EvDisk (OpMakedirs output_dir); EvCopyFailed p dest].
    cbn [fst snd]. split; [by apply Hboth |].
    repeat split; cbn; (done || lia).
  - exists [EvDisk (OpMakedirs output_dir); EvDisk (OpCopy2 p dest)].
    cbn [fst snd]. split; [by apply Hboth |].
    repeat split; cbn; (done || lia).
Qed.

Lemma wait_for_new_video_is_mp4 (fuel : nat) (output_dir : string)
    (known : gset string) (timeout : Z) (st st' : State) (p : string) :
  wait_for_new_video fuel output_dir known timeout st = (Return p, st') →
  is_mp4 p = true.
Proof.
  rewrite wait_for_new_video_eq. intros Hret.
  destruct (poll_returns_new_file _ _ _ _ _ _ _ _ Hret) as (t & nf & Hnf & Hin).
  destruct (new_files_at_elem _ _ _ _ _ _ Hnf Hin)
    as (_ & f & names & _ & _ & Hmp4 & ->).
  by apply is_mp4_path_join.
Qed.

(** One attempt, step by step. *)
Lemma scene_attempt_eq (fuel : nat) (scene_index : Z)
    (scene_prompt comfy_url : string) (base_workflow : json)
    (comfy_output_dir output_dir : string) (st : State) :
  scene_attempt fuel scene_index scene_prompt comfy_url base_workflow
    comfy_output_dir output_dir st
  = match http_post (oracle st) (now st) (comfy_url +:+ "/prompt")
            (JDict [("prompt", inject_scene_prompt base_workflow scene_prompt)])
    with
    | Err e =>
        (Raise e,
         advance 0 [] (snd (log (EvPost (comfy_url +:+ "/prompt")
                        (JDict [("prompt",
                                 inject_scene_prompt base_workflow scene_prompt)]))
                   st)))
    | Ok resp =>
        let st0 :=
          snd (log (EvPost (comfy_url +:+ "/prompt")
                      (JDict [("prompt",
                               inject_scene_prompt base_workflow scene_prompt)]))
                 st) in
        if resp_ok resp then
          match body resp with
          | None => (Raise JSONDecodeError, st0)
          | Some (JDict kvs) =>
              match wait_for_new_video fuel comfy_output_dir (known_files st)
                      900 st0 with
              | (Return p, st1) =>
                  claim_and_copy p output_dir
                    (clip_path_of output_dir scene_index) st1
              | (Raise e, st1) => (Raise e, st1)
              | (OutOfFuel, st1) => (OutOfFuel, st1)
              end
          | Some _ => (Raise AttributeError, st0)
          end
        else (Raise (HTTPError (status_code resp)), st0)
    end.
Proof.
  unfold scene_attempt. unfold bind at 1. rewrite requests_post_eq.
  destruct (http_post _ _ _ _) as [resp|e].
  2:{ cbn [lift_res raise]. by rewrite advance_zero. }
  cbn [lift_res ret]. cbv zeta.
  destruct (resp_ok resp) eqn:Hok.
  2:{ unfold bind at 1. unfold raise_for_status. by rewrite Hok. }
  unfold bind at 1. cbn [ret]. unfold bind at 1. unfold resp_json.
  destruct (body resp) as [data|]; [| done]. cbn [ret].
  by destruct data.
Qed.


(** What one attempt does, whatever its outcome. *)
Lemma scene_attempt_outcome (fuel : nat) (scene_index : Z)
    (scene_prompt comfy_url : string) (base_workflow : json)
    (comfy_output_dir output_dir : string) (st : State) :
  let url := comfy_url +:+ "/prompt" in
  let payload :=
    JDict [("prompt", inject_scene_prompt base_workflow scene_prompt)] in
  let dest := clip_path_of output_dir scene_index in
  ∃ evs,
    dispatch_trace url payload output_dir dest st
      (snd (scene_attempt fuel scene_index scene_prompt comfy_url
              base_workflow comfy_output_dir output_dir st)) evs
    ∧ posts evs = [(url, payload)]
    ∧ (length (copy_calls evs) ≤ 1)%nat
    ∧ ends_in_copy (known_files st) dest
        (fst (scene_attempt fuel scene_index scene_prompt comfy_url
                base_workflow comfy_output_dir output_dir st)) evs.
Proof.
  intros url payload dest. rewrite scene_attempt_eq. fold url payload dest.
  set (st0 := snd (log (EvPost url payload) st)).
  assert (dispatch_trace url payload output_dir dest st st0
            [EvPost url payload]) as Hst0.
  { split; [by apply claimed_quiet |]. by repeat constructor. }
  assert (∀ e : exn,
            ∃ evs,
              dispatch_trace url payload output_dir dest st
                (snd (@Raise string e, st0)) evs
              ∧ posts evs = [(url, payload)]
              ∧ (length (copy_calls evs) ≤ 1)%nat
              ∧ ends_in_copy (known_files st) dest
                  (fst (@Raise string e, st0)) evs) as Hearly.
  { intros e. exists [EvPost url payload].
    split; [done |]. split; [done |]. split; [cbn; lia | done]. }
  destruct (http_post (oracle st) (now st) url payload) as [resp|e].
  2:{ rewrite advance_zero. apply Hearly. }
  cbv zeta. fold st0.
  destruct (resp_ok resp); [| apply Hearly].
  destruct (body resp) as [data|]; [| apply Hearly].
  destruct data; try apply Hearly.
  assert (∃ evs1 q,
            watched q st0
              (snd (wait_for_new_video fuel comfy_output_dir (known_files st)
                      900 st0)) evs1)
    as (evs1 & q & Hw).
  { rewrite wait_for_new_video_eq.
    destruct (poll_outcome fuel comfy_output_dir (known_files st) 900
                (now st0) st0) as (evs1 & q & Hw & _).
    by exists evs1, q. }
  pose proof (dispatch_trace_watched url payload output_dir dest _ _ _ _ Hw)
    as Hd1.
  destruct (watched_quiet _ _ _ _ Hw) as (Hp1 & Hcc1 & _).
  pose proof (copies_copy_calls _ Hcc1) as Hcp1.
  destruct (wait_for_new_video fuel comfy_output_dir (known_files st) 900 st0)
    as [[p|e|] st1] eqn:Hwait; cbn [fst snd] in *.
  2,3: (exists ([EvPost url payload] ++ evs1);
        split; [by eapply dispatch_trace_trans |];
        cbn [ends_in_copy];
        rewrite posts_app, copy_calls_app, copies_app, Hp1, Hcc1, Hcp1;
        split; [done |]; split; [cbn; lia | done]).
  pose proof (wait_for_new_video_not_known _ _ _ _ _ _ _ Hwait) as Hnew.
  pose proof (wait_for_new_video_is_mp4 _ _ _ _ _ _ _ Hwait) as Hmp4.
  assert (p ∉ known_files st1) as Hnew1.
  { destruct Hw as (_ & -> & _). done. }
  destruct (claim_and_copy_outcome url payload p output_dir dest st1 Hnew1)
    as (evs2 & Hd2 & Hp2 & Hcc2 & Hres).
  exists ([EvPost url payload] ++ evs1 ++ evs2).
  split.
  { eapply dispatch_trace_trans; [exact Hst0 |].
    by eapply dispatch_trace_trans. }
  rewrite !posts_app, !copy_calls_app, Hp1, Hcc1, Hp2.
  split; [done |]. split; [cbn; lia |].
  destruct (fst (claim_and_copy p output_dir dest st1)) as [d| |];
    cbn [ends_in_copy] in *.
  - destruct Hres as [-> ->]. split; [done |].
    exists p, ([EvPost url payload] ++ evs1 ++ [EvDisk (OpMakedirs output_dir)]).
    split; [by rewrite <- !app_assoc |].
    rewrite !copies_app, Hcp1. by repeat split.
  - by rewrite !copies_app, Hcp1, Hres.
  - by rewrite !copies_app, Hcp1, Hres.
Qed.

(** What the retry loop does over any list of attempt numbers. *)
Lemma attempts_loop_outcome (fuel : nat) (scene_index : Z)
    (scene_prompt comfy_url : string) (base_workflow : json)
    (comfy_output_dir output_dir : string) (max_retries : Z) :
  let url := comfy_url +:+ "/prompt" in
  let payload :=
    JDict [("prompt", inject_scene_prompt base_workflow scene_prompt)] in
  let dest := clip_path_of output_dir scene_index in
  ∀ (attempts : list Z) (st : State),
    ∃ evs,
      dispatch_trace url payload output_dir dest st
        (snd (attempts_loop fuel attempts scene_index scene_prompt comfy_url
                base_workflow comfy_output_dir output_dir max_retries st)) evs
      ∧ Forall (λ up, up = (url, payload)) (posts evs)
      ∧ (length (posts evs) ≤ length attempts)%nat
      ∧ (length (copy_calls evs) ≤ length (posts evs))%nat
      ∧ ends_in_copy (known_files st) dest
          (fst (attempts_loop fuel attempts scene_index scene_prompt
                  comfy_url base_workflow comfy_output_dir output_dir
                  max_retries st)) evs.
Proof.
  intros url payload dest.
  induction attempts as [|attempt rest IH]; intros st.
  { exists []. cbn [attempts_loop raise fst snd].
    split; [apply dispatch_trace_refl |].
    split; [constructor |]. cbn. by repeat split. }
  rewrite attempts_loop_cons.
  destruct (scene_attempt_outcome fuel scene_index scene_prompt comfy_url
              base_workflow comfy_output_dir output_dir st)
    as (evs1 & Hd1 & Hp1 & Hcc1 & Hres1).
  fold url payload dest in Hd1, Hp1, Hres1.
  assert (Forall (λ up, up = (url, payload)) (posts evs1)) as Hall1
    by (rewrite Hp1; by repeat constructor).
  destruct (scene_attempt fuel scene_index scene_prompt comfy_url
              base_workflow comfy_output_dir output_dir st)
    as [[d|e|] st1] eqn:Hattempt; cbn [fst snd] in *.
  - exists evs1. rewrite Hp1 in *. cbn [length] in *.
    split; [done |]. split; [done |]. split; [lia |]. by split.
  - destruct (attempt =? max_retries).
    { exists evs1. rewrite Hp1 in *. cbn [length fst snd] in *.
      split; [done |]. split; [done |]. split; [lia |]. by split. }
    destruct (IH (advance 3 [EvSleep 3] st1))
      as (evs2 & Hd2 & Hall2 & Hp2 & Hcc2 & Hres2).
    assert (dispatch_trace url payload output_dir dest st1
              (advance 3 [EvSleep 3] st1) [EvSleep 3]) as Hsleep.
    { split; [by apply claimed_quiet |]. split; [| done].
      constructor; [by right | constructor]. }
    exists (evs1 ++ [EvSleep 3] ++ evs2).
    split.
    { eapply dispatch_trace_trans; [exact Hd1 |].
      by eapply dispatch_trace_trans. }
    rewrite !posts_app, !copy_calls_app.
    cbn [posts copy_calls app]. rewrite !length_app.
    split; [by apply Forall_app |].
    rewrite Hp1 in *. cbn [length] in *.
    split; [lia |]. split; [lia |].
    destruct (fst (attempts_loop fuel rest scene_index scene_prompt comfy_url
                     base_workflow comfy_output_dir output_dir max_retries
                     (advance 3 [EvSleep 3] st1))) as [d| |];
      cbn [ends_in_copy] in *.
    + destruct Hres2 as (-> & src & evs0 & -> & Hcp0 & Hsrc & Hmp4).
      split; [done |].
      exists src, (evs1 ++ [EvSleep 3] ++ evs0).
      split; [by rewrite <- !app_assoc |].
      rewrite !copies_app, Hres1, Hcp0. split; [done |]. split; [| done].
      intros Hin. apply Hsrc. cbn [advance known_files].
      destruct Hd1 as ((_ & Hsub & _) & _).
      by apply (proj1 (elem_of_subseteq _ _) Hsub).
    + rewrite copies_app, Hres1. cbn [copies app]. exact Hres2.
    + rewrite copies_app, Hres1. cbn [copies app]. exact Hres2.
  - exists evs1. rewrite Hp1 in *. cbn [length] in *.
    split; [done |]. split; [done |]. split; [lia |]. by split.
Qed.

Lemma copy_calls_dispatch (url : string) (payload : json)
    (output_dir dest : string) (evs : list event) :
  Forall (dispatch_event url payload output_dir dest) evs →
  Forall (λ c, c.2 = dest) (copy_calls evs).
Proof.
  induction 1 as [|ev evs Hev _ IH]; [constructor |].
  destruct ev as [| | |[]| |]; cbn [copy_calls]; try done;
    by constructor.
Qed.


(** X13: A dispatch that returns: the path is [output_dir/scene_NN.mp4];
    the copy to it is the last thing done and the only call of [copy2]
    that completed; the calls that raised before it, in earlier attempts,
    had the same destination and other sources; the source copied is an
    [.mp4] path that was not known before and is known now. *)
Theorem run_scene_through_comfy_success (fuel : nat) (scene_index : Z)
    (scene_prompt comfy_url : string) (base_workflow : json)
    (comfy_output_dir output_dir : string) (max_retries : Z)
    (st st' : State) (d : string) :
  run_scene_through_comfy fuel scene_index scene_prompt comfy_url
    base_workflow comfy_output_dir output_dir max_retries st
  = (Return d, st') →
  d = clip_path_of output_dir scene_index
  ∧ ∃ src evs0,
      trace st' = trace st ++ evs0 ++ [EvDisk (OpCopy2 src d)]
      ∧ copies evs0 = []
      ∧ Forall (λ c, c.1 ≠ src ∧ c.2 = d) (copy_calls evs0)
      ∧ (src ∉ known_files st) ∧ (src ∈ known_files st')
      ∧ is_mp4 src = true.
Proof.
  unfold run_scene_through_comfy. intros Hrun.
  destruct (attempts_loop_outcome fuel scene_index scene_prompt comfy_url
              base_workflow comfy_output_dir output_dir max_retries
              (seqZ 1 max_retries) st)
    as (evs & (Hc & Hd & _) & _ & _ & _ & Hres).
  rewrite Hrun in Hc, Hres. cbn [fst snd ends_in_copy] in Hc, Hres.
  destruct Hres as (-> & src & evs0 & -> & Hcp & Hsrc & Hmp4).
  split; [done |]. exists src, evs0.
  destruct Hc as ((_ & Htr) & _ & Hnd & Hin).
  rewrite copy_calls_app, fmap_app in Hnd, Hin.
  cbn [copy_calls fmap list_fmap fst] in Hnd, Hin.
  split; [done |]. split; [done |]. split.
  { apply Forall_app in Hd as [Hd0 _].
    apply copy_calls_dispatch in Hd0.
    apply Forall_forall. intros c Hc.
    rewrite Forall_forall in Hd0. split; [| by apply Hd0].
    intros Heq. apply NoDup_app in Hnd as (_ & Hdisj & _).
    apply (Hdisj src); [| apply list_elem_of_here].
    rewrite <- Heq. apply list_elem_of_fmap. by exists c. }
  split; [done |]. split; [| done].
  apply Hin, elem_of_app. right. apply list_elem_of_here.
Qed.

Lemma run_scene_through_comfy_success_witness :
  fst torn_run = Return "clips/scene_01.mp4"
  ∧ copy_calls (trace (snd torn_run))
    = [("out/a.mp4", "clips/scene_01.mp4");
       ("out/b.mp4", "clips/scene_01.mp4")]
  ∧ ∃ src evs0,
      trace (snd torn_run)
      = evs0 ++ [EvDisk (OpCopy2 src "clips/scene_01.mp4")]
      ∧ copies evs0 = []
      ∧ Forall (λ c, c.1 ≠ src ∧ c.2 = "clips/scene_01.mp4")
          (copy_calls evs0)
      ∧ is_mp4 src = true.
Proof.
  assert (run_scene_through_comfy 20 1 "a robot paints"
            "http://127.0.0.1:8188" sample_workflow "out" "clips" 4
            (initial_state torn_oracle {["out/old.mp4"]})
          = (Return "clips/scene_01.mp4", snd torn_run)) as Hrun
    by (apply with_snd; vm_compute; reflexivity).
  split; [vm_compute; reflexivity |].
  split; [vm_compute; reflexivity |].
  destruct (run_scene_through_comfy_success 20 1 "a robot paints"
              "http://127.0.0.1:8188" sample_workflow "out" "clips" 4
              (initial_state torn_oracle {["out/old.mp4"]}) (snd torn_run)
              "clips/scene_01.mp4" Hrun)
    as (_ & src & evs0 & Htr & Hcp & Hcalls & _ & _ & Hmp4).
  exists src, evs0. split; [exact Htr |]. by repeat split.
Defined.

(** X14: With [max_retries] zero or less nothing is attempted: the dispatch
    raises its own error and leaves no trace. *)
Theorem run_scene_through_comfy_no_attempt (fuel : nat) (scene_index : Z)
    (scene_prompt comfy_url : string) (base_workflow : json)
    (comfy_output_dir output_dir : string) (max_retries : Z) (st : State) :
  max_retries ≤ 0 →
  run_scene_through_comfy fuel scene_index scene_prompt comfy_url
    base_workflow comfy_output_dir output_dir max_retries st
  = (Raise (RuntimeError (exhausted_message scene_index max_retries)), st).
Proof.
  intros Hmax. unfold run_scene_through_comfy.
  assert (seqZ 1 max_retries = []) as ->; [| done].
  apply length_zero_iff_nil. rewrite length_seqZ. lia.
Qed.

Lemma run_scene_through_comfy_no_attempt_witness :
  run_scene_through_comfy 10 12 "a robot paints" "http://127.0.0.1:8188"
    (JStr "__SCENE_PROMPT__") "out" "clips" (-1) (initial_state down_oracle ∅)
  = (Raise (RuntimeError (exhausted_message 12 (-1))),
     initial_state down_oracle ∅).
Proof.
  apply (run_scene_through_comfy_no_attempt 10 12 "a robot paints"
           "http://127.0.0.1:8188" (JStr "__SCENE_PROMPT__") "out" "clips"
           (-1) (initial_state down_oracle ∅)).
  lia.
Defined.

Lemma scene_ordered_app (output_dir : string) (a b : list event) :
  ∀ idx,
    scene_ordered output_dir idx a →
    scene_ordered output_dir (idx + Z.of_nat (length (copies a))) b →
    scene_ordered output_dir idx (a ++ b).
Proof.
  induction a as [|ev a IH]; intros idx Ha Hb.
  { cbn [copies length] in Hb. by rewrite Z.add_0_r in Hb. }
  destruct ev as [| | |[]| |];
    cbn [app scene_ordered copies length] in *; try by apply IH.
  - destruct Ha as [-> Ha]. split; [done |]. apply IH; [done |].
    by replace (idx + 1 + Z.of_nat (length (copies a)))
      with (idx + Z.of_nat (S (length (copies a)))) by lia.
  - destruct Ha as [-> Ha]. split; [done |]. by apply IH.
Qed.

Lemma scene_ordered_quiet (url : string) (payload : json)
    (output_dir : string) (idx : Z) (evs : list event) :
  Forall (dispatch_event url payload output_dir (clip_path_of output_dir idx))
    evs →
  copies evs = [] → scene_ordered output_dir idx evs.
Proof.
  induction 1 as [|ev evs Hev _ IH]; [done |].
  destruct ev as [| | |[]| |]; cbn [copies scene_ordered]; try done.
  intros Hnone. split; [done | by apply IH].
Qed.

Lemma scene_ordered_no_calls (output_dir : string) (idx : Z)
    (evs : list event) :
  copy_calls evs = [] → scene_ordered output_dir idx evs.
Proof.
  induction evs as [|ev evs IH]; [done |].
  destruct ev as [| | |[]| |]; cbn [copy_calls scene_ordered]; done.
Qed.

Lemma scene_ordered_copies (output_dir : string) (evs : list event) :
  ∀ idx,
    scene_ordered output_dir idx evs →
    (copies evs).*2
    = map (clip_path_of output_dir)
        (seqZ idx (Z.of_nat (length (copies evs)))).
Proof.
  induction evs as [|ev evs IH]; intros idx Hall; [done |].
  destruct ev as [| | |[]| |]; cbn [scene_ordered copies] in *;
    try by apply IH.
  - destruct Hall as [-> Hall]. cbn [length fmap list_fmap snd].
    rewrite seqZ_cons by lia. cbn [map]. f_equal.
    rewrite (IH _ Hall). do 2 f_equal; lia.
  - destruct Hall as [_ Hall]. by apply IH.
Qed.

(** ** The render loop of [main] *)

Lemma py_index_elem (l : list string) (i : Z) (u : string) :
  py_index l i = Ok u → u ∈ l.
Proof.
  unfold py_index.
  destruct ((0 <=? _) && _); [| done].
  destruct (l !! _) as [x|] eqn:Hx; [| done].
  intros [= <-]. by eapply list_elem_of_lookup_2.
Qed.

Lemma select_endpoint_elem (idx : Z) (comfy_urls : list string) (u : string) :
  select_endpoint idx comfy_urls = Ok u → u ∈ comfy_urls.
Proof.
  unfold select_endpoint. destruct (_ =? 0); [done |]. apply py_index_elem.
Qed.

Lemma posts_dispatch (url : string) (payload : json)
    (output_dir dest_path : string) (evs : list event) :
  Forall (dispatch_event url payload output_dir dest_path) evs →
  Forall (λ up, up = (url, payload)) (posts evs).
Proof.
  induction 1 as [|ev evs Hev _ IH]; [constructor |].
  destruct ev as [secs|p r|u p|op|cmd|src dst]; cbn [posts]; try done.
  destruct Hev as [-> ->]. by constructor.
Qed.

Lemma scene_blocks_nil (scene_prompts comfy_urls : list string)
    (base_workflow : json) (max_retries idx : Z) :
  scene_blocks scene_prompts comfy_urls base_workflow max_retries idx [].
Proof. split; [cbn; lia | done]. Qed.

Lemma scene_blocks_cons (prompt url : string) (rest comfy_urls : list string)
    (base_workflow : json) (max_retries idx : Z)
    (block : list (string * json)) (blocks : list (list (string * json))) :
  select_endpoint idx comfy_urls = Ok url →
  (length block ≤ Z.to_nat max_retries)%nat →
  Forall (λ up, up = (url +:+ "/prompt",
                      JDict [("prompt",
                              inject_scene_prompt base_workflow prompt)]))
    block →
  scene_blocks rest comfy_urls base_workflow max_retries (idx + 1) blocks →
  scene_blocks (prompt :: rest) comfy_urls base_workflow max_retries idx
    (block :: blocks).
Proof.
  intros Hsel Hlen Hall [Hn Hblocks]. split; [cbn; lia |].
  intros [|j] b Hb.
  - injection Hb as <-. exists prompt, url.
    rewrite Z.add_0_r. by repeat split.
  - destruct (Hblocks j b Hb) as (p & u & Hp & Hu & Hl & Ha).
    exists p, u. split; [done |]. split; [| done].
    by replace (idx + Z.of_nat (S j)) with (idx + 1 + Z.of_nat j) by lia.
Qed.

(** What the loop over the scenes does from any start index. *)
Lemma dispatch_loop_outcome (fuel : nat) (comfy_urls : list string)
    (base_workflow : json) (comfy_output_dir output_dir : string)
    (max_retries : Z) :
  ∀ (scene_prompts : list string) (idx : Z) (clip_paths : list string)
    (st : State),
    ∃ (evs : list event) (blocks : list (list (string * json))),
      claimed st
        (snd (dispatch_loop fuel idx scene_prompts comfy_urls base_workflow
                comfy_output_dir output_dir max_retries clip_paths st)) evs
      ∧ runs evs = [] ∧ writes evs = []
      ∧ posts evs = concat blocks
      ∧ scene_blocks scene_prompts comfy_urls base_workflow max_retries idx
          blocks
      ∧ scene_ordered output_dir idx evs
      ∧ (length (copies evs) ≤ length scene_prompts)%nat
      ∧ match fst (dispatch_loop fuel idx scene_prompts comfy_urls
                     base_workflow comfy_output_dir output_dir max_retries
                     clip_paths st) with
        | Return paths =>
            length (copies evs) = length scene_prompts
            ∧ paths
              = clip_paths
                ++ map (clip_path_of output_dir)
                     (seqZ idx (Z.of_nat (length scene_prompts)))
        | _ => (length (copies evs) < length scene_prompts)%nat
        end.
Proof.
  induction scene_prompts as [|prompt rest IH]; intros idx clip_paths st.
  { exists [], []. cbn [dispatch_loop ret fst snd length].
    split; [apply claimed_refl |]. split; [done |]. split; [done |].
    split; [done |]. split; [apply scene_blocks_nil |].
    split; [done |]. split; [cbn; lia |]. cbn. by rewrite app_nil_r. }
  cbn [dispatch_loop length].
  destruct (select_endpoint idx comfy_urls) as [url|e] eqn:Hsel.
  2:{ exists [], []. cbn.
      split; [apply claimed_refl |]. split; [done |]. split; [done |].
      split; [done |]. split; [apply scene_blocks_nil |].
      split; [done |]. split; lia. }
  rewrite (bind_return _ _ st st url) by done.
  destruct (attempts_loop_outcome fuel idx prompt url base_workflow
              comfy_output_dir output_dir max_retries (seqZ 1 max_retries) st)
    as (evs1 & (Hc1 & Hd1 & Hr1 & Hw1) & Hall1 & Hp1 & _ & Hres1).
  rewrite length_seqZ in Hp1.
  change (attempts_loop fuel (seqZ 1 max_retries) idx prompt url base_workflow
            comfy_output_dir output_dir max_retries)
    with (run_scene_through_comfy fuel idx prompt url base_workflow
            comfy_output_dir output_dir max_retries) in Hc1, Hres1.
  assert (scene_blocks (prompt :: rest) comfy_urls base_workflow max_retries
            idx [posts evs1]) as Hone.
  { apply (scene_blocks_cons prompt url); [done | done | done |].
    apply scene_blocks_nil. }
  destruct (run_scene_through_comfy fuel idx prompt url base_workflow
              comfy_output_dir output_dir max_retries st)
    as [[d|e|] st1] eqn:Hrun; cbn [fst snd ends_in_copy] in Hc1, Hres1.
  - rewrite (bind_return _ _ st st1 d) by done.
    destruct Hres1 as (-> & src & evs0 & -> & Hcp0 & _ & _).
    destruct (IH (idx + 1) (clip_paths ++ [clip_path_of output_dir idx]) st1)
      as (evs2 & blocks & Hc2 & Hr2 & Hw2 & Hp2 & Hb2 & Ho2 & Hk2 & Hres2).
    set (evs1 := evs0 ++ [EvDisk (OpCopy2 src (clip_path_of output_dir idx))])
      in *.
    assert (copies evs1 = [(src, clip_path_of output_dir idx)]) as Hcp1.
    { unfold evs1. by rewrite copies_app, Hcp0. }
    assert (scene_ordered output_dir idx evs1) as Ho1.
    { unfold evs1. apply scene_ordered_app.
      - apply Forall_app in Hd1 as [Hd0 _].
        exact (scene_ordered_quiet _ _ _ _ _ Hd0 Hcp0).
      - rewrite Hcp0. change (Z.of_nat (length [])) with 0.
        rewrite Z.add_0_r. by cbn. }
    exists (evs1 ++ evs2), (posts evs1 :: blocks).
    split; [by eapply claimed_trans |].
    rewrite runs_app, writes_app, posts_app, copies_app, Hr1, Hw1, Hr2, Hw2,
      Hp2, Hcp1.
    cbn [app length concat].
    split; [done |]. split; [done |]. split; [done |].
    split; [by apply (scene_blocks_cons prompt url) |].
    split.
    { apply scene_ordered_app; [done |]. by rewrite Hcp1. }
    split; [lia |].
    destruct (fst (dispatch_loop fuel (idx + 1) rest comfy_urls base_workflow
                     comfy_output_dir output_dir max_retries
                     (clip_paths ++ [clip_path_of output_dir idx]) st1))
      as [paths| |]; [| lia | lia].
    destruct Hres2 as [Hlen ->]. split; [lia |].
    rewrite <- app_assoc. f_equal.
    rewrite (seqZ_cons idx) by lia. cbn [map app]. do 3 f_equal; lia.
  - rewrite (bind_raise _ _ st st1 e) by done.
    exists evs1, [posts evs1]. cbn [fst snd concat]. rewrite app_nil_r, Hres1.
    split; [done |]. split; [done |]. split; [done |]. split; [done |].
    split; [done |]. split; [exact (scene_ordered_quiet _ _ _ _ _ Hd1 Hres1) |].
    cbn [length]. split; lia.
  - rewrite (bind_diverge _ _ st st1) by done.
    exists evs1, [posts evs1]. cbn [fst snd concat]. rewrite app_nil_r, Hres1.
    split; [done |]. split; [done |]. split; [done |]. split; [done |].
    split; [done |]. split; [exact (scene_ordered_quiet _ _ _ _ _ Hd1 Hres1) |].
    cbn [length]. split; lia.
Qed.
(** Everything [concat_clips] can do: nothing, the manifest alone, or
    the manifest and then the one external process. *)
Lemma concat_clips_outcome (clip_paths : list string) (final_output : string)
    (st : State) :
  let list_path := path_join (dirname final_output) "concat_list.txt" in
  ∃ evs,
    extends st (snd (concat_clips clip_paths final_output st)) evs
    ∧ (evs = []
       ∨ clip_paths ≠ []
         ∧ (evs = [EvDisk (OpWrite list_path (manifest clip_paths))]
            ∨ evs = [EvDisk (OpWrite list_path (manifest clip_paths));
                     EvRun (ffmpeg_cmd list_path final_output)]))
    ∧ (fst (concat_clips clip_paths final_output st) = Return tt →
       evs = [EvDisk (OpWrite list_path (manifest clip_paths));
              EvRun (ffmpeg_cmd list_path final_output)]).
Proof.
  intros list_path.
  destruct clip_paths as [|p l].
  { exists []. split; [apply extends_refl |]. split; [by left | done]. }
  unfold concat_clips. fold list_path. unfold bind, do_disk.
  destruct (disk (oracle st) (now st)
              (OpWrite list_path (manifest (p :: l)))) as [e|].
  { exists []. split; [apply extends_refl |]. split; [by left | done]. }
  cbn [log]. unfold subprocess_returncode. cbn [oracle now].
  destruct (subprocess_run (oracle st) (now st)
              (ffmpeg_cmd list_path final_output)) as [code|e].
  - exists [EvDisk (OpWrite list_path (manifest (p :: l)));
            EvRun (ffmpeg_cmd list_path final_output)].
    unfold bind. cbn [log ret].
    split.
    { destruct (negb (code =? 0)); split; cbn; try done;
        by rewrite <- app_assoc. }
    split; [right; split; [done | by right] | done].
  - exists [EvDisk (OpWrite list_path (manifest (p :: l)))].
    split; [done |]. split; [right; split; [done | by left] | done].
Qed.


Lemma render_trace_idle (scene_prompts comfy_urls : list string)
    (base_workflow : json) (output_dir : string) (max_retries : Z)
    (snapshot : list string) (evs : list event) :
  runs evs = [] → writes evs = [] → posts evs = [] → copy_calls evs = [] →
  render_trace scene_prompts comfy_urls base_workflow output_dir max_retries
    snapshot evs 0 [].
Proof.
  intros Hr Hw Hp Hcc. unfold render_trace.
  rewrite Hcc, (copies_copy_calls _ Hcc).
  split; [done |]. split; [done |]. split; [done |].
  split; [apply scene_blocks_nil |]. split; [lia |]. split; [done |].
  split; [by apply scene_ordered_no_calls |]. split; [constructor |].
  intros p Hp'. by apply not_elem_of_nil in Hp'.
Qed.

(** What the rendering part of [main] does, in two phases: the scenes,
    then the assembly. *)
Lemma main_render_outcome (fuel : nat) (scene_prompts comfy_urls : list string)
    (base_workflow : json) (comfy_output_dir output_dir : string)
    (max_retries : Z) (st : State) :
  let final_video := path_join output_dir "final_video.mp4" in
  let list_path := path_join (dirname final_video) "concat_list.txt" in
  let clips :=
    map (clip_path_of output_dir)
      (seqZ 1 (Z.of_nat (length scene_prompts))) in
  ∃ (evs1 evs2 : list event) (k : nat) (blocks : list (list (string * json))),
    extends st
      (snd (main_render fuel scene_prompts comfy_urls base_workflow
              comfy_output_dir output_dir max_retries st)) (evs1 ++ evs2)
    ∧ render_trace scene_prompts comfy_urls base_workflow output_dir
        max_retries (snapshot_at (oracle st) comfy_output_dir (now st))
        evs1 k blocks
    ∧ (evs2 = []
       ∨ k = length scene_prompts ∧ scene_prompts ≠ []
         ∧ (evs2 = [EvDisk (OpWrite list_path (manifest clips))]
            ∨ evs2 = [EvDisk (OpWrite list_path (manifest clips));
                      EvRun (ffmpeg_cmd list_path final_video)]))
    ∧ (fst (main_render fuel scene_prompts comfy_urls base_workflow
              comfy_output_dir output_dir max_retries st) = Return tt →
       evs2 = [EvDisk (OpWrite list_path (manifest clips));
               EvRun (ffmpeg_cmd list_path final_video)]).
Proof.
  intros final_video list_path clips.
  remember (main_render fuel scene_prompts comfy_urls base_workflow
              comfy_output_dir output_dir max_retries st) as res eqn:Hm.
  unfold main_render in Hm. fold final_video in Hm.
  unfold bind at 1 in Hm. unfold do_disk at 1 in Hm.
  destruct (disk (oracle st) (now st) (OpMakedirs comfy_output_dir)) as [e|].
  { subst res. exists [], [], 0%nat, []. cbn [fst snd].
    split; [apply extends_refl |].
    split; [by apply render_trace_idle |]. split; [by left | done]. }
  cbn [log] in Hm.
  unfold bind at 1 in Hm. rewrite list_mp4s_eq in Hm. cbn [oracle now] in Hm.
  unfold snapshot_at.
  destruct (listdir (oracle st) (now st) comfy_output_dir) as [names|].
  2:{ subst res. exists [EvDisk (OpMakedirs comfy_output_dir)], [], 0%nat, [].
      cbn [fst snd]. split; [done |].
      split; [by apply render_trace_idle |]. split; [by left | done]. }
  set (paths := map (path_join comfy_output_dir)
                  (filter (λ f, is_mp4 f = true) names)).
  fold paths in Hm.
  unfold bind at 1 in Hm. cbn [set_known_files oracle now trace] in Hm.
  set (st2 := {| oracle := oracle st; now := now st;
                 known_files := list_to_set paths;
                 trace := trace st ++ [EvDisk (OpMakedirs comfy_output_dir)] |})
    in Hm.
  destruct (dispatch_loop_outcome fuel comfy_urls base_workflow
              comfy_output_dir output_dir max_retries scene_prompts 1 [] st2)
    as (evs & blocks & (Hx & _ & Hnd & Hfresh) & Hr & Hw & Hp & Hb & Ho & Hk
        & Hres).
  assert (render_trace scene_prompts comfy_urls base_workflow output_dir
            max_retries paths (EvDisk (OpMakedirs comfy_output_dir) :: evs)
            (length (copies evs)) blocks) as Hscenes.
  { unfold render_trace. cbn [runs writes posts copies copy_calls
                               scene_ordered].
    do 5 (split; [done |]). split; [by apply scene_ordered_copies |].
    do 2 (split; [done |]).
    intros p Hin Hp'. destruct (Hfresh p Hin) as [Hout _]. apply Hout.
    cbn [known_files st2]. by apply elem_of_list_to_set. }
  unfold bind in Hm.
  destruct (dispatch_loop fuel 1 scene_prompts comfy_urls base_workflow
              comfy_output_dir output_dir max_retries [] st2)
    as [[clip_paths|e|] st3] eqn:Hloop; cbn [fst snd] in Hx, Hres;
    subst res.
  - destruct Hres as [Hlen Hpaths]. cbn [app] in Hpaths. subst clip_paths.
    fold clips.
    destruct (concat_clips_outcome clips final_video st3)
      as (evs2 & Hx2 & Hevs2 & Hret). fold list_path in Hevs2, Hret.
    exists (EvDisk (OpMakedirs comfy_output_dir) :: evs), evs2,
      (length (copies evs)), blocks.
    split.
    { eapply (extends_trans st st2 _ [EvDisk (OpMakedirs comfy_output_dir)]
                (evs ++ evs2)); [done |].
      by eapply extends_trans. }
    split; [done |]. split; [| done].
    destruct Hevs2 as [-> | [Hne Hevs2]]; [by left | right].
    split; [done |]. split; [| done].
    intros ->. by apply Hne.
  - exists (EvDisk (OpMakedirs comfy_output_dir) :: evs), [],
      (length (copies evs)), blocks.
    cbn [fst snd]. rewrite app_nil_r.
    split.
    { by eapply (extends_trans st st2 _
                   [EvDisk (OpMakedirs comfy_output_dir)] evs). }
    split; [done |]. split; [by left | done].
  - exists (EvDisk (OpMakedirs comfy_output_dir) :: evs), [],
      (length (copies evs)), blocks.
    cbn [fst snd]. rewrite app_nil_r.
    split.
    { by eapply (extends_trans st st2 _
                   [EvDisk (OpMakedirs comfy_output_dir)] evs). }
    split; [done |]. split; [by left | done].
Qed.

Lemma copies_assembly (evs2 : list event) (list_path content : string)
    (cmd : list string) :
  evs2 = [] ∨ evs2 = [EvDisk (OpWrite list_path content)]
  ∨ evs2 = [EvDisk (OpWrite list_path content); EvRun cmd] →
  copy_calls evs2 = [] ∧ copies evs2 = [] ∧ posts evs2 = [].
Proof. by intros [-> | [-> | ->]]. Qed.

(** X15: Whatever happens during the rendering: the clips whose copy
    completed are [scene_01.mp4], [scene_02.mp4], ... in this order, none
    skipped, one completed copy for each; every call of [copy2], completed
    or not, goes to the clip of the first scene whose copy has not yet
    completed; and the sources of all these calls are pairwise distinct
    files, none of which was in the watched folder when the rendering
    began. *)
Theorem main_render_clips (fuel : nat) (scene_prompts comfy_urls : list string)
    (base_workflow : json) (comfy_output_dir output_dir : string)
    (max_retries : Z) (st : State) :
  ∃ (evs : list event) (k : nat),
    extends st
      (snd (main_render fuel scene_prompts comfy_urls base_workflow
              comfy_output_dir output_dir max_retries st)) evs
    ∧ (k ≤ length scene_prompts)%nat
    ∧ (copies evs).*2
      = map (clip_path_of output_dir) (seqZ 1 (Z.of_nat k))
    ∧ scene_ordered output_dir 1 evs
    ∧ NoDup (copy_calls evs).*1
    ∧ ∀ p, p ∈ (copy_calls evs).*1 →
           p ∉ snapshot_at (oracle st) comfy_output_dir (now st).
Proof.
  destruct (main_render_outcome fuel scene_prompts comfy_urls base_workflow
              comfy_output_dir output_dir max_retries st)
    as (evs1 & evs2 & k & blocks & Hx
        & (_ & _ & _ & _ & Hk & Hcp & Ho & Hnd & Hsnap) & Hevs2 & _).
  exists (evs1 ++ evs2), k.
  destruct (copies_assembly evs2
              (path_join (dirname (path_join output_dir "final_video.mp4"))
                 "concat_list.txt")
              (manifest (map (clip_path_of output_dir)
                           (seqZ 1 (Z.of_nat (length scene_prompts)))))
              (ffmpeg_cmd
                 (path_join (dirname (path_join output_dir "final_video.mp4"))
                    "concat_list.txt")
                 (path_join output_dir "final_video.mp4")))
    as (Hcc2 & Hcp2 & _).
  { destruct Hevs2 as [-> | (_ & _ & [-> | ->])]; auto. }
  rewrite copies_app, copy_calls_app, Hcc2, Hcp2, !app_nil_r.
  split; [done |]. split; [done |]. split; [done |].
  split; [| done].
  apply scene_ordered_app; [done |]. by apply scene_ordered_no_calls.
Qed.

(** X16: The assembly comes last and only after a complete render: the
    manifest is written, and ffmpeg started, only once every scene has
    been copied to its clip; the manifest then lists the clips
    [scene_01.mp4] ... [scene_N.mp4] in scene order, ffmpeg runs at most
    once, and nothing is requested or copied afterwards. *)
Theorem main_render_assembly (fuel : nat)
    (scene_prompts comfy_urls : list string) (base_workflow : json)
    (comfy_output_dir output_dir : string) (max_retries : Z) (st : State) :
  let final_video := path_join output_dir "final_video.mp4" in
  let list_path := path_join (dirname final_video) "concat_list.txt" in
  let clips :=
    map (clip_path_of output_dir)
      (seqZ 1 (Z.of_nat (length scene_prompts))) in
  ∃ evs1 evs2 : list event,
    extends st
      (snd (main_render fuel scene_prompts comfy_urls base_workflow
              comfy_output_dir output_dir max_retries st)) (evs1 ++ evs2)
    ∧ runs evs1 = [] ∧ writes evs1 = []
    ∧ copies evs2 = [] ∧ posts evs2 = []
    ∧ (evs2 = []
       ∨ scene_prompts ≠ [] ∧ (copies evs1).*2 = clips
         ∧ (evs2 = [EvDisk (OpWrite list_path (manifest clips))]
            ∨ evs2 = [EvDisk (OpWrite list_path (manifest clips));
                      EvRun (ffmpeg_cmd list_path final_video)])).
Proof.
  intros final_video list_path clips.
  destruct (main_render_outcome fuel scene_prompts comfy_urls base_workflow
              comfy_output_dir output_dir max_retries st)
    as (evs1 & evs2 & k & blocks & Hx
        & (Hr & Hw & _ & _ & _ & Hcp & _) & Hevs2 & _).
  fold final_video list_path clips in Hevs2.
  exists evs1, evs2. split; [done |]. split; [done |]. split; [done |].
  destruct Hevs2 as [-> | (-> & Hne & Hevs2)].
  - split; [done |]. split; [done | by left].
  - destruct (copies_assembly evs2 list_path (manifest clips)
                (ffmpeg_cmd list_path final_video)) as (_ & Hc & Hp).
    { right. exact Hevs2. }
    split; [done |]. split; [done |]. right. by repeat (split; [done |]).
Qed.

(** X17: The requests of the rendering come in blocks, one for each
    scene that was dispatched, in scene order: the block of scene j holds
    at most [max_retries] requests, and each of them sends that scene's
    workflow to the [/prompt] route of that scene's backend,
    [comfy_urls[(j - 1) mod L]]. Nothing else is requested. *)
Theorem main_render_requests (fuel : nat)
    (scene_prompts comfy_urls : list string) (base_workflow : json)
    (comfy_output_dir output_dir : string) (max_retries : Z) (st : State) :
  ∃ (evs : list event) (blocks : list (list (string * json))),
    extends st
      (snd (main_render fuel scene_prompts comfy_urls base_workflow
              comfy_output_dir output_dir max_retries st)) evs
    ∧ posts evs = concat blocks
    ∧ (length blocks ≤ length scene_prompts)%nat
    ∧ ∀ (j : nat) block,
        blocks !! j = Some block →
        ∃ prompt url,
          scene_prompts !! j = Some prompt
          ∧ select_endpoint (1 + Z.of_nat j) comfy_urls = Ok url
          ∧ (length block ≤ Z.to_nat max_retries)%nat
          ∧ Forall (λ up, up = (url +:+ "/prompt",
                                JDict [("prompt",
                                        inject_scene_prompt base_workflow
                                          prompt)])) block.
Proof.
  destruct (main_render_outcome fuel scene_prompts comfy_urls base_workflow
              comfy_output_dir output_dir max_retries st)
    as (evs1 & evs2 & k & blocks & Hx
        & (_ & _ & Hp & (Hlen & Hblocks) & _) & Hevs2 & _).
  exists (evs1 ++ evs2), blocks.
  assert (posts evs2 = []) as Hnone.
  { destruct Hevs2 as [-> | (_ & _ & [-> | ->])]; done. }
  rewrite posts_app, Hnone, app_nil_r. by repeat (split; [done |]).
Qed.

Example main_render_requests_sample :
  posts (trace (snd studio_run))
  = [("http://127.0.0.1:8188/prompt",
      JDict [("prompt", inject_scene_prompt sample_workflow "a robot paints")]);
     ("http://127.0.0.1:8288/prompt",
      JDict [("prompt",
              inject_scene_prompt sample_workflow "the robot sleeps")])].
Proof. vm_compute. reflexivity. Qed.

(** X18: A rendering that returns had at least one scene, copied every
    scene's clip, in order, and then, as its last two effects, wrote the
    manifest of these clips and ran ffmpeg on it. *)
Theorem main_render_returns (fuel : nat)
    (scene_prompts comfy_urls : list string) (base_workflow : json)
    (comfy_output_dir output_dir : string) (max_retries : Z)
    (st st' : State) :
  let final_video := path_join output_dir "final_video.mp4" in
  let list_path := path_join (dirname final_video) "concat_list.txt" in
  let clips :=
    map (clip_path_of output_dir)
      (seqZ 1 (Z.of_nat (length scene_prompts))) in
  main_render fuel scene_prompts comfy_urls base_workflow comfy_output_dir
    output_dir max_retries st = (Return tt, st') →
  scene_prompts ≠ []
  ∧ ∃ evs1 : list event,
      trace st'
      = trace st ++ evs1
        ++ [EvDisk (OpWrite list_path (manifest clips));
            EvRun (ffmpeg_cmd list_path final_video)]
      ∧ (copies evs1).*2 = clips
      ∧ runs evs1 = [] ∧ writes evs1 = [].
Proof.
  intros final_video list_path clips Hrun.
  destruct (main_render_outcome fuel scene_prompts comfy_urls base_workflow
              comfy_output_dir output_dir max_retries st)
    as (evs1 & evs2 & k & blocks & Hx
        & (Hr & Hw & _ & _ & _ & Hcp & _) & Hevs2 & Hret).
  fold final_video list_path clips in Hevs2, Hret.
  rewrite Hrun in Hx, Hret. cbn [fst snd] in Hx, Hret.
  specialize (Hret eq_refl). subst evs2.
  destruct Hevs2 as [Hnil | (-> & Hne & _)]; [done |].
  split; [done |]. exists evs1. destruct Hx as [_ Htr].
  by repeat (split; [done |]).
Qed.

Lemma main_render_returns_witness :
  ∃ evs1 : list event,
    trace (snd studio_run)
    = evs1
      ++ [EvDisk (OpWrite "clips/concat_list.txt"
                    (manifest ["clips/scene_01.mp4"; "clips/scene_02.mp4"]));
          EvRun (ffmpeg_cmd "clips/concat_list.txt" "clips/final_video.mp4")]
    ∧ (copies evs1).*2 = ["clips/scene_01.mp4"; "clips/scene_02.mp4"].
Proof.
  assert (main_render 20 ["a robot paints"; "the robot sleeps"] studio_urls
            sample_workflow "out" "clips" 2 (initial_state studio_oracle ∅)
          = (Return tt, snd studio_run)) as Hrun
    by (apply with_snd; vm_compute; reflexivity).
  destruct (main_render_returns 20 ["a robot paints"; "the robot sleeps"]
              studio_urls sample_workflow "out" "clips" 2
              (initial_state studio_oracle ∅) (snd studio_run) Hrun)
    as (_ & evs1 & Htr & Hcp & _).
  exists evs1. split.
  - rewrite Htr. vm_compute. reflexivity.
  - rewrite Hcp. vm_compute. reflexivity.
Defined.

(** X19: With no scene at all the rendering sends no request and copies
    nothing: once the watched folder is made and listed it stops with the
    assembler's error, the folder's clips recorded as known. *)
Theorem main_render_no_scenes (fuel : nat) (comfy_urls : list string)
    (base_workflow : json) (comfy_output_dir output_dir : string)
    (max_retries : Z) (st : State) (names : list string) :
  disk (oracle st) (now st) (OpMakedirs comfy_output_dir) = None →
  listdir (oracle st) (now st) comfy_output_dir = Some names →
  main_render fuel [] comfy_urls base_workflow comfy_output_dir output_dir
    max_retries st
  = (Raise (ValueError "No clips to concatenate."),
     {| oracle := oracle st; now := now st;
        known_files :=
          list_to_set (snapshot_at (oracle st) comfy_output_dir (now st));
        trace := trace st ++ [EvDisk (OpMakedirs comfy_output_dir)] |}).
Proof.
  intros Hmk Hls. unfold main_render, snapshot_at.
  unfold bind at 1. unfold do_disk. rewrite Hmk. cbn [log].
  unfold bind at 1. rewrite list_mp4s_eq. cbn [oracle now]. rewrite Hls.
  reflexivity.
Qed.

Lemma main_render_no_scenes_witness :
  main_render 20 [] studio_urls sample_workflow "out" "clips" 2
    (initial_state studio_oracle ∅)
  = (Raise (ValueError "No clips to concatenate."),
     {| oracle := studio_oracle; now := 0;
        known_files := list_to_set (snapshot_at studio_oracle "out" 0);
        trace := [EvDisk (OpMakedirs "out")] |}).
Proof.
  apply (main_render_no_scenes 20 studio_urls sample_workflow "out" "clips" 2
           (initial_state studio_oracle ∅) ["old.mp4"]); reflexivity.
Defined.

(** ** Documents without the placeholder, and other persisted forms *)

Lemma clean_prefix_sound (old s : string) :
  old ≠ "" → clean_prefix old s "" = true →
  ∀ pre post, s ≠ pre +:+ old +:+ post.
Proof.
  intros Hne Hclean pre. revert s Hclean.
  induction pre as [|c pre IH]; intros s Hclean post Hs.
  - rewrite append_nil_l in Hs. subst s.
    destruct old as [|a old]; [done |].
    rewrite append_cons in Hclean. cbn [clean_prefix] in Hclean.
    rewrite append_empty_r in Hclean.
    rewrite <- append_cons in Hclean.
    by rewrite startswith_app in Hclean.
  - rewrite append_cons in Hs. subst s.
    cbn [clean_prefix] in Hclean.
    apply andb_prop in Hclean as [_ Hclean].
    by apply (IH _ Hclean post).
Qed.

Lemma _replace_no_token (scene_prompt : string) (d : json) :
  Forall (λ s, ∀ pre post, s ≠ pre +:+ PROMPT_PLACEHOLDER +:+ post)
    (strings_of d) →
  _replace scene_prompt d = d.
Proof.
  induction d as [ | | | | s | l IH | kvs IH] using json_nested_ind;
    cbn [_replace strings_of]; try done.
  - intros Hs. apply Forall_cons in Hs as [Hs _].
    f_equal. by apply replace_no_occurrence.
  - intros Hall. f_equal.
    induction IH as [|x l Hx _ IHl]; [done |].
    cbn [map concat] in Hall |- *. apply Forall_app in Hall as [H1 H2].
    by rewrite (Hx H1), (IHl H2).
  - intros Hall. f_equal.
    induction IH as [|[k v] kvs Hx _ IHl]; [done |].
    cbn [map concat fst snd] in Hall, Hx |- *.
    apply Forall_app in Hall as [H1 H2].
    by rewrite (Hx H1), (IHl H2).
Qed.

(** X20: A workflow none of whose string values contains the placeholder
    comes back unchanged, whatever the prompt: keys that spell the
    placeholder do not count. *)
Theorem inject_scene_prompt_no_token (workflow : json) (scene_prompt : string) :
  Forall (λ s, ∀ pre post, s ≠ pre +:+ PROMPT_PLACEHOLDER +:+ post)
    (strings_of workflow) →
  inject_scene_prompt workflow scene_prompt = workflow.
Proof.
  intros Hall. unfold inject_scene_prompt.
  revert Hall. generalize workflow. clear workflow.
  intros d Hall. by apply _replace_no_token.
Qed.

Lemma inject_scene_prompt_no_token_witness :
  inject_scene_prompt
    (JDict [("__SCENE_PROMPT__",
             JList [JStr "__SCENE_PROMPT_"; JInt 3; JStr "no token here"])])
    "a robot paints"
  = JDict [("__SCENE_PROMPT__",
            JList [JStr "__SCENE_PROMPT_"; JInt 3; JStr "no token here"])].
Proof.
  apply (inject_scene_prompt_no_token
           (JDict [("__SCENE_PROMPT__",
                    JList [JStr "__SCENE_PROMPT_"; JInt 3;
                           JStr "no token here"])])
           "a robot paints").
  cbn [strings_of map concat app snd].
  repeat constructor; apply clean_prefix_sound; done.
Defined.

Lemma load_scene_chars (py_str : json → string) (s : string) :
  map (load_scene py_str) (chars_of s) = utf8_chars s.
Proof.
  unfold chars_of. rewrite map_map. cbn [load_scene]. apply map_id.
Qed.

(** The characters of a text make up the text. *)
Lemma utf8_chars_concat (s : string) :
  foldr String.append "" (utf8_chars s) = s.
Proof.
  induction s as [|c s IH]; [done |].
  cbn [utf8_chars]. destruct s as [|d s']; [done |].
  destruct (is_continuation d).
  - destruct (utf8_chars (String d s')) as [|ch rest]; [done |].
    cbn [foldr] in *. by rewrite append_cons, IH.
  - cbn [foldr]. by rewrite append_cons, append_nil_l, IH.
Qed.

(** The first character begins with the first byte; every other begins
    with a byte that continues none; and each goes on with bytes that
    continue it, as far as they go. *)
Lemma utf8_chars_shape (s : string) :
  match s, utf8_chars s with
  | EmptyString, chars => chars = []
  | String c _, ch :: rest =>
      (∃ r, ch = String c r ∧ continuation_only r = true)
      ∧ Forall (λ x, one_char x = true) rest
  | String _ _, [] => False
  end.
Proof.
  induction s as [|c s IH]; [done |].
  cbn [utf8_chars]. destruct s as [|d s']; [by split; [exists "" |] |].
  destruct (is_continuation d) eqn:Hd.
  - destruct (utf8_chars (String d s')) as [|ch rest]; [done |].
    destruct IH as [(r & -> & Hr) Hrest]. split; [| done].
    exists (String d r). split; [done |]. cbn [continuation_only].
    by rewrite Hd, Hr.
  - split; [by exists "" |].
    destruct (utf8_chars (String d s')) as [|ch rest]; [done |].
    destruct IH as [(r & -> & Hr) Hrest]. constructor; [| done].
    cbn [one_char]. by rewrite Hd, Hr.
Qed.

Lemma utf8_chars_ascii (s : string) :
  ascii_only s = true →
  utf8_chars s
  = map (λ c, String c EmptyString) (String.list_ascii_of_string s).
Proof.
  induction s as [|c s IH]; [done |].
  cbn [ascii_only]. intros [_ Hs]%andb_prop.
  cbn [utf8_chars String.list_ascii_of_string map].
  destruct s as [|d s']; [done |].
  assert (is_continuation d = false) as ->.
  { cbn [ascii_only] in Hs. apply andb_prop in Hs as [Hd _].
    unfold is_continuation. apply N.ltb_lt in Hd.
    apply andb_false_intro1, N.leb_gt. lia. }
  by rewrite (IH Hs).
Qed.

(** X21: What the loader makes of documents that are no [scenes]
    object: a bare list of strings is taken as it is; an object without a
    [scenes] key gives its keys; a string gives its characters, one
    prompt each: the prompts make up the string, each is one byte with
    the bytes that continue it, and each but the first begins a
    character (for ASCII text that is one prompt for each byte); null, a
    boolean or a number, alone or under [scenes], is a [TypeError]. *)
Theorem load_scene_prompts_other_documents (py_str : json → string) :
  (∀ l, load_scene_prompts py_str (JList (map JStr l)) = Ok l)
  ∧ (∀ kvs, dict_get "scenes" kvs = None →
            load_scene_prompts py_str (JDict kvs) = Ok kvs.*1)
  ∧ (∀ s, ∃ out,
       load_scene_prompts py_str (JStr s) = Ok out
       ∧ foldr String.append "" out = s
       ∧ Forall (λ ch, char_bytes ch = true) out
       ∧ Forall (λ ch, one_char ch = true) (tail out)
       ∧ (ascii_only s = true →
          out = map (λ c, String c EmptyString)
                  (String.list_ascii_of_string s)))
  ∧ (∀ v, plain_scalar v = true →
          load_scene_prompts py_str v = Err TypeError
          ∧ load_scene_prompts py_str (JDict [("scenes", v)])
            = Err TypeError).
Proof.
  split; [| split; [| split]].
  - intros l. unfold load_scene_prompts. cbn [py_iter].
    by rewrite load_scene_dumped.
  - intros kvs Hno. unfold load_scene_prompts. rewrite Hno. cbn [py_iter].
    f_equal. rewrite map_map. by apply map_ext.
  - intros s. exists (utf8_chars s). unfold load_scene_prompts.
    cbn [py_iter]. rewrite load_scene_chars.
    split; [done |]. split; [apply utf8_chars_concat |].
    pose proof (utf8_chars_shape s) as Hshape.
    assert (Forall (λ ch, one_char ch = true) (tail (utf8_chars s))) as Htail.
    { destruct s as [|c s'], (utf8_chars _) as [|ch rest]; cbn [tail];
        try done; try constructor.
      by destruct Hshape. }
    split; [| split; [done | apply utf8_chars_ascii]].
    destruct s as [|c s'], (utf8_chars _) as [|ch rest]; try done.
    destruct Hshape as [(r & -> & Hr) _]. constructor; [done |].
    cbn [tail] in Htail. eapply Forall_impl; [exact Htail |].
    intros [|x y]; cbn [one_char char_bytes]; [done |].
    by intros [_ ?]%andb_prop.
  - intros v Hv. by destruct v.
Qed.

(** The text [hé], three bytes, is two characters and loads as two
    prompts. *)
Example load_scene_prompts_two_characters (py_str : json → string) :
  load_scene_prompts py_str
    (JDict [("scenes",
             JStr (String "h" (String "195" (String "169" EmptyString))))])
  = Ok [String "h" EmptyString;
        String "195" (String "169" EmptyString)].
Proof. reflexivity. Qed.

(** ** The generating path of [main] *)

Lemma call_lmstudio_done (json_loads : string → option json)
    (py_str : json → string) (isspace : ascii → bool)
    (story_prompt : string) (num_scenes : Z) (st : State)
    (prompts : list string) :
  fst (call_lmstudio json_loads py_str isspace story_prompt num_scenes st)
  = Done prompts →
  ∃ content,
    prompts_of_content json_loads py_str isspace content num_scenes
    = Ok prompts.
Proof.
  unfold call_lmstudio. cbv zeta.
  destruct (http_post _ _ _ _) as [resp|e]; [| done].
  destruct (resp_ok resp); [| done].
  destruct (body resp) as [data|]; [| done].
  cbn [fst]. destruct (reply_content data) as [content|]; [| done].
  cbn [result_bind].
  destruct (prompts_of_content json_loads py_str isspace content num_scenes)
    as [out|] eqn:Hout; [| done].
  intros [= ->]. by exists content.
Qed.

(** X22: On the generating path the prompts [call_lmstudio] returned for a
    target count of zero or more pass the adjustment of [main]
    unchanged: what is written to the scenes file is what is rendered. *)
Theorem generated_prompts_pass_adjustment (json_loads : string → option json)
    (py_str : json → string) (isspace : ascii → bool)
    (story_prompt : string) (num_scenes : Z) (st : State)
    (prompts : list string) :
  0 ≤ num_scenes →
  fst (call_lmstudio json_loads py_str isspace story_prompt num_scenes st)
  = Done prompts →
  main_adjust_scene_count prompts num_scenes = Ok prompts.
Proof.
  intros Hnum Hdone.
  destruct (call_lmstudio_done _ _ _ _ _ _ _ Hdone) as [content Hout].
  destruct (prompts_of_content_spec _ _ _ _ _ _ Hout) as [_ Hlen].
  specialize (Hlen Hnum). unfold main_adjust_scene_count.
  rewrite Hlen, Z.eqb_refl. by rewrite andb_false_r.
Qed.

Lemma generated_prompts_pass_adjustment_witness :
  main_adjust_scene_count ["A"; "T: D"; "T: D"] 3 = Ok ["A"; "T: D"; "T: D"].
Proof.
  apply (generated_prompts_pass_adjustment sample_loads sample_str
           ascii_isspace "a robot learns to paint" 3
           (initial_state lmstudio_oracle ∅)); [lia |].
  vm_compute. reflexivity.
Defined.
